(** * Gerrymandering map viewer: the drilldown controller and its caches

    A shallow embedding of [static/main.js] (the nationwide + state
    drilldown page) and of the earlier single-state page (module [Mvp]),
    with the properties of the state table, the metrics cache, the district
    loader, the render layer and the plan-generation placeholder.

    The browser is single threaded: an [async] function runs without
    interruption up to its next [await], and another handler runs only
    while a call waits for the network, never between the settling of a
    promise and the continuations that wait for it (those are microtasks,
    which run before the next event).  Functions are therefore embedded as
    resumptions (type [async]): trees of synchronous reads and writes of the
    page's global variables that are cut where a call waits for a response
    or for the body of one.  Two interpreters run them: [run_seq] answers
    every network request from a fixed network and runs one call to its
    end, [step] interleaves several pending calls under an arbitrary order
    of completions.

    What lies outside the two scripts is kept abstract.  Leaflet is a list
    of overlays and a viewport decided by the last [fitBounds]; the DOM is
    the record of what [showMetrics] last wrote; [topojson.feature] has
    already expanded a topology into features.  Strings are ASCII and JSON
    numbers are integers.  The lookups of a state code in [STATE_FIPS], of
    a padded id in [FIPS_STATE] and of a classification in [COLORS] by
    [stateStyleSync] find the members that the tables inherit from
    [Object.prototype], as the script does; the keys of [METRICS_CACHE]
    and the classification that [showMetrics] looks up in [COLORS] are not
    names of such members. *)

From Stdlib Require Import ZArith String Ascii List Bool Lia.
From stdpp Require Import gmap strings list pretty.

Open Scope string_scope.
Set Warnings "-register-all".

(** ** JavaScript values *)

(** Primitive values.  Numbers are integers: the program only tests them
    for truthiness and converts them to strings. *)
Inductive prim : Type :=
| PUndef
| PNull
| PBool (b : bool)
| PNum (n : Z)
| PStr (s : string).

(** A JavaScript object as the ordered list of its own properties. *)
Definition obj (V : Type) : Type := list (string * V).

(** Values as [JSON.parse] builds them.  An array also carries named
    properties, because an assignment [a.summary = ...] on an array adds
    one. *)
Inductive val : Type :=
| VPrim (p : prim)
| VArr (items : list val) (props : obj val)
| VObj (props : obj val).

(** What a variable holds: a primitive, or a reference to an object of the
    heap.  [===] on two references compares the locations. *)
Inductive ref : Type :=
| RPrim (p : prim)
| RObj (l : nat).

Definition undefined : val := VPrim PUndef.

Definition truthy_prim (p : prim) : bool :=
  match p with
  | PUndef | PNull => false
  | PBool b => b
  | PNum n => negb (n =? 0)%Z
  | PStr s => negb (String.eqb s "")
  end.

Definition truthy (v : val) : bool :=
  match v with
  | VPrim p => truthy_prim p
  | _ => true
  end.

Definition truthy_ref (r : ref) : bool :=
  match r with
  | RPrim p => truthy_prim p
  | RObj _ => true
  end.

(** [a || b] *)
Definition por (a b : prim) : prim := if truthy_prim a then a else b.
Definition vor (a b : val) : val := if truthy a then a else b.

(** [v === "s"] for a string literal [s]. *)
Definition is_string (v : val) (s : string) : bool :=
  match v with
  | VPrim (PStr t) => String.eqb t s
  | _ => false
  end.

(** [o[k]] on own properties; [None] is [undefined]. *)
Fixpoint obj_get {V : Type} (o : obj V) (k : string) : option V :=
  match o with
  | [] => None
  | (k', v) :: rest => if String.eqb k' k then Some v else obj_get rest k
  end.

(** [o[k] = v]: an existing property keeps its place, a new one is added
    last. *)
Fixpoint obj_set {V : Type} (o : obj V) (k : string) (v : V) : obj V :=
  match o with
  | [] => [(k, v)]
  | (k', v') :: rest =>
      if String.eqb k' k then (k, v) :: rest else (k', v') :: obj_set rest k v
  end.

(** [Object.fromEntries]: later entries overwrite earlier ones. *)
Definition fromEntries {V : Type} (entries : list (string * V)) : obj V :=
  fold_left (fun o kv => obj_set o (fst kv) (snd kv)) entries [].

(** [v.k] for the property names this program reads ([summary], [notes],
    [classification]), none of which is a member of a primitive's wrapper
    or of [Array.prototype].  [None] is the TypeError of reading a property
    of [null] or [undefined]. *)
Definition get_prop (v : val) (k : string) : option val :=
  match v with
  | VPrim PUndef | VPrim PNull => None
  | VPrim _ => Some undefined
  | VArr _ props | VObj props => Some (default undefined (obj_get props k))
  end.

(** [v.k = x] for the same names; on a primitive the assignment is dropped
    (the scripts are not in strict mode). *)
Definition set_prop (v : val) (k : string) (x : val) : val :=
  match v with
  | VPrim p => VPrim p
  | VArr items props => VArr items (obj_set props k x)
  | VObj props => VObj (obj_set props k x)
  end.

(** [String(p)], which is also [p.toString()] when [p] is neither [null]
    nor [undefined]. *)
Definition String_of (p : prim) : string :=
  match p with
  | PUndef => "undefined"
  | PNull => "null"
  | PBool true => "true"
  | PBool false => "false"
  | PNum n => pretty n
  | PStr s => s
  end.

(** [s.padStart(n, c)] for a one-character filler [c]. *)
Definition padStart (n : nat) (c : ascii) (s : string) : string :=
  String.concat "" (repeat (String c EmptyString) (n - String.length s)) +:+ s.

Definition upper_ascii (c : ascii) : ascii :=
  let n := nat_of_ascii c in
  if (97 <=? n)%nat && (n <=? 122)%nat then ascii_of_nat (n - 32) else c.

(** [s.toUpperCase()] on ASCII text. *)
Fixpoint toUpperCase (s : string) : string :=
  match s with
  | EmptyString => EmptyString
  | String c rest => String (upper_ascii c) (toUpperCase rest)
  end.

(** ** The state table *)

Definition US_ATLAS_CONGRESS : string :=
  "https://cdn.jsdelivr.net/npm/us-atlas@3/congress-118.json".

Definition STATE_FIPS : obj string :=
  [ ("AL", "01"); ("AK", "02"); ("AZ", "04"); ("AR", "05"); ("CA", "06"); ("CO", "08");
    ("CT", "09"); ("DE", "10"); ("FL", "12"); ("GA", "13"); ("HI", "15"); ("ID", "16");
    ("IL", "17"); ("IN", "18"); ("IA", "19"); ("KS", "20"); ("KY", "21"); ("LA", "22");
    ("ME", "23"); ("MD", "24"); ("MA", "25"); ("MI", "26"); ("MN", "27"); ("MS", "28");
    ("MO", "29"); ("MT", "30"); ("NE", "31"); ("NV", "32"); ("NH", "33"); ("NJ", "34");
    ("NM", "35"); ("NY", "36"); ("NC", "37"); ("ND", "38"); ("OH", "39"); ("OK", "40");
    ("OR", "41"); ("PA", "42"); ("RI", "44"); ("SC", "45"); ("SD", "46"); ("TN", "47");
    ("TX", "48"); ("UT", "49"); ("VT", "50"); ("VA", "51"); ("WA", "53"); ("WV", "54");
    ("WI", "55"); ("WY", "56"); ("DC", "11"); ("PR", "72") ].

(** [Object.fromEntries(Object.entries(STATE_FIPS).map(([k, v]) => [v, k]))] *)
Definition FIPS_STATE : obj string :=
  fromEntries (map (fun kv => (snd kv, fst kv)) STATE_FIPS).

(** The postal codes of the fifty states, the federal district and the
    territory, to name what the table covers. *)
Definition fifty_states : list string :=
  [ "AL"; "AK"; "AZ"; "AR"; "CA"; "CO"; "CT"; "DE"; "FL"; "GA";
    "HI"; "ID"; "IL"; "IN"; "IA"; "KS"; "KY"; "LA"; "ME"; "MD";
    "MA"; "MI"; "MN"; "MS"; "MO"; "MT"; "NE"; "NV"; "NH"; "NJ";
    "NM"; "NY"; "NC"; "ND"; "OH"; "OK"; "OR"; "PA"; "RI"; "SC";
    "SD"; "TN"; "TX"; "UT"; "VT"; "VA"; "WA"; "WV"; "WI"; "WY" ].

Definition federal_district : string := "DC".
Definition territory : string := "PR".

Definition COLORS : obj string :=
  [ ("favors_democrats", "#2563eb");
    ("favors_republicans", "#dc2626");
    ("fair", "#9ca3af");
    ("unknown", "#6b7280") ].

(** ** Features, layers and the map *)

(** A feature as [topojson.feature] delivers it: [properties] is always an
    object; its values are scalars, as in the us-atlas files.  The geometry
    is kept as its list of positions. *)
Record Feature : Type := {
  properties : obj prim;
  geometry : list (Z * Z)
}.

Record FeatureCollection : Type := {
  features : list Feature
}.

(** A topology document: its named geometry collections, each already
    expanded to features. *)
Record Topology : Type := {
  objects : obj (list Feature)
}.

(** A Leaflet path style; fractions are in hundredths.  [None] stands for
    an absent or [null] option. *)
Record Style : Type := {
  weight : Z;
  opacity : option Z;
  color : string;
  dashArray : option string;
  fillOpacity : Z;
  fillColor : string
}.

Record Bounds : Type := {
  south : Z;
  west : Z;
  north : Z;
  east : Z
}.

(** A [L.geoJSON] layer: the drawn features, their common style and the
    popup bound to each. *)
Record Layer : Type := {
  layer_id : nat;
  layer_features : list Feature;
  layer_style : Style;
  layer_popups : list string
}.

(** The viewport is decided by the last successful [fitBounds]. *)
Inductive View : Type :=
| InitialView
| Fitted (b : Bounds) (padding : Z).

(** The sidebar nodes written by [showMetrics]. *)
Record Sidebar : Type := {
  classification_text : string;
  classification_background : string;
  summary_text : val;
  notes_items : list val
}.

Definition f_prop (f : Feature) (k : string) : prim :=
  default PUndef (obj_get (properties f) k).

Definition extend (b : Bounds) (p : Z * Z) : Bounds :=
  {| south := Z.min (south b) (fst p); west := Z.min (west b) (snd p);
     north := Z.max (north b) (fst p); east := Z.max (east b) (snd p) |}.

(** [layer.getBounds()]: the box around every position of the layer;
    [None] is Leaflet's invalid bounds of a layer without positions. *)
Definition getBounds (l : Layer) : option Bounds :=
  match concat (map geometry (layer_features l)) with
  | [] => None
  | p :: ps =>
      Some (fold_left extend ps
              {| south := fst p; west := snd p; north := fst p; east := snd p |})
  end.

(** ** The page's global variables *)

Record World : Type := {
  selectedState : option string;
  currentGeo : option FeatureCollection;
  geoLayer : option Layer;
  (** overlays attached to [map] *)
  map_layers : list Layer;
  viewport : View;
  (** layers created so far; names the next one *)
  layer_count : nat;
  (** [window.__US_CONGRESS_TOPO__] *)
  CONGRESS_TOPO : option Topology;
  METRICS_CACHE : gmap string ref;
  (** the objects the metrics references point to *)
  heap : list val;
  sidebar : Sidebar
}.

Definition with_selectedState (x : option string) (w : World) : World :=
  {| selectedState := x; currentGeo := currentGeo w; geoLayer := geoLayer w;
     map_layers := map_layers w; viewport := viewport w;
     layer_count := layer_count w; CONGRESS_TOPO := CONGRESS_TOPO w;
     METRICS_CACHE := METRICS_CACHE w; heap := heap w; sidebar := sidebar w |}.

Definition with_currentGeo (x : option FeatureCollection) (w : World) : World :=
  {| selectedState := selectedState w; currentGeo := x; geoLayer := geoLayer w;
     map_layers := map_layers w; viewport := viewport w;
     layer_count := layer_count w; CONGRESS_TOPO := CONGRESS_TOPO w;
     METRICS_CACHE := METRICS_CACHE w; heap := heap w; sidebar := sidebar w |}.

Definition with_layers (g : option Layer) (ls : list Layer) (n : nat) (w : World) : World :=
  {| selectedState := selectedState w; currentGeo := currentGeo w; geoLayer := g;
     map_layers := ls; viewport := viewport w;
     layer_count := n; CONGRESS_TOPO := CONGRESS_TOPO w;
     METRICS_CACHE := METRICS_CACHE w; heap := heap w; sidebar := sidebar w |}.

Definition with_viewport (x : View) (w : World) : World :=
  {| selectedState := selectedState w; currentGeo := currentGeo w; geoLayer := geoLayer w;
     map_layers := map_layers w; viewport := x;
     layer_count := layer_count w; CONGRESS_TOPO := CONGRESS_TOPO w;
     METRICS_CACHE := METRICS_CACHE w; heap := heap w; sidebar := sidebar w |}.

Definition with_topo (x : option Topology) (w : World) : World :=
  {| selectedState := selectedState w; currentGeo := currentGeo w; geoLayer := geoLayer w;
     map_layers := map_layers w; viewport := viewport w;
     layer_count := layer_count w; CONGRESS_TOPO := x;
     METRICS_CACHE := METRICS_CACHE w; heap := heap w; sidebar := sidebar w |}.

Definition with_cache (x : gmap string ref) (w : World) : World :=
  {| selectedState := selectedState w; currentGeo := currentGeo w; geoLayer := geoLayer w;
     map_layers := map_layers w; viewport := viewport w;
     layer_count := layer_count w; CONGRESS_TOPO := CONGRESS_TOPO w;
     METRICS_CACHE := x; heap := heap w; sidebar := sidebar w |}.

Definition with_heap (x : list val) (w : World) : World :=
  {| selectedState := selectedState w; currentGeo := currentGeo w; geoLayer := geoLayer w;
     map_layers := map_layers w; viewport := viewport w;
     layer_count := layer_count w; CONGRESS_TOPO := CONGRESS_TOPO w;
     METRICS_CACHE := METRICS_CACHE w; heap := x; sidebar := sidebar w |}.

Definition with_sidebar (x : Sidebar) (w : World) : World :=
  {| selectedState := selectedState w; currentGeo := currentGeo w; geoLayer := geoLayer w;
     map_layers := map_layers w; viewport := viewport w;
     layer_count := layer_count w; CONGRESS_TOPO := CONGRESS_TOPO w;
     METRICS_CACHE := METRICS_CACHE w; heap := heap w; sidebar := x |}.

(** ** Asynchronous functions as resumptions *)

Inductive exn : Type :=
| Error (message : string)
| TypeError
| SyntaxError
| NetworkError.

(** A fetched response: its [ok] flag and what [json()] will resolve to
    ([None]: it rejects). *)
Record Response (B : Type) : Type := {
  ok : bool;
  json : option B
}.
Arguments ok {B} _.
Arguments json {B} _.

(** The [fetch] of a metrics document and of a topology document are told
    apart by the type of the body; [None] as the answer is a rejected
    [fetch].  [Tick] is the [await] on [resp.json()]: the body of the
    response is read in a later task, and other handlers may run before. *)
Inductive async (A : Type) : Type :=
| Return (a : A)
| Raise (e : exn)
| Read (k : World -> async A)
| Modify (f : World -> World) (k : async A)
| FetchMetrics (url : string) (k : option (Response val) -> async A)
| FetchTopo (url : string) (k : option (Response Topology) -> async A)
| Tick (k : async A).
Arguments Return {A} _.
Arguments Raise {A} _.
Arguments Read {A} _.
Arguments Modify {A} _ _.
Arguments FetchMetrics {A} _ _.
Arguments FetchTopo {A} _ _.
Arguments Tick {A} _.

Fixpoint bind {A B : Type} (p : async A) (f : A -> async B) : async B :=
  match p with
  | Return a => f a
  | Raise e => Raise e
  | Read k => Read (fun w => bind (k w) f)
  | Modify g k => Modify g (bind k f)
  | FetchMetrics url k => FetchMetrics url (fun r => bind (k r) f)
  | FetchTopo url k => FetchTopo url (fun r => bind (k r) f)
  | Tick k => Tick (bind k f)
  end.

(** [try { p } catch (_) { h }] *)
Fixpoint try_catch {A : Type} (p : async A) (h : exn -> async A) : async A :=
  match p with
  | Return a => Return a
  | Raise e => h e
  | Read k => Read (fun w => try_catch (k w) h)
  | Modify g k => Modify g (try_catch k h)
  | FetchMetrics url k => FetchMetrics url (fun r => try_catch (k r) h)
  | FetchTopo url k => FetchTopo url (fun r => try_catch (k r) h)
  | Tick k => Tick (try_catch k h)
  end.

Notation "'do' x <- p ; q" := (bind p (fun x => q))
  (at level 10, x name, p at level 100, q at level 200).

(** [await p] for a call [p] of an async function.  The caller waits where
    [p] waits; once [p] has settled the caller resumes in a microtask,
    before any other handler runs, that is in the same turn. *)
Definition await {A : Type} (p : async A) : async A := p.

Definition modify (f : World -> World) : async unit := Modify f (Return tt).

(** ** Metrics helpers *)

(** The value of a variable: a primitive, or the object its reference
    points to. *)
Definition deref (w : World) (r : ref) : val :=
  match r with
  | RPrim p => VPrim p
  | RObj l => default undefined (heap w !! l)
  end.

(** A freshly built value enters the program: a primitive as itself, an
    object or array as a new location of the heap. *)
Definition box (v : val) : async ref :=
  match v with
  | VPrim p => Return (RPrim p)
  | _ =>
      Read (fun w =>
        Modify (fun w' => with_heap (heap w' ++ [v]) w')
          (Return (RObj (length (heap w)))))
  end.

(** [METRICS_CACHE[stateCode]] *)
Definition cache_get (w : World) (stateCode : string) : ref :=
  default (RPrim PUndef) (METRICS_CACHE w !! stateCode).

(** [METRICS_CACHE[stateCode] = r] *)
Definition cache_set (stateCode : string) (r : ref) (w : World) : World :=
  with_cache (<[stateCode := r]> (METRICS_CACHE w)) w.

(** [{ classification: "unknown", summary: { notes: ["No metrics"] } }] *)
Definition no_metrics : val :=
  VObj [ ("classification", VPrim (PStr "unknown"));
         ("summary", VObj [ ("notes", VArr [VPrim (PStr "No metrics")] []) ]) ].

Definition metrics_url (stateCode : string) : string :=
  "/api/metrics/" +:+ stateCode.

(** [loadMetrics].  The [try] block yields [Some data] when it returned
    [data] and [None] when control left it otherwise. *)
Definition loadMetrics (stateCode : string) : async ref :=
  Read (fun w =>
    if truthy_ref (cache_get w stateCode) then Return (cache_get w stateCode)
    else
      do returned <-
        try_catch
          (FetchMetrics (metrics_url stateCode) (fun r =>
             match r with
             | None => Raise NetworkError
             | Some resp =>
                 if ok resp then
                   Tick (match json resp with
                         | None => Raise SyntaxError
                         | Some body =>
                             do data <- box body;
                             Modify (cache_set stateCode data) (Return (Some data))
                         end)
                 else Return None
             end))
          (fun _ => Return None);
      match returned with
      | Some data => Return data
      | None =>
          do fallback <- box no_metrics;
          Modify (cache_set stateCode fallback)
            (Read (fun w' => Return (cache_get w' stateCode)))
      end).

(** ** Districts of one state *)

Definition styleDistrictBase : Style :=
  {| weight := 1; opacity := Some 90%Z; color := "#333"; dashArray := None;
     fillOpacity := 30; fillColor := "#6699cc" |}.

Definition styleDistrictMode (mode : val) : Style :=
  if is_string mode "favor_democrats" then
    {| weight := 2; opacity := None; color := "#1e3a8a"; dashArray := Some "3 3";
       fillOpacity := 35; fillColor := "#60a5fa" |}
  else if is_string mode "favor_republicans" then
    {| weight := 2; opacity := None; color := "#7f1d1d"; dashArray := Some "3 3";
       fillOpacity := 35; fillColor := "#f87171" |}
  else
    {| weight := 2; opacity := None; color := "#065f46"; dashArray := Some "2 4";
       fillOpacity := 35; fillColor := "#34d399" |}.

(** The popup text bound to a district. *)
Definition onEachDistrict (f : Feature) : string :=
  let dist :=
    por (por (por (por (f_prop f "district") (f_prop f "dist"))
                  (f_prop f "DISTRICT")) (f_prop f "CD118")) (PStr "?") in
  let st := por (por (f_prop f "STATEFP") (f_prop f "state")) (PStr "") in
  "<strong>District:</strong> " +:+ String_of dist
    +:+ "<br/><strong>STATEFP:</strong> " +:+ String_of st.

(** The state property of a feature, read as [STATEFP], then [state]. *)
Definition state_property (f : Feature) : prim :=
  por (por (f_prop f "STATEFP") (f_prop f "state")) (PStr "").

(** [(f.properties.STATEFP || f.properties.state || "").toString().padStart(2, "0")] *)
Definition state_of (f : Feature) : string :=
  padStart 2 "0"%char (String_of (state_property f)).

(** [topo.objects?.districts || topo.objects?.congress ||
    Object.keys(topo.objects)[0]], resolved by [topojson.feature]; [None]
    when the document has no object at all. *)
Definition select_object (topo : Topology) : option (list Feature) :=
  match obj_get (objects topo) "districts" with
  | Some o => Some o
  | None =>
      match obj_get (objects topo) "congress" with
      | Some o => Some o
      | None =>
          match objects topo with
          | (_, o) :: _ => Some o
          | [] => None
          end
      end
  end.

(** The names of the members of [Object.prototype], which every plain
    object inherits: [o[k]] is a function, or for [__proto__] the prototype
    itself, when [k] is one of them and no own property of [o]. *)
Definition Object_prototype : list string :=
  [ "constructor"; "__defineGetter__"; "__defineSetter__"; "hasOwnProperty";
    "__lookupGetter__"; "__lookupSetter__"; "isPrototypeOf";
    "propertyIsEnumerable"; "toString"; "valueOf"; "__proto__";
    "toLocaleString" ].

Definition inherited (k : string) : bool :=
  existsb (String.eqb k) Object_prototype.

(** The statements of the district loader after its guard: the topology
    is fetched unless it is cached, and the districts that [keep] accepts
    are returned. *)
Definition filter_districts (keep : Feature -> bool) : async FeatureCollection :=
  do _ <- Read (fun w =>
    match CONGRESS_TOPO w with
    | Some _ => Return tt
    | None =>
        FetchTopo US_ATLAS_CONGRESS (fun r =>
          match r with
          | None => Raise NetworkError
          | Some resp =>
              if ok resp then
                Tick (match json resp with
                      | None => Raise SyntaxError
                      | Some topo => modify (with_topo (Some topo))
                      end)
              else Raise (Error "Failed to load congress topojson")
          end)
    end);
  Read (fun w =>
    match CONGRESS_TOPO w with
    | None => Raise TypeError
    | Some topo =>
        match select_object topo with
        | None => Raise TypeError
        | Some districts => Return {| features := List.filter keep districts |}
        end
    end).

(** The body shared by [loadStateDistricts] and the earlier page's
    [loadStateMap], which agree statement by statement.  For a code that is
    no key of the table but the name of a member of [Object.prototype],
    [fips] is that member: it is truthy, so the guard passes, and no string
    is [===] to it, so no district is kept. *)
Definition load_districts (table : obj string) (stateCode : string)
  : async FeatureCollection :=
  match obj_get table stateCode with
  | None =>
      if inherited stateCode then filter_districts (fun _ => false)
      else Raise (Error ("Unknown state: " +:+ stateCode))
  | Some fips =>
      if negb (truthy_prim (PStr fips)) then
        Raise (Error ("Unknown state: " +:+ stateCode))
      else filter_districts (fun f => String.eqb (state_of f) fips)
  end.

Definition loadStateDistricts (stateCode : string) : async FeatureCollection :=
  load_districts STATE_FIPS stateCode.

(** ** Render layer *)

Definition L_geoJSON (id : nat) (geojson : option FeatureCollection)
    (style : Style) (popup : Feature -> string) : Layer :=
  let fs := match geojson with Some g => features g | None => [] end in
  {| layer_id := id; layer_features := fs; layer_style := style;
     layer_popups := map popup fs |}.

(** [layer.remove()] *)
Definition remove_layer (l : Layer) (w : World) : World :=
  with_layers (geoLayer w)
    (List.filter (fun l' => negb (layer_id l' =? layer_id l)%nat) (map_layers w))
    (layer_count w) w.

(** [geoLayer = L.geoJSON(geojson, ...).addTo(map)] *)
Definition draw (geojson : option FeatureCollection) (style : Style)
    (popup : Feature -> string) (w : World) : World :=
  let l := L_geoJSON (layer_count w) geojson style popup in
  with_layers (Some l) (map_layers w ++ [l]) (S (layer_count w)) w.

(** [map.fitBounds(b, { padding })]; Leaflet throws on invalid bounds. *)
Definition fitBounds (b : option Bounds) (padding : Z) : async unit :=
  match b with
  | None => Raise (Error "Bounds are not valid.")
  | Some b => modify (with_viewport (Fitted b padding))
  end.

(** The body shared by [renderDistricts] and the earlier [renderGeojson]. *)
Definition render (geojson : option FeatureCollection) (style : Style)
    (popup : Feature -> string) (padding : Z) : async unit :=
  do _ <- Read (fun w =>
    match geoLayer w with
    | Some old => modify (remove_layer old)
    | None => Return tt
    end);
  do _ <- modify (draw geojson style popup);
  try_catch
    (Read (fun w =>
       match geoLayer w with
       | Some l => fitBounds (getBounds l) padding
       | None => Raise TypeError
       end))
    (fun _ => Return tt).

Definition renderDistricts (geojson : option FeatureCollection) (style : Style)
  : async unit :=
  render geojson style onEachDistrict 18.

(** ** Sidebar *)

(** [v?.k] *)
Definition opt_prop (v : val) (k : string) : val :=
  default undefined (get_prop v k).

(** Whether [v.name(...)] finds the array method [name]: [v] is an array
    and no own property hides the method. *)
Definition has_method (v : val) (name : string) : bool :=
  match v with
  | VArr _ props => match obj_get props name with None => true | Some _ => false end
  | _ => false
  end.

Definition array_items (v : val) : list val :=
  match v with
  | VArr items _ => items
  | _ => []
  end.

(** [COLORS[cls] || COLORS.unknown] *)
Definition color_of (cls : val) : string :=
  match cls with
  | VPrim (PStr c) => default "#6b7280" (obj_get COLORS c)
  | _ => "#6b7280"
  end.

Definition set_classification_node (text background : string) (w : World) : World :=
  with_sidebar {| classification_text := text;
                  classification_background := background;
                  summary_text := summary_text (sidebar w);
                  notes_items := notes_items (sidebar w) |} w.

Definition set_summary_node (v : val) (w : World) : World :=
  with_sidebar {| classification_text := classification_text (sidebar w);
                  classification_background := classification_background (sidebar w);
                  summary_text := v;
                  notes_items := notes_items (sidebar w) |} w.

Definition set_notes_node (items : list val) (w : World) : World :=
  with_sidebar {| classification_text := classification_text (sidebar w);
                  classification_background := classification_background (sidebar w);
                  summary_text := summary_text (sidebar w);
                  notes_items := items |} w.

(** [showMetrics]; [paint] tells whether the page also colours the label
    (the earlier page does not).  The summary node is recorded as the value
    handed to [JSON.stringify]. *)
Definition show (paint : bool) (metrics : ref) : async unit :=
  Read (fun w =>
    let m := deref w metrics in
    let cls := opt_prop m "classification" in
    match vor cls (VPrim (PStr "unknown")) with
    | VPrim (PStr c) =>
        Modify (set_classification_node (toUpperCase c)
                  (if paint then color_of cls
                   else classification_background (sidebar w)))
          (Modify (set_summary_node (vor (opt_prop m "summary") (VObj [])))
             (Modify (set_notes_node [])
                (let notes :=
                   vor (opt_prop (opt_prop m "summary") "notes") (VArr [] []) in
                 if has_method notes "forEach" then
                   modify (set_notes_node (array_items notes))
                 else Raise TypeError)))
    | _ => Raise TypeError
    end).

Definition showMetrics (metrics : ref) : async unit := show true metrics.

(** ** Actions *)

(** [m.k] *)
Definition read_prop (m : ref) (k : string) : async val :=
  Read (fun w =>
    match get_prop (deref w m) k with
    | Some v => Return v
    | None => Raise TypeError
    end).

(** [m.k = x] *)
Definition write_prop (m : ref) (k : string) (x : val) : async unit :=
  match m with
  | RPrim PUndef | RPrim PNull => Raise TypeError
  | RPrim _ => Return tt
  | RObj l => modify (fun w => with_heap (alter (fun v => set_prop v k x) l (heap w)) w)
  end.

(** [m.summary.k = x]; the summary object is reachable through [m] only. *)
Definition write_summary_prop (m : ref) (k : string) (x : val) : async unit :=
  do s <- read_prop m "summary";
  match get_prop s k with
  | None => Raise TypeError
  | Some _ => write_prop m "summary" (set_prop s k x)
  end.

(** [m.summary = m.summary || {}] *)
Definition ensure_summary (m : ref) : async unit :=
  do s <- read_prop m "summary";
  write_prop m "summary" (vor s (VObj [])).

(** [m.summary.notes = m.summary.notes || []] *)
Definition ensure_notes (m : ref) : async unit :=
  do s <- read_prop m "summary";
  match get_prop s "notes" with
  | None => Raise TypeError
  | Some n => write_summary_prop m "notes" (vor n (VArr [] []))
  end.

(** [m.summary.notes.unshift(note)] *)
Definition unshift_note (m : ref) (note : string) : async unit :=
  do s <- read_prop m "summary";
  match get_prop s "notes" with
  | None => Raise TypeError
  | Some n =>
      match n with
      | VArr items props =>
          if has_method n "unshift" then
            write_summary_prop m "notes" (VArr (VPrim (PStr note) :: items) props)
          else Raise TypeError
      | _ => Raise TypeError
      end
  end.

Definition fair_note : string := "Generated fair plan (demo).".
Definition democrats_note : string := "Generated plan favoring Democrats (demo).".
Definition republicans_note : string := "Generated plan favoring Republicans (demo).".

Definition refreshState (stateCode : string) : async unit :=
  do _ <- modify (with_selectedState (Some stateCode));
  do geo <- await (loadStateDistricts stateCode);
  do _ <- modify (with_currentGeo (Some geo));
  do _ <- Read (fun w => renderDistricts (currentGeo w) styleDistrictBase);
  do metrics <- await (loadMetrics stateCode);
  showMetrics metrics.

Definition generatePlan (stateCode : string) (mode : val) : async unit :=
  Read (fun w =>
    match currentGeo w with
    | None => Return tt
    | Some _ =>
        do m <- await (loadMetrics stateCode);
        do _ <- ensure_summary m;
        do _ <- ensure_notes m;
        do _ <-
          (if is_string mode "fair" then
             do _ <- unshift_note m fair_note;
             write_prop m "classification" (VPrim (PStr "fair"))
           else if is_string mode "favor_democrats" then
             do _ <- unshift_note m democrats_note;
             write_prop m "classification" (VPrim (PStr "favors_democrats"))
           else
             do _ <- unshift_note m republicans_note;
             write_prop m "classification" (VPrim (PStr "favors_republicans")));
        do _ <- showMetrics m;
        Read (fun w' => renderDistricts (currentGeo w') (styleDistrictMode mode))
    end).

(** ** The earlier single-state page *)

Module Mvp.

Definition STATE_FIPS : obj string :=
  [ ("AL", "01"); ("AK", "02"); ("AZ", "04"); ("AR", "05"); ("CA", "06"); ("CO", "08");
    ("CT", "09"); ("DE", "10"); ("FL", "12"); ("GA", "13"); ("HI", "15"); ("ID", "16");
    ("IL", "17"); ("IN", "18"); ("IA", "19"); ("KS", "20"); ("KY", "21"); ("LA", "22");
    ("ME", "23"); ("MD", "24"); ("MA", "25"); ("MI", "26"); ("MN", "27"); ("MS", "28");
    ("MO", "29"); ("MT", "30"); ("NE", "31"); ("NV", "32"); ("NH", "33"); ("NJ", "34");
    ("NM", "35"); ("NY", "36"); ("NC", "37"); ("ND", "38"); ("OH", "39"); ("OK", "40");
    ("OR", "41"); ("PA", "42"); ("RI", "44"); ("SC", "45"); ("SD", "46"); ("TN", "47");
    ("TX", "48"); ("UT", "49"); ("VT", "50"); ("VA", "51"); ("WA", "53"); ("WV", "54");
    ("WI", "55"); ("WY", "56"); ("DC", "11"); ("PR", "72") ].

Definition styleDistrict : Style :=
  {| weight := 1; opacity := Some 90%Z; color := "#333"; dashArray := None;
     fillOpacity := 30; fillColor := "#6699cc" |}.

Definition onEachDistrict (f : Feature) : string :=
  let name := por (por (f_prop f "district") (f_prop f "dist")) (f_prop f "DISTRICT") in
  let state := por (f_prop f "state") (f_prop f "STATEFP") in
  "<strong>District:</strong> " +:+ String_of (por name (PStr "?"))
    +:+ "<br/><strong>State:</strong> " +:+ String_of (por state (PStr "?")).

Definition loadStateMap (stateCode : string) : async FeatureCollection :=
  load_districts STATE_FIPS stateCode.

Definition renderGeojson (geojson : option FeatureCollection) : async unit :=
  render geojson styleDistrict onEachDistrict 20.

(** No cache and no [try]: a rejected [fetch] propagates, a response that
    is not [ok] gives [null]. *)
Definition loadDemoMetrics (stateCode : string) : async ref :=
  FetchMetrics (metrics_url stateCode) (fun r =>
    match r with
    | None => Raise NetworkError
    | Some resp =>
        if ok resp then
          Tick (match json resp with
                | None => Raise SyntaxError
                | Some body => box body
                end)
        else Return (RPrim PNull)
    end).

Definition showMetrics (metrics : ref) : async unit := show false metrics.

Definition fair_note : string := "Generated fair plan (demo placeholder).".
Definition democrats_note : string :=
  "Generated plan favoring Democrats (demo placeholder).".
Definition republicans_note : string :=
  "Generated plan favoring Republicans (demo placeholder).".

Definition generatePlan (stateCode : string) (mode : val) : async unit :=
  do m <- await (loadDemoMetrics stateCode);
  do _ <- Read (fun w =>
    if truthy_ref m && truthy (opt_prop (deref w m) "summary") then
      do _ <- ensure_notes m;
      do _ <-
        (if is_string mode "fair" then
           do _ <- unshift_note m fair_note;
           write_prop m "classification" (VPrim (PStr "fair"))
         else if is_string mode "favor_democrats" then
           do _ <- unshift_note m democrats_note;
           write_prop m "classification" (VPrim (PStr "favors_democrats"))
         else if is_string mode "favor_republicans" then
           do _ <- unshift_note m republicans_note;
           write_prop m "classification" (VPrim (PStr "favors_republicans"))
         else Return tt);
      showMetrics m
    else Return tt);
  Read (fun w =>
    match currentGeo w with
    | Some g => renderGeojson (Some g)
    | None => Return tt
    end).

Definition refreshState (stateCode : string) : async unit :=
  do geo <- await (loadStateMap stateCode);
  do _ <- modify (with_currentGeo (Some geo));
  do _ <- Read (fun w => renderGeojson (currentGeo w));
  do metrics <- await (loadDemoMetrics stateCode);
  showMetrics metrics.

End Mvp.

Arguments cache_get : simpl never.
Arguments cache_set : simpl never.
Arguments deref : simpl never.

(** ** Running one call to its end *)

Inductive outcome (A : Type) : Type :=
| Returned (a : A)
| Thrown (e : exn).
Arguments Returned {A} _.
Arguments Thrown {A} _.

(** What the network answers to a request for a URL. *)
Record Network : Type := {
  metrics_api : string -> option (Response val);
  atlas_cdn : string -> option (Response Topology)
}.

(** The result of a run: the globals at the end, the URLs fetched in order,
    and how the call settled. *)
Record Run (A : Type) : Type := {
  final : World;
  fetched : list string;
  settled : outcome A
}.
Arguments metrics_api : simpl never.
Arguments atlas_cdn : simpl never.
Arguments final {A} _.
Arguments fetched {A} _.
Arguments settled {A} _.

Definition sent {A : Type} (url : string) (r : Run A) : Run A :=
  {| final := final r; fetched := url :: fetched r; settled := settled r |}.

(** No other handler runs in between: every response is there at once. *)
Fixpoint run_seq {A : Type} (net : Network) (p : async A) (w : World) : Run A :=
  match p with
  | Return a => {| final := w; fetched := []; settled := Returned a |}
  | Raise e => {| final := w; fetched := []; settled := Thrown e |}
  | Read k => run_seq net (k w) w
  | Modify f k => run_seq net k (f w)
  | FetchMetrics url k => sent url (run_seq net (k (metrics_api net url)) w)
  | FetchTopo url k => sent url (run_seq net (k (atlas_cdn net url)) w)
  | Tick k => run_seq net k w
  end.

(** ** Interleaved calls *)

(** A call between two turns: settled, or waiting at an [await]. *)
Inductive status (A : Type) : Type :=
| Finished (a : A)
| Crashed (e : exn)
| OnMetrics (url : string) (k : option (Response val) -> async A)
| OnTopo (url : string) (k : option (Response Topology) -> async A)
| OnTick (k : async A).
Arguments Finished {A} _.
Arguments Crashed {A} _.
Arguments OnMetrics {A} _ _.
Arguments OnTopo {A} _ _.
Arguments OnTick {A} _.

(** One turn: run to the next point where the call waits for the network. *)
Fixpoint advance {A : Type} (p : async A) (w : World) : World * status A :=
  match p with
  | Return a => (w, Finished a)
  | Raise e => (w, Crashed e)
  | Read k => advance (k w) w
  | Modify f k => advance k (f w)
  | FetchMetrics url k => (w, OnMetrics url k)
  | FetchTopo url k => (w, OnTopo url k)
  | Tick k => (w, OnTick k)
  end.

(** What completes an [await]. *)
Inductive reply : Type :=
| MetricsReply (r : option (Response val))
| TopoReply (r : option (Response Topology))
| Resume.

Definition resume {A : Type} (s : status A) (r : reply) : option (async A) :=
  match s, r with
  | OnMetrics _ k, MetricsReply x => Some (k x)
  | OnTopo _ k, TopoReply x => Some (k x)
  | OnTick k, Resume => Some k
  | _, _ => None
  end.

Record System : Type := {
  world : World;
  calls : list (status unit)
}.

(** The user selects a state or asks for a plan, or the pending [await] of
    call [i] completes. *)
Inductive event : Type :=
| Select (stateCode : string)
| Generate (stateCode : string) (mode : val)
| Deliver (i : nat) (r : reply).

Definition start (p : async unit) (s : System) : System :=
  let (w, st) := advance p (world s) in
  {| world := w; calls := calls s ++ [st] |}.

(** An event that matches no pending [await] changes nothing. *)
Definition step (s : System) (e : event) : System :=
  match e with
  | Select stateCode => start (refreshState stateCode) s
  | Generate stateCode mode => start (generatePlan stateCode mode) s
  | Deliver i r =>
      match calls s !! i with
      | None => s
      | Some st =>
          match resume st r with
          | None => s
          | Some p =>
              let (w, st') := advance p (world s) in
              {| world := w; calls := <[i := st']> (calls s) |}
          end
      end
  end.

Definition run (evs : list event) (s : System) : System :=
  fold_left step evs s.

Definition is_delivery (e : event) : Prop :=
  match e with
  | Deliver _ _ => True
  | _ => False
  end.

(** ** Footprints *)

(** [keeps proj p]: no write of [p] changes the component [proj] of the
    globals, whatever the answers to its awaits. *)
Fixpoint keeps {A B : Type} (proj : World -> B) (p : async A) : Prop :=
  match p with
  | Return _ | Raise _ => True
  | Read k => forall w, keeps proj (k w)
  | Modify f k => (forall w, proj (f w) = proj w) /\ keeps proj k
  | FetchMetrics _ k => forall r, keeps proj (k r)
  | FetchTopo _ k => forall r, keeps proj (k r)
  | Tick k => keeps proj k
  end.

Definition status_keeps {A B : Type} (proj : World -> B) (s : status A) : Prop :=
  match s with
  | Finished _ | Crashed _ => True
  | OnMetrics _ k => forall r, keeps proj (k r)
  | OnTopo _ k => forall r, keeps proj (k r)
  | OnTick k => keeps proj k
  end.

(** * Vocabulary of the properties *)

(** ** Runs *)

(** A run that returns [a] in the globals [w] without any request. *)
Definition done_at {A : Type} (w : World) (a : A) : Run A :=
  {| final := w; fetched := []; settled := Returned a |}.

(** The run of [bind p f], given the run [r] of [p]. *)
Definition then_run {A B : Type} (net : Network) (r : Run A) (f : A -> async B)
  : Run B :=
  match settled r with
  | Returned a =>
      let r' := run_seq net (f a) (final r) in
      {| final := final r'; fetched := (fetched r ++ fetched r')%list;
         settled := settled r' |}
  | Thrown e => {| final := final r; fetched := fetched r; settled := Thrown e |}
  end.

(** The run of the advance of [p] followed by [f]. *)
Definition then_advance {A B : Type} (r : World * status A) (f : A -> async B)
  : World * status B :=
  match r with
  | (w, Finished a) => advance (f a) w
  | (w, Crashed e) => (w, Crashed e)
  | (w, OnMetrics url k) => (w, OnMetrics url (fun x => bind (k x) f))
  | (w, OnTopo url k) => (w, OnTopo url (fun x => bind (k x) f))
  | (w, OnTick k) => (w, OnTick (bind k f))
  end.

Definition page (w : World) : System := {| world := w; calls := [] |}.

(** ** The metrics cache *)

(** A metrics request that fails: the [fetch] rejects, or the response is
    not [ok]. *)
Definition fetch_failed (r : option (Response val)) : bool :=
  match r with
  | None => true
  | Some resp => negb (ok resp)
  end.

(** The body of a successful metrics response is truthy; this holds of
    every JSON object and array, and fails for [null], [false], [0] and the
    empty string. *)
Definition truthy_body (r : option (Response val)) : bool :=
  match r with
  | Some resp =>
      if ok resp then
        match json resp with
        | Some body => truthy body
        | None => true
        end
      else true
  | None => true
  end.

(** ** The district loader and the render layer *)

(** The topology a call of the district loader works with: the cached
    one, or else the one a successful request for it delivers. *)
Definition topology_of (net : Network) (w : World) : option Topology :=
  match CONGRESS_TOPO w with
  | Some topo => Some topo
  | None =>
      match atlas_cdn net US_ATLAS_CONGRESS with
      | Some resp => if ok resp then json resp else None
      | None => None
      end
  end.

(** The districts of the state with numeric id [fips] among [districts]. *)
Definition districts_of (fips : string) (districts : list Feature) : FeatureCollection :=
  {| features := List.filter (fun f => String.eqb (state_of f) fips) districts |}.

(** The overlays on the map once [l] has taken the place of the previous
    district layer. *)
Definition replaced (w : World) (l : Layer) : list Layer :=
  (match geoLayer w with
   | Some old =>
       List.filter (fun l' => negb (layer_id l' =? layer_id old)%nat) (map_layers w)
   | None => map_layers w
   end ++ [l])%list.

(** What is drawn: the district collection, its layer, the overlays of the
    map and the viewport. *)
Definition drawn (w : World)
  : option FeatureCollection * option Layer * list Layer * View * nat :=
  (currentGeo w, geoLayer w, map_layers w, viewport w, layer_count w).

(** ** Metrics records *)

Definition is_object (v : val) : bool :=
  match v with
  | VPrim _ => false
  | _ => true
  end.

(** An array whose [unshift] and [forEach] are the built-in methods. *)
Definition is_array (v : val) : bool :=
  has_method v "unshift" && has_method v "forEach".

(** The shape of a metrics record: an object whose [summary], when truthy,
    is an object whose [notes], when truthy, is an array.  Every record of
    the form [{classification, summary: {notes: [...]}}] has it, and so has
    one without [summary] or without [notes]. *)
Definition metrics_record (rec : val) : bool :=
  is_object rec
  && (let s := opt_prop rec "summary" in
      negb (truthy s)
      || (is_object s
          && (let n := opt_prop s "notes" in
              negb (truthy n) || is_array n))).

(** [rec.classification] *)
Definition classification_of (rec : val) : val := opt_prop rec "classification".

(** The notes sequence [rec.summary.notes], empty when absent. *)
Definition notes_of (rec : val) : list val :=
  array_items (vor (opt_prop (opt_prop rec "summary") "notes") (VArr [] [])).

(** The note and the classification that [generatePlan] of [main.js]
    writes for a mode. *)
Definition plan_of (mode : val) : string * string :=
  if is_string mode "fair" then (fair_note, "fair")
  else if is_string mode "favor_democrats" then (democrats_note, "favors_democrats")
  else (republicans_note, "favors_republicans").

(** The record after the statements of [generatePlan] that prepend [note]
    and set the classification [cls]. *)
Definition planned (note cls : string) (rec : val) : val :=
  let r1 := set_prop rec "summary" (vor (opt_prop rec "summary") (VObj [])) in
  let s1 := opt_prop r1 "summary" in
  let r2 :=
    set_prop r1 "summary"
      (set_prop s1 "notes" (vor (opt_prop s1 "notes") (VArr [] []))) in
  let s2 := opt_prop r2 "summary" in
  let r3 :=
    set_prop r2 "summary"
      (set_prop s2 "notes"
         (match opt_prop s2 "notes" with
          | VArr items props => VArr (VPrim (PStr note) :: items) props
          | n => n
          end)) in
  set_prop r3 "classification" (VPrim (PStr cls)).

(** [heap[l] = v] *)
Definition store (l : nat) (v : val) (w : World) : World :=
  with_heap (<[l := v]> (heap w)) w.

(** [n] calls of [generatePlan], each run to its end before the next. *)
Fixpoint generate_times (n : nat) (net : Network) (stateCode : string)
    (mode : val) (w : World) : World :=
  match n with
  | O => w
  | S n' =>
      final (run_seq net (generatePlan stateCode mode)
               (generate_times n' net stateCode mode w))
  end.

(** ** Two selections in flight *)

(** What the user sees of a selection: the selected code, the district
    collection and its layer. *)
Definition view (w : World) : option string * option FeatureCollection * option Layer :=
  (selectedState w, currentGeo w, geoLayer w).

(** The districts that are drawn: the collection and the features of its
    layer. *)
Definition shown_districts (w : World) : option FeatureCollection * option (list Feature) :=
  (currentGeo w, layer_features <$> geoLayer w).

(** The layer that [refreshState] draws for [geo] in the globals [w]. *)
Definition base_layer (w : World) (geo : FeatureCollection) : Layer :=
  L_geoJSON (layer_count w) (Some geo) styleDistrictBase onEachDistrict.

(** The completions that take call [i] of [refreshState] through its
    district load when the topology was not cached at its start: the
    response arrives, then its body is read.  In the turn of the second
    the call stores the document, filters it, draws the districts and goes
    on to the metrics. *)
Definition geometry_phase (i : nat) (topo : Topology) : list event :=
  [ Deliver i (TopoReply (Some {| ok := true; json := Some topo |}));
    Deliver i Resume ].

(** The completions that take call [i] through its metrics load when the
    cache had no entry: the response arrives, then its body is read. *)
Definition metrics_phase (i : nat) (body : val) : list event :=
  [ Deliver i (MetricsReply (Some {| ok := true; json := Some body |}));
    Deliver i Resume ].

(** [e] completes an [await] of call [i]. *)
Definition delivers_to (i : nat) (e : event) : bool :=
  match e with
  | Deliver j _ => Nat.eqb j i
  | _ => false
  end.

(** The completions of [m] that go to call [i], in their order. *)
Definition deliveries_to (i : nat) (m : list event) : list event :=
  List.filter (delivers_to i) m.

(** The position in [m] of completion number [n], counted from 0, of
    call [i]. *)
Fixpoint nth_delivery (i n : nat) (m : list event) : option nat :=
  match m with
  | [] => None
  | e :: m' =>
      if delivers_to i e then
        match n with
        | 0 => Some 0
        | S n' => S <$> nth_delivery i n' m'
        end
      else S <$> nth_delivery i n m'
  end.

(** The position in [m] of the completion that ends the district load of
    call [i], its second one, if [m] has it. *)
Definition loaded_at (i : nat) (m : list event) : option nat :=
  nth_delivery i 1 m.

(** The district load of call [i] succeeds in [m]: the first two
    completions of call [i] in [m], as far as [m] has them, are the
    response with the document [topo] and the end of its body. *)
Definition loads_first (i : nat) (topo : Topology) (m : list event) : Prop :=
  take 2 (deliveries_to i m)
  = take (length (deliveries_to i m)) (geometry_phase i topo).

(** The stages of the district load of one call of [refreshState], for
    the state with id [fips], the topology document [topo] and its
    districts.  [parsing]: the response has arrived and its body is being
    read; in its next turn the call stores the document, draws the
    districts of the state and never writes the view again. *)
Definition parsing (fips : string) (districts : list Feature) (st : status unit)
  : Prop :=
  exists k,
    st = OnTick k
    /\ forall w,
         exists w' st',
           advance k w = (w', st')
           /\ view w'
              = (selectedState w,
                 Some (districts_of fips districts),
                 Some (base_layer w (districts_of fips districts)))
           /\ status_keeps view st'.

(** [fetching]: the request for the document is pending. *)
Definition fetching (fips : string) (topo : Topology) (districts : list Feature)
    (st : status unit) : Prop :=
  exists k,
    st = OnTopo US_ATLAS_CONGRESS k
    /\ forall w,
         exists st',
           advance (k (Some {| ok := true; json := Some topo |})) w = (w, st')
           /\ parsing fips districts st'.

(** The stage of a call that has received [n] completions, the first two
    being those of its [geometry_phase]. *)
Definition stage (fips : string) (topo : Topology) (districts : list Feature)
    (n : nat) (st : status unit) : Prop :=
  match n with
  | 0 => fetching fips topo districts st
  | 1 => parsing fips districts st
  | _ => status_keeps view st
  end.

(** The districts that stay drawn when the loads of the two calls end at
    the positions [k0] and [k1] of a schedule, if they do: those of the
    call whose load ends last. *)
Definition last_loaded {X : Type} (k0 k1 : option nat) (of0 of1 before : X) : X :=
  match k0, k1 with
  | Some a, Some b => if Nat.ltb a b then of1 else of0
  | Some _, None => of0
  | None, Some _ => of1
  | None, None => before
  end.

(** ** Sample pages, networks and data *)

(** The page as it loads: nothing selected, nothing drawn, empty caches. *)
Definition initial_world : World :=
  {| selectedState := None; currentGeo := None; geoLayer := None;
     map_layers := []; viewport := InitialView; layer_count := 0;
     CONGRESS_TOPO := None; METRICS_CACHE := ∅; heap := [];
     sidebar := {| classification_text := ""; classification_background := "";
                   summary_text := undefined; notes_items := [] |} |}.

(** The globals after [refreshState] has shown a state whose metrics are
    [rec] and whose districts are [fs]. *)
Definition ready_world (stateCode : string) (rec : val) (fs : list Feature) : World :=
  let l := L_geoJSON 0 (Some {| features := fs |}) styleDistrictBase onEachDistrict in
  {| selectedState := Some stateCode;
     currentGeo := Some {| features := fs |};
     geoLayer := Some l; map_layers := [l]; viewport := InitialView;
     layer_count := 1; CONGRESS_TOPO := None;
     METRICS_CACHE := {[ stateCode := RObj 0 ]}; heap := [rec];
     sidebar := {| classification_text := ""; classification_background := "";
                   summary_text := undefined; notes_items := [] |} |}.

(** A network whose every request is rejected. *)
Definition offline : Network :=
  {| metrics_api := fun _ => None; atlas_cdn := fun _ => None |}.

(** A metrics endpoint that answers every request with the JSON text
    [null]. *)
Definition null_metrics : Network :=
  {| metrics_api := fun _ => Some {| ok := true; json := Some (VPrim PNull) |};
     atlas_cdn := fun _ => None |}.

(** A metrics record as the endpoint of the demo serves it. *)
Definition demo_record : val :=
  VObj [ ("classification", VPrim (PStr "favors_democrats"));
         ("summary", VObj [ ("notes", VArr [VPrim (PStr "Demo data")] []) ]) ].

(** A metrics endpoint that serves [demo_record] for every state. *)
Definition demo_metrics : Network :=
  {| metrics_api := fun _ => Some {| ok := true; json := Some demo_record |};
     atlas_cdn := fun _ => None |}.

(** A network that serves the topology [topo] and no metrics. *)
Definition atlas (topo : Topology) : Network :=
  {| metrics_api := fun _ => None;
     atlas_cdn := fun _ => Some {| ok := true; json := Some topo |} |}.

(** District data whose state ids are not padded: one feature carries the
    string [6], another the number [6]; a third belongs to Texas. *)
Definition unpadded_districts : Topology :=
  {| objects :=
       [ ("districts",
          [ {| properties := [("STATEFP", PStr "6"); ("CD118", PStr "01")];
               geometry := [(0, 0); (2, 3)]%Z |};
            {| properties := [("state", PNum 6); ("district", PNum 2)];
               geometry := [(5, 1)]%Z |};
            {| properties := [("STATEFP", PStr "48")];
               geometry := [(9, 9)]%Z |} ]) ] |}.

Definition one_district : list Feature :=
  [ {| properties := [("STATEFP", PStr "06"); ("CD118", PStr "12")];
       geometry := [(37, -122); (38, -121)]%Z |} ].

(** District data with one district of Wyoming and two of California. *)
Definition wy_district : Feature :=
  {| properties := [("STATEFP", PStr "56"); ("CD118", PStr "00")];
     geometry := [(41, -111); (45, -104)]%Z |}.

Definition ca_districts : list Feature :=
  [ {| properties := [("STATEFP", PStr "06"); ("CD118", PStr "11")];
       geometry := [(37, -123); (38, -122)]%Z |};
    {| properties := [("STATEFP", PStr "06"); ("CD118", PStr "12")];
       geometry := [(37, -122); (38, -121)]%Z |} ].

Definition two_states : Topology :=
  {| objects := [ ("districts", wy_district :: ca_districts) ] |}.

(** The district data and the metrics of the second call arrive first,
    those of the first call last. *)
Definition stale_completions : list event :=
  (geometry_phase 1 two_states ++ metrics_phase 1 demo_record
   ++ geometry_phase 0 two_states ++ metrics_phase 0 demo_record)%list.

(** Wyoming is selected, then California before anything has loaded; the
    completions arrive as in [stale_completions]. *)
Definition stale_schedule : list event :=
  ([ Select "WY"; Select "CA" ] ++ stale_completions)%list.

(** The same selections with the completions in the order of the
    requests. *)
Definition fifo_schedule : list event :=
  ([ Select "WY"; Select "CA" ]
   ++ geometry_phase 0 two_states ++ metrics_phase 0 demo_record
   ++ geometry_phase 1 two_states ++ metrics_phase 1 demo_record)%list.

(** [a] is the string [b]. *)
Definition option_string_eqb (a : option string) (b : string) : bool :=
  match a with
  | Some s => String.eqb s b
  | None => false
  end.

(** * The rest of the two scripts *)

(** ** Vocabulary: failures of the topology request *)

(** How a request for the topology document fails, if it does: the
    [fetch] rejects, the response is not [ok], or its body does not
    parse. *)
Definition topology_error (r : option (Response Topology)) : option exn :=
  match r with
  | None => Some NetworkError
  | Some resp =>
      if ok resp then
        match json resp with
        | None => Some SyntaxError
        | Some _ => None
        end
      else Some (Error "Failed to load congress topojson")
  end.


(** A network that answers every request with a status that is not [ok]. *)
Definition bad_gateway : Network :=
  {| metrics_api := fun _ => Some {| ok := false; json := None |};
     atlas_cdn := fun _ => Some {| ok := false; json := None |} |}.

(** ** Vocabulary: what the sidebar shows *)

(** Whether [showMetrics] can show the value [v]: its classification is
    falsy or a string, and its notes are falsy or an array. *)
Definition displayable (v : val) : bool :=
  match vor (opt_prop v "classification") (VPrim (PStr "unknown")) with
  | VPrim (PStr _) =>
      has_method (vor (opt_prop (opt_prop v "summary") "notes") (VArr [] [])) "forEach"
  | _ => false
  end.

(** The sidebar once [showMetrics] of [main.js] has shown [v]. *)
Definition displayed (v : val) : Sidebar :=
  {| classification_text :=
       match vor (opt_prop v "classification") (VPrim (PStr "unknown")) with
       | VPrim (PStr c) => toUpperCase c
       | _ => ""
       end;
     classification_background := color_of (opt_prop v "classification");
     summary_text := vor (opt_prop v "summary") (VObj []);
     notes_items :=
       array_items (vor (opt_prop (opt_prop v "summary") "notes") (VArr [] [])) |}.

(** The globals once the fallback record for [stateCode] is cached. *)
Definition with_fallback (stateCode : string) (w : World) : World :=
  cache_set stateCode (RObj (length (heap w))) (with_heap (heap w ++ [no_metrics]) w).

(** ** Vocabulary: plan generation *)

(** What plan generation never writes: the selection, the district
    collection and the cached topology. *)
Definition geo_state (w : World) : option string * option FeatureCollection * option Topology :=
  (selectedState w, currentGeo w, CONGRESS_TOPO w).

(** What is left of [generatePlan] of [main.js] once the metrics [m] are
    loaded. *)
Definition plan_with (mode : val) (m : ref) : async unit :=
  do _ <- ensure_summary m;
  do _ <- ensure_notes m;
  do _ <-
    (if is_string mode "fair" then
       do _ <- unshift_note m fair_note;
       write_prop m "classification" (VPrim (PStr "fair"))
     else if is_string mode "favor_democrats" then
       do _ <- unshift_note m democrats_note;
       write_prop m "classification" (VPrim (PStr "favors_democrats"))
     else
       do _ <- unshift_note m republicans_note;
       write_prop m "classification" (VPrim (PStr "favors_republicans")));
  do _ <- showMetrics m;
  Read (fun w' => renderDistricts (currentGeo w') (styleDistrictMode mode)).

(** ** Vocabulary: the earlier page *)

(** The note and the classification that [generatePlan] of the earlier
    page writes for a mode; none for a mode it does not know. *)
Definition mvp_plan_of (mode : val) : option (string * string) :=
  if is_string mode "fair" then Some (Mvp.fair_note, "fair")
  else if is_string mode "favor_democrats" then
    Some (Mvp.democrats_note, "favors_democrats")
  else if is_string mode "favor_republicans" then
    Some (Mvp.republicans_note, "favors_republicans")
  else None.

(** The notes the earlier page lists after a plan for [mode] on a fetched
    record whose notes are [notes]. *)
Definition mvp_notes (mode : val) (notes : list val) : list val :=
  match mvp_plan_of mode with
  | Some (note, _) => VPrim (PStr note) :: notes
  | None => notes
  end.

(** The label the earlier page shows after a plan for [mode] on the fetched
    record [rec]. *)
Definition mvp_label (mode : val) (rec : val) : string :=
  match mvp_plan_of mode with
  | Some (_, cls) => toUpperCase cls
  | None => classification_text (displayed rec)
  end.

(** A metrics endpoint that serves the record [rec] for every state. *)
Definition serving (rec : val) : Network :=
  {| metrics_api := fun _ => Some {| ok := true; json := Some rec |};
     atlas_cdn := fun _ => None |}.

(** ** Invariants under interleaving *)

Section Invariants.
Variable Inv : World -> Prop.

(** [wp p Q E w]: started in the globals [w], and given that [Inv] holds
    whenever control comes back from an [await], the call [p] suspends only
    where [Inv] holds, returns [a] only where [Q a] holds and throws [e]
    only where [E e] holds. *)
Fixpoint wp {A : Type} (p : async A) (Q : A -> World -> Prop)
    (E : exn -> World -> Prop) (w : World) : Prop :=
  match p with
  | Return a => Q a w
  | Raise e => E e w
  | Read k => wp (k w) Q E w
  | Modify f k => wp k Q E (f w)
  | FetchMetrics _ k => Inv w /\ forall r w', Inv w' -> wp (k r) Q E w'
  | FetchTopo _ k => Inv w /\ forall r w', Inv w' -> wp (k r) Q E w'
  | Tick k => Inv w /\ forall w', Inv w' -> wp k Q E w'
  end.

(** A call between two turns whose every continuation keeps [Inv]. *)
Definition pending {A : Type} (st : status A) : Prop :=
  match st with
  | Finished _ | Crashed _ => True
  | OnMetrics _ k =>
      forall r w, Inv w -> wp (k r) (fun _ => Inv) (fun _ => Inv) w
  | OnTopo _ k =>
      forall r w, Inv w -> wp (k r) (fun _ => Inv) (fun _ => Inv) w
  | OnTick k => forall w, Inv w -> wp k (fun _ => Inv) (fun _ => Inv) w
  end.

End Invariants.

(** Of the district layers only [geoLayer] is attached to the map, and it
    shows the current collection. *)
Definition one_overlay (w : World) : Prop :=
  match geoLayer w with
  | Some l =>
      map_layers w = [l]
      /\ layer_features l = from_option features [] (currentGeo w)
  | None => map_layers w = []
  end.

(** ** The prefetch *)

(** The default [codes] of [warmMetricsCache]. *)
Definition popular_states : list string := ["CA"; "TX"; "FL"; "NY"; "PA"; "IL"].

(** The globals and the calls of [codes.map(loadMetrics)] between two
    turns. *)
Record Pool : Type := {
  pool_world : World;
  pool_calls : list (status ref)
}.

(** [codes.map(loadMetrics)]: the calls start in the order of the codes,
    each running to its first [await]. *)
Fixpoint map_loadMetrics (codes : list string) (w : World) : Pool :=
  match codes with
  | [] => {| pool_world := w; pool_calls := [] |}
  | c :: cs =>
      let (w1, st) := advance (loadMetrics c) w in
      let s := map_loadMetrics cs w1 in
      {| pool_world := pool_world s; pool_calls := st :: pool_calls s |}
  end.

(** The pending [await] of call [d.1] completes with [d.2]; a completion
    that matches no pending [await] changes nothing. *)
Definition complete (s : Pool) (d : nat * reply) : Pool :=
  match pool_calls s !! d.1 with
  | None => s
  | Some st =>
      match resume st d.2 with
      | None => s
      | Some p =>
          let (w, st') := advance p (pool_world s) in
          {| pool_world := w; pool_calls := <[d.1 := st']> (pool_calls s) |}
      end
  end.

(** [warmMetricsCache(codes)] once the completions [ds] have arrived. *)
Definition warmMetricsCache (codes : list string) (ds : list (nat * reply))
    (w : World) : Pool :=
  fold_left complete ds (map_loadMetrics codes w).

(** [Promise.all] rejects once a call has thrown, and is fulfilled once
    every call has returned. *)
Definition rejected (s : Pool) : Prop :=
  exists i e, pool_calls s !! i = Some (Crashed e).

Definition fulfilled (s : Pool) : Prop :=
  Forall (fun st => exists m, st = Finished m) (pool_calls s).

(** The URLs of the requests that are pending. *)
Definition pending_requests (s : Pool) : list string :=
  omap (fun st => match st with
                  | OnMetrics url _ | OnTopo url _ => Some url
                  | _ => None
                  end) (pool_calls s).

(** [stateCode in METRICS_CACHE] *)
Definition has_entry (stateCode : string) (w : World) : Prop :=
  is_Some (METRICS_CACHE w !! stateCode).

(** [respects P p]: a write of [p] never falsifies [P], whatever the
    answers to its awaits. *)
Fixpoint respects {A : Type} (P : World -> Prop) (p : async A) : Prop :=
  match p with
  | Return _ | Raise _ => True
  | Read k => forall w, respects P (k w)
  | Modify f k => (forall w, P w -> P (f w)) /\ respects P k
  | FetchMetrics _ k => forall r, respects P (k r)
  | FetchTopo _ k => forall r, respects P (k r)
  | Tick k => respects P k
  end.

Definition status_respects {A : Type} (P : World -> Prop) (st : status A) : Prop :=
  match st with
  | Finished _ | Crashed _ => True
  | OnMetrics _ k => forall r, respects P (k r)
  | OnTopo _ k => forall r, respects P (k r)
  | OnTick k => respects P k
  end.

(** A call of [loadMetrics] for [stateCode] between two turns that has not
    thrown and cannot throw, and that has written an entry for
    [stateCode], or will have when it returns; none of its writes takes an
    entry out of the cache. *)
Definition call_ok (stateCode : string) (w : World) (st : status ref) : Prop :=
  (forall c, status_respects (has_entry c) st)
  /\ match st with
     | Finished _ => has_entry stateCode w
     | Crashed _ => False
     | OnMetrics _ k =>
         forall r w', wp (fun _ => True) (k r)
                        (fun _ => has_entry stateCode) (fun _ _ => False) w'
     | OnTopo _ k =>
         forall r w', wp (fun _ => True) (k r)
                        (fun _ => has_entry stateCode) (fun _ _ => False) w'
     | OnTick k =>
         forall w', wp (fun _ => True) k
                      (fun _ => has_entry stateCode) (fun _ _ => False) w'
     end.

(** ** The nationwide layer *)

(** A feature of the states layer: [properties] may be missing, and [id]
    is [undefined] when the feature has none. *)
Record StateFeature : Type := {
  state_properties : option (obj prim);
  state_id : prim
}.

(** [(f.properties?.state || f.id || "").toString().padStart(2, "0")] *)
Definition state_fp (f : StateFeature) : string :=
  let state :=
    match state_properties f with
    | Some ps => default PUndef (obj_get ps "state")
    | None => PUndef
    end in
  padStart 2 "0"%char (String_of (por (por state (state_id f)) (PStr ""))).

(** What [getStateCodeFromFeature] returns: a state code, [null], or, for
    a padded id that is no key of [FIPS_STATE] but the name of a member of
    [Object.prototype], that member, which is truthy. *)
Inductive resolved : Type :=
| Code (c : string)
| Null
| Member (name : string).

(** [getStateCodeFromFeature]: [FIPS_STATE[fp] || null]. *)
Definition getStateCodeFromFeature (f : StateFeature) : resolved :=
  match obj_get FIPS_STATE (state_fp f) with
  | Some code => if truthy_prim (PStr code) then Code code else Null
  | None => if inherited (state_fp f) then Member (state_fp f) else Null
  end.

(** [String(v)] as the lookup [COLORS[v]] computes it for a value of a
    metrics document.  An object without an own [toString] is
    [[object Object]]; an array is its elements joined by commas, [null]
    and [undefined] counting as empty, or [[object Array]] when an own
    [join] hides the method.  [None] is the TypeError for a value whose own
    property [toString] hides the method: no value of a document is a
    function. *)
Fixpoint ToString (v : val) : option string :=
  match v with
  | VPrim p => Some (String_of p)
  | VObj props =>
      match obj_get props "toString" with
      | Some _ => None
      | None => Some "[object Object]"
      end
  | VArr items props =>
      match obj_get props "toString" with
      | Some _ => None
      | None =>
          match obj_get props "join" with
          | Some _ => Some "[object Array]"
          | None =>
              (fix join (l : list val) : option string :=
                 match l with
                 | [] => Some ""
                 | x :: l' =>
                     let element :=
                       match x with
                       | VPrim PUndef | VPrim PNull => Some ""
                       | _ => ToString x
                       end in
                     match l' with
                     | [] => element
                     | _ =>
                         match element, join l' with
                         | Some a, Some b => Some (a +:+ "," +:+ b)
                         | _, _ => None
                         end
                     end
                 end) items
          end
      end
  end.

(** What [COLORS[cls] || COLORS.unknown] is: a colour, or the member of
    [Object.prototype] that [cls] names. *)
Inductive fill : Type :=
| Colour (c : string)
| Inherited (name : string).

(** [COLORS[key] || COLORS.unknown] *)
Definition colour_at (key : string) : fill :=
  match obj_get COLORS key with
  | Some c => if truthy_prim (PStr c) then Colour c else Colour "#6b7280"
  | None => if inherited key then Inherited key else Colour "#6b7280"
  end.

(** The style object that [stateStyleSync] returns. *)
Record StateStyle : Type := {
  state_weight : Z;
  state_color : string;
  state_fillOpacity : Z;
  state_fillColor : fill
}.

(** [stateStyleSync] for a feature that [getStateCodeFromFeature] resolves
    to the state code [code], or to [null] when [code] is [None];
    [METRICS_CACHE[null]] reads the key [null].  [None] as the result is
    the TypeError of the lookup in [COLORS]. *)
Definition stateStyleSync (code : option string) (w : World) : option StateStyle :=
  let cls :=
    vor (opt_prop (deref w (cache_get w (default "null" code))) "classification")
        (VPrim (PStr "unknown")) in
  let isSelected :=
    match code with
    | Some c => truthy_prim (PStr c) && option_string_eqb (selectedState w) c
    | None => false
    end in
  match ToString cls with
  | None => None
  | Some key =>
      Some {| state_weight := if isSelected then 2 else 1;
              state_color := if isSelected then "#ffffff" else "#111827";
              state_fillOpacity := 35;
              state_fillColor := colour_at key |}
  end.

(** ** What a call can throw *)

(** The error of the guard in the district loader. *)
Definition unknown_state (stateCode : string) : exn :=
  Error ("Unknown state: " +:+ stateCode).
(** * Properties *)

(** ** The state table *)

Lemma obj_get_In {V : Type} (o : obj V) (k : string) (v : V) :
  obj_get o k = Some v -> In (k, v) o.
Proof.
  induction o as [|[k' v'] rest IH]; simpl; [discriminate|].
  destruct (String.eqb k' k) eqn:E.
  - apply String.eqb_eq in E. intros [= ->]. subst. now left.
  - intros H. right. now apply IH.
Qed.

Lemma table_forall {V : Type} (P : string -> V -> bool) (o : obj V) :
  forallb (fun kv => P (fst kv) (snd kv)) o = true ->
  forall k v, obj_get o k = Some v -> P k v = true.
Proof.
  intros H k v Hk. apply obj_get_In in Hk.
  rewrite forallb_forall in H. exact (H (k, v) Hk).
Qed.

Lemma option_string_eqb_eq a b : option_string_eqb a b = true -> a = Some b.
Proof.
  destruct a as [s|]; simpl; [|discriminate].
  intros H. apply String.eqb_eq in H. now subst.
Qed.

(** C5.  Every code of [STATE_FIPS] is found again through [FIPS_STATE]:
    [FIPS_STATE[STATE_FIPS[code]]] is [code].  Hence no two codes share a
    numeric id, and every entry of the inverse table comes from an entry of
    the table. *)
Theorem fips_state_roundtrip (code fips : string) :
  obj_get STATE_FIPS code = Some fips ->
  obj_get FIPS_STATE fips = Some code
  /\ (forall code', obj_get STATE_FIPS code' = Some fips -> code' = code)
  /\ (forall fips' code', obj_get FIPS_STATE fips' = Some code' ->
        obj_get STATE_FIPS code' = Some fips').
Proof.
  assert (Hfwd : forall c f, obj_get STATE_FIPS c = Some f ->
                             obj_get FIPS_STATE f = Some c).
  { intros c f Hc. apply option_string_eqb_eq.
    exact (table_forall (fun k v => option_string_eqb (obj_get FIPS_STATE v) k)
             STATE_FIPS eq_refl c f Hc). }
  intros H. split; [now apply Hfwd|]. split.
  - intros code' H'. apply Hfwd in H, H'. congruence.
  - intros fips' code' H'. apply option_string_eqb_eq.
    exact (table_forall (fun k v => option_string_eqb (obj_get STATE_FIPS v) k)
             FIPS_STATE eq_refl fips' code' H').
Qed.

Lemma fips_state_roundtrip_witness :
  obj_get FIPS_STATE "06" = Some "CA"
  /\ (forall code', obj_get STATE_FIPS code' = Some "06" -> code' = "CA")
  /\ (forall fips' code', obj_get FIPS_STATE fips' = Some code' ->
        obj_get STATE_FIPS code' = Some fips').
Proof. apply (fips_state_roundtrip "CA" "06"). reflexivity. Defined.

(** C6 as stated fails: the table does not have 51 entries. *)
Lemma state_table_not_51 :
  length STATE_FIPS <> 51 /\ length Mvp.STATE_FIPS <> 51.
Proof. split; vm_compute; discriminate. Qed.

(** C6, amended.  The table has exactly 52 entries with distinct codes: the
    fifty states, then the federal district, then one territory.  Both
    pages carry the same table. *)
Theorem state_table_52 :
  length STATE_FIPS = 52
  /\ map fst STATE_FIPS = (fifty_states ++ [federal_district; territory])%list
  /\ length fifty_states = 50
  /\ NoDup (map fst STATE_FIPS)
  /\ Mvp.STATE_FIPS = STATE_FIPS.
Proof.
  repeat split; try reflexivity.
  apply (bool_decide_unpack _). vm_compute. reflexivity.
Qed.

(** ** The metrics cache *)

Lemma cache_get_set (w : World) (code : string) (r : ref) :
  cache_get (cache_set code r w) code = r.
Proof. unfold cache_get, cache_set. simpl. now rewrite lookup_insert_eq. Qed.

Lemma deref_fresh (w : World) (v : val) :
  deref (with_heap (heap w ++ [v]) w) (RObj (length (heap w))) = v.
Proof.
  unfold deref. simpl. rewrite lookup_app_r by lia. now rewrite Nat.sub_diag.
Qed.


(** C2.  When the cache has no truthy entry for the code and the request
    fails (the [fetch] rejects, or the response is not [ok]),
    [loadMetrics] returns a reference to a new record
    [{classification: "unknown", summary: {notes: ["No metrics"]}}] that it
    has stored in the cache, after the one request; it does not throw.
    This holds when the call runs alone and also when other handlers
    changed the globals while the request was pending. *)
Theorem loadMetrics_fallback (net : Network) (stateCode : string) (w : World) :
  truthy_ref (cache_get w stateCode) = false ->
  fetch_failed (metrics_api net (metrics_url stateCode)) = true ->
  let r := run_seq net (loadMetrics stateCode) w in
  let m := RObj (length (heap w)) in
  let fallback :=
    VObj [ ("classification", VPrim (PStr "unknown"));
           ("summary", VObj [ ("notes", VArr [VPrim (PStr "No metrics")] []) ]) ] in
  settled r = Returned m
  /\ deref (final r) m = fallback
  /\ opt_prop (deref (final r) m) "classification" = VPrim (PStr "unknown")
  /\ array_items (opt_prop (opt_prop (deref (final r) m) "summary") "notes")
     = [VPrim (PStr "No metrics")]
  /\ cache_get (final r) stateCode = m
  /\ fetched r = [metrics_url stateCode]
  /\ exists k,
       advance (loadMetrics stateCode) w = (w, OnMetrics (metrics_url stateCode) k)
       /\ forall (answer : option (Response val)) (w' : World),
            fetch_failed answer = true ->
            let m' := RObj (length (heap w')) in
            exists w'',
              advance (k answer) w' = (w'', Finished m')
              /\ deref w'' m' = fallback
              /\ cache_get w'' stateCode = m'.
Proof.
  intros Hmiss Hfail. unfold loadMetrics. simpl. rewrite Hmiss. simpl.
  assert (Hfall : forall answer, fetch_failed answer = true ->
     try_catch
       match answer with
       | Some resp =>
           if ok resp
           then
            Tick
              match json resp with
              | Some body =>
                  do data <- box body;
                  Modify (cache_set stateCode data) (Return (Some data))
              | None => Raise SyntaxError
              end
           else Return None
       | None => Raise NetworkError
       end (fun _ => Return None) = Return None).
  { intros [resp|] H; simpl in *; [|reflexivity].
    destruct (ok resp); [discriminate|reflexivity]. }
  rewrite (Hfall _ Hfail). simpl. rewrite cache_get_set.
  split; [reflexivity|].
  assert (Hrec : deref
            (cache_set stateCode (RObj (length (heap w)))
               (with_heap (heap w ++ [no_metrics]) w)) (RObj (length (heap w)))
          = VObj [ ("classification", VPrim (PStr "unknown"));
                   ("summary",
                    VObj [ ("notes", VArr [VPrim (PStr "No metrics")] []) ]) ])
    by apply deref_fresh.
  split; [exact Hrec|]. rewrite Hrec.
  split; [reflexivity|]. split; [reflexivity|].
  split; [reflexivity|]. split; [reflexivity|].
  eexists. split; [reflexivity|].
  intros answer w' Hans. cbv beta. rewrite (Hfall _ Hans). simpl.
  rewrite cache_get_set. eexists. split; [reflexivity|].
  split; [apply deref_fresh | apply cache_get_set].
Qed.

Lemma loadMetrics_fallback_witness :
  let r := run_seq offline (loadMetrics "CA") initial_world in
  settled r = Returned (RObj 0)
  /\ deref (final r) (RObj 0)
     = VObj [ ("classification", VPrim (PStr "unknown"));
              ("summary", VObj [ ("notes", VArr [VPrim (PStr "No metrics")] []) ]) ].
Proof.
  destruct (loadMetrics_fallback offline "CA" initial_world) as (H1 & H2 & _);
    [reflexivity | reflexivity | split; [exact H1 | exact H2]].
Defined.

(** A truthy cache entry is returned without any request. *)
Lemma loadMetrics_hit (net : Network) (stateCode : string) (w : World) :
  truthy_ref (cache_get w stateCode) = true ->
  run_seq net (loadMetrics stateCode) w
  = {| final := w; fetched := []; settled := Returned (cache_get w stateCode) |}.
Proof. intros H. unfold loadMetrics. simpl. now rewrite H. Qed.

(** [loadMetrics] always returns, sends at most one request, and leaves
    what it returns in the cache. *)
Lemma loadMetrics_returns (net : Network) (stateCode : string) (w : World) :
  exists m,
    settled (run_seq net (loadMetrics stateCode) w) = Returned m
    /\ cache_get (final (run_seq net (loadMetrics stateCode) w)) stateCode = m
    /\ length (fetched (run_seq net (loadMetrics stateCode) w)) <= 1
    /\ (truthy_ref (cache_get w stateCode) = true
        \/ truthy_body (metrics_api net (metrics_url stateCode)) = true ->
        truthy_ref m = true).
Proof.
  destruct (truthy_ref (cache_get w stateCode)) eqn:Hc.
  - rewrite (loadMetrics_hit _ _ _ Hc). simpl. eexists.
    split; [reflexivity|]. split; [reflexivity|]. split; [lia|]. auto.
  - unfold loadMetrics. simpl. rewrite Hc. simpl.
    destruct (metrics_api net (metrics_url stateCode)) as [resp|]; simpl.
    + destruct (ok resp); simpl.
      * destruct (json resp) as [body|]; simpl.
        -- destruct body as [p| |]; simpl; rewrite ?cache_get_set;
             (eexists; split; [reflexivity|]; split; [reflexivity|];
              split; [lia|]); intros [H|H]; try discriminate; auto.
        -- rewrite cache_get_set. eexists. repeat split; auto.
      * rewrite cache_get_set. eexists. repeat split; auto.
    + rewrite cache_get_set. eexists. repeat split; auto.
Qed.

(** C8 as stated fails: when the endpoint answers with the JSON text
    [null], the value is stored but is not truthy, so the second call sends
    a second request. *)
Lemma loadMetrics_twice_null_refetches :
  let r1 := run_seq null_metrics (loadMetrics "CA") initial_world in
  let r2 := run_seq null_metrics (loadMetrics "CA") (final r1) in
  settled r1 = Returned (RPrim PNull)
  /\ (fetched r1 ++ fetched r2)%list = [metrics_url "CA"; metrics_url "CA"]
  /\ ~ (length (fetched r1 ++ fetched r2) <= 1).
Proof.
  vm_compute. split; [reflexivity|]. split; [reflexivity|]. lia.
Qed.

(** C8, amended.  Whenever the body of a successful response is truthy
    (and for every failed request, whatever the cache held before), two calls
    of [loadMetrics] for one code, one after the other, send at most one
    request in total, and both return the same reference, which is the one
    held by the cache. *)
Theorem loadMetrics_twice (net1 net2 : Network) (stateCode : string) (w : World) :
  truthy_body (metrics_api net1 (metrics_url stateCode)) = true ->
  let r1 := run_seq net1 (loadMetrics stateCode) w in
  let r2 := run_seq net2 (loadMetrics stateCode) (final r1) in
  exists m,
    settled r1 = Returned m
    /\ settled r2 = Returned m
    /\ cache_get (final r2) stateCode = m
    /\ length (fetched r1 ++ fetched r2) <= 1
    /\ fetched r2 = []
    /\ final r2 = final r1.
Proof.
  intros Hbody r1 r2.
  destruct (loadMetrics_returns net1 stateCode w) as (m & Hm & Hcache & Hlen & Htruthy).
  fold r1 in Hm, Hcache, Hlen.
  assert (Hhit : truthy_ref (cache_get (final r1) stateCode) = true).
  { rewrite Hcache. apply Htruthy. now right. }
  subst r2. rewrite (loadMetrics_hit _ _ _ Hhit). simpl.
  exists m. rewrite Hcache, app_nil_r. repeat split; auto.
Qed.

Lemma loadMetrics_twice_witness :
  let r1 := run_seq offline (loadMetrics "CA") initial_world in
  let r2 := run_seq offline (loadMetrics "CA") (final r1) in
  exists m,
    settled r1 = Returned m
    /\ settled r2 = Returned m
    /\ cache_get (final r2) "CA" = m
    /\ length (fetched r1 ++ fetched r2) <= 1
    /\ fetched r2 = []
    /\ final r2 = final r1.
Proof. apply (loadMetrics_twice offline offline "CA" initial_world). reflexivity. Defined.

(** ** The district loader *)

Lemma padStart_2 (c : ascii) (s : string) :
  padStart 2 c s =
  match s with
  | EmptyString => String c (String c EmptyString)
  | String a EmptyString => String c (String a EmptyString)
  | _ => s
  end.
Proof. destruct s as [|a [|b s]]; reflexivity. Qed.

Lemma fips_shape (code fips : string) :
  obj_get STATE_FIPS code = Some fips ->
  fips <> "" /\ fips <> "00".
Proof.
  intros H.
  pose proof (table_forall
    (fun _ v => negb (String.eqb v "") && negb (String.eqb v "00"))
    STATE_FIPS eq_refl code fips H) as Hp.
  apply andb_true_iff in Hp as [H1 H2].
  apply negb_true_iff, String.eqb_neq in H1, H2. auto.
Qed.

(** The receiver of [toString()] in the filter is never [null] or
    [undefined]: it is a truthy property or the empty string. *)
Lemma state_property_not_nullish (f : Feature) :
  state_property f <> PUndef /\ state_property f <> PNull.
Proof.
  unfold state_property, por.
  destruct (truthy_prim (f_prop f "STATEFP")) eqn:E1; simpl.
  - rewrite E1. split; intros E; rewrite E in E1; discriminate.
  - destruct (truthy_prim (f_prop f "state")) eqn:E2.
    + split; intros E; rewrite E in E2; discriminate.
    + split; discriminate.
Qed.

(** C7 as stated fails: features whose state id is the string [6] or the
    number [6] are returned for California, whose id is [06]. *)
Lemma loadStateDistricts_unpadded :
  exists fc f,
    settled (run_seq (atlas unpadded_districts) (loadStateDistricts "CA") initial_world)
    = Returned fc
    /\ obj_get STATE_FIPS "CA" = Some "06"
    /\ In f (features fc)
    /\ state_property f = PStr "6"
    /\ state_property f <> PStr "06".
Proof.
  eexists. eexists. split; [vm_compute; reflexivity|].
  split; [reflexivity|]. split; [left; reflexivity|].
  split; [reflexivity | discriminate].
Qed.

(** Every numeric id of the table has two characters. *)
Lemma fips_length (code fips : string) :
  obj_get STATE_FIPS code = Some fips -> String.length fips = 2.
Proof.
  intros H.
  pose proof (table_forall (fun _ v => Nat.eqb (String.length v) 2)
                STATE_FIPS eq_refl code fips H) as Hp.
  now apply Nat.eqb_eq in Hp.
Qed.

(** A string padded to two characters is a given string of two characters
    other than [00] exactly when it is that string or that string without
    its leading zero. *)
Lemma padStart_is (s fips : string) :
  String.length fips = 2 -> fips <> "00" ->
  padStart 2 "0"%char s = fips <-> s = fips \/ "0" +:+ s = fips.
Proof.
  intros Hlen H00. rewrite padStart_2.
  destruct s as [|a [|b s]]; cbn.
  - split; [intros E; now subst fips|].
    intros [E|E]; subst fips; discriminate.
  - split; [now right|]. intros [E|E]; [subst fips; discriminate | exact E].
  - split; [now left|]. intros [E|E]; [exact E|].
    subst fips. simpl in Hlen. discriminate Hlen.
Qed.

(** C7, amended.  For a code of the table and a topology that is cached or
    can be fetched, [loadStateDistricts] (and [loadStateMap] of the earlier
    page, which runs the same way) returns exactly the features of the
    document, in their order, whose state property, read as [STATEFP] and
    then [state] and else empty, converted to a string and left-padded with
    [0] to two characters, equals the numeric id.  A feature is returned
    exactly when the string form of its property is the id itself or the id
    without its leading zero, be the property a string or a number; a
    string form of two characters or more is the id itself.  When no
    feature matches, the result is the empty collection and nothing is
    thrown. *)
Theorem loadStateDistricts_padded (net : Network) (w : World)
    (stateCode fips : string) (topo : Topology) (districts : list Feature) :
  obj_get STATE_FIPS stateCode = Some fips ->
  topology_of net w = Some topo ->
  select_object topo = Some districts ->
  let r := run_seq net (loadStateDistricts stateCode) w in
  let id_of (f : Feature) :=
    String_of (por (por (f_prop f "STATEFP") (f_prop f "state")) (PStr "")) in
  exists fc,
    settled r = Returned fc
    /\ features fc
       = List.filter (fun f => String.eqb (padStart 2 "0"%char (id_of f)) fips)
           districts
    /\ (forall f, In f (features fc)
                  <-> In f districts /\ (id_of f = fips \/ "0" +:+ id_of f = fips))
    /\ (forall f, In f (features fc) ->
          2 <= String.length (id_of f) -> id_of f = fips)
    /\ (forall f s, In f districts -> f_prop f "STATEFP" = PStr s -> s <> "" ->
          (In f (features fc) <-> s = fips \/ "0" +:+ s = fips))
    /\ (forall f n, In f districts -> f_prop f "STATEFP" = PNum n -> n <> 0%Z ->
          (In f (features fc) <-> pretty n = fips \/ "0" +:+ pretty n = fips))
    /\ ((forall f, In f districts -> id_of f <> fips /\ "0" +:+ id_of f <> fips) ->
        features fc = [])
    /\ run_seq net (Mvp.loadStateMap stateCode) w = r.
Proof.
  intros Hcode Htopo Hsel r id_of.
  destruct (fips_shape _ _ Hcode) as [Hne H00].
  pose proof (fips_length _ _ Hcode) as Hlen.
  exists {| features := List.filter (fun f => String.eqb (state_of f) fips) districts |}.
  assert (Hrun : settled r = Returned
            {| features := List.filter (fun f => String.eqb (state_of f) fips) districts |}).
  { subst r. unfold loadStateDistricts, load_districts, filter_districts.
    rewrite Hcode.
    assert (Ht : truthy_prim (PStr fips) = true).
    { simpl. apply negb_true_iff, String.eqb_neq. exact Hne. }
    rewrite Ht. simpl. unfold topology_of in Htopo.
    destruct (CONGRESS_TOPO w) as [t|] eqn:Hw; simpl.
    - rewrite Hw. injection Htopo as ->. now rewrite Hsel.
    - destruct (atlas_cdn net US_ATLAS_CONGRESS) as [resp|]; [|discriminate].
      simpl. destruct (ok resp); [|discriminate]. simpl.
      rewrite Htopo. simpl. now rewrite Hsel. }
  assert (Hin : forall f,
            In f (List.filter (fun f => String.eqb (state_of f) fips) districts)
            <-> In f districts /\ (id_of f = fips \/ "0" +:+ id_of f = fips)).
  { intros f. rewrite filter_In, String.eqb_eq.
    now rewrite <- (padStart_is (id_of f) fips Hlen H00). }
  split; [exact Hrun|]. cbn [features].
  split; [reflexivity|]. split; [exact Hin|]. split; [|split; [|split; [|split]]].
  - intros f Hf Hlong. apply Hin in Hf as [_ [E|E]]; [exact E|].
    rewrite <- E in Hlen.
    change (String.length ("0" +:+ id_of f)) with (S (String.length (id_of f))) in Hlen.
    lia.
  - intros f s Hf Hs Hs0. rewrite Hin.
    assert (Hid : id_of f = s).
    { assert (Ts : truthy_prim (PStr s) = true)
        by (cbn; now apply negb_true_iff, String.eqb_neq).
      unfold id_of, por. rewrite Hs, Ts. cbv iota. now rewrite Ts. }
    rewrite Hid. tauto.
  - intros f n Hf Hn Hn0. rewrite Hin.
    assert (Hid : id_of f = pretty n).
    { assert (Tn : truthy_prim (PNum n) = true)
        by (cbn; now apply negb_true_iff, Z.eqb_neq).
      unfold id_of, por. rewrite Hn, Tn. cbv iota. now rewrite Tn. }
    rewrite Hid. tauto.
  - intros Hnone. clear Hin. induction districts as [|f fs IH] in Hnone |- *.
    + reflexivity.
    + simpl. destruct (String.eqb (state_of f) fips) eqn:E.
      * apply String.eqb_eq in E. exfalso.
        destruct (Hnone f (or_introl eq_refl)) as [N1 N2].
        apply (padStart_is (id_of f) fips Hlen H00) in E as [E|E]; tauto.
      * apply IH. intros g Hg. apply Hnone. now right.
  - reflexivity.
Qed.

Lemma loadStateDistricts_padded_witness :
  exists fc,
    settled (run_seq (atlas two_states) (loadStateDistricts "CA") initial_world)
    = Returned fc
    /\ features fc = ca_districts.
Proof.
  destruct (loadStateDistricts_padded (atlas two_states) initial_world
              "CA" "06" two_states (wy_district :: ca_districts))
    as (fc & Hrun & Hfc & _); [reflexivity | reflexivity | reflexivity |].
  exists fc. split; [exact Hrun | exact Hfc].
Defined.

(** ** The render layer *)

(** Rendering never throws and never waits, whatever the collection. *)
Lemma render_returns (net : Network) (w : World) (geojson : option FeatureCollection)
    (style : Style) (popup : Feature -> string) (padding : Z) :
  let r := run_seq net (render geojson style popup padding) w in
  let l := L_geoJSON (layer_count w) geojson style popup in
  settled r = Returned tt
  /\ fetched r = []
  /\ geoLayer (final r) = Some l
  /\ map_layers (final r) = replaced w l
  /\ viewport (final r) =
       match getBounds l with
       | Some b => Fitted b padding
       | None => viewport w
       end
  /\ advance (render geojson style popup padding) w = (final r, Finished tt).
Proof.
  unfold render, replaced. simpl.
  destruct (geoLayer w) as [old|]; simpl;
    destruct (getBounds (L_geoJSON (layer_count w) geojson style popup));
    simpl; repeat split; reflexivity.
Qed.

(** C9.  Rendering a collection without features returns normally and
    leaves the viewport as it was; the previous district layer is taken off
    the map and the new, empty layer is attached after it.  The same holds
    of [renderGeojson] of the earlier page. *)
Theorem renderDistricts_empty (net : Network) (w : World) (style : Style) :
  let empty := Some {| features := [] |} in
  let r := run_seq net (renderDistricts empty style) w in
  let l := L_geoJSON (layer_count w) empty style onEachDistrict in
  let r' := run_seq net (Mvp.renderGeojson empty) w in
  let l' := L_geoJSON (layer_count w) empty Mvp.styleDistrict Mvp.onEachDistrict in
  (settled r = Returned tt
   /\ viewport (final r) = viewport w
   /\ layer_features l = []
   /\ geoLayer (final r) = Some l
   /\ map_layers (final r) = replaced w l)
  /\ (settled r' = Returned tt
      /\ viewport (final r') = viewport w
      /\ layer_features l' = []
      /\ geoLayer (final r') = Some l'
      /\ map_layers (final r') = replaced w l').
Proof.
  intros empty r l r' l'. split.
  - destruct (render_returns net w empty style onEachDistrict 18)
      as (H1 & _ & H3 & H4 & H5 & _).
    repeat split; assumption.
  - destruct (render_returns net w empty Mvp.styleDistrict Mvp.onEachDistrict 20)
      as (H1 & _ & H3 & H4 & H5 & _).
    repeat split; assumption.
Qed.

(** Layers are numbered as they are created, so the layer taken off the
    map is not on it afterwards. *)
Lemma replaced_without_old (w : World) (old l : Layer) :
  geoLayer w = Some old ->
  layer_id l <> layer_id old ->
  ~ In old (replaced w l).
Proof.
  intros Hold Hid Hin. unfold replaced in Hin. rewrite Hold in Hin.
  apply in_app_or in Hin as [Hin|[Hin|[]]].
  - apply filter_In in Hin as [_ Hin].
    apply negb_true_iff, Nat.eqb_neq in Hin. now apply Hin.
  - subst. now apply Hid.
Qed.

(** ** Sequencing and footprints *)

Lemma run_seq_bind {A B : Type} (net : Network) (p : async A) (f : A -> async B)
    (w : World) :
  run_seq net (bind p f) w = then_run net (run_seq net p w) f.
Proof.
  revert w. induction p as [a|e|k IH|g k IH|url k IH|url k IH|k IH]; intros w; simpl.
  - unfold then_run. simpl. now destruct (run_seq net (f a) w).
  - reflexivity.
  - apply IH.
  - apply IH.
  - rewrite IH. unfold then_run, sent. simpl.
    now destruct (settled (run_seq net (k (metrics_api net url)) w)).
  - rewrite IH. unfold then_run, sent. simpl.
    now destruct (settled (run_seq net (k (atlas_cdn net url)) w)).
  - apply IH.
Qed.

Lemma keeps_bind {A B C : Type} (proj : World -> C) (p : async A) (f : A -> async B) :
  keeps proj p -> (forall a, keeps proj (f a)) -> keeps proj (bind p f).
Proof.
  intros Hp Hf. induction p as [a|e|k IH|g k IH|url k IH|url k IH|k IH]; simpl in *.
  - apply Hf.
  - exact I.
  - intros w. apply IH, Hp.
  - split; [apply Hp | apply IH, Hp].
  - intros r. apply IH, Hp.
  - intros r. apply IH, Hp.
  - apply IH, Hp.
Qed.

Lemma keeps_try_catch {A C : Type} (proj : World -> C) (p : async A)
    (h : exn -> async A) :
  keeps proj p -> (forall e, keeps proj (h e)) -> keeps proj (try_catch p h).
Proof.
  intros Hp Hh. induction p as [a|e|k IH|g k IH|url k IH|url k IH|k IH]; simpl in *.
  - exact I.
  - apply Hh.
  - intros w. apply IH, Hp.
  - split; [apply Hp | apply IH, Hp].
  - intros r. apply IH, Hp.
  - intros r. apply IH, Hp.
  - apply IH, Hp.
Qed.

Lemma keeps_run_seq {A C : Type} (proj : World -> C) (net : Network) (p : async A)
    (w : World) :
  keeps proj p -> proj (final (run_seq net p w)) = proj w.
Proof.
  revert w. induction p as [a|e|k IH|g k IH|url k IH|url k IH|k IH];
    intros w Hp; simpl in *; auto.
  destruct Hp as [Hg Hk]. rewrite (IH _ Hk). apply Hg.
Qed.

Lemma keeps_advance {A C : Type} (proj : World -> C) (p : async A) (w : World) :
  keeps proj p ->
  proj (fst (advance p w)) = proj w /\ status_keeps proj (snd (advance p w)).
Proof.
  revert w. induction p as [a|e|k IH|g k IH|url k IH|url k IH|k IH];
    intros w Hp; simpl in *; auto.
  destruct Hp as [Hg Hk]. destruct (IH (g w) Hk) as [H1 H2].
  split; [now rewrite H1 | exact H2].
Qed.

Ltac keeps_step :=
  first
    [ apply keeps_bind
    | apply keeps_try_catch
    | match goal with
      | |- keeps _ (match ?x with _ => _ end) => destruct x
      | |- keeps _ (await _) => unfold await
      | |- keeps _ (modify _) => unfold modify
      end
    | progress simpl
    | intro
    | split
    | reflexivity
    | exact I ].

Ltac keeps_auto := repeat keeps_step.

Section Footprints.
Context {C : Type} (proj : World -> C).
Hypothesis heap_free : forall h w, proj (with_heap h w) = proj w.
Hypothesis sidebar_free : forall s w, proj (with_sidebar s w) = proj w.

Lemma keeps_box (v : val) : keeps proj (box v).
Proof. destruct v; simpl; auto. Qed.

Lemma keeps_read_prop (m : ref) (k : string) : keeps proj (read_prop m k).
Proof. unfold read_prop. keeps_auto. Qed.

Lemma keeps_write_prop (m : ref) (k : string) (x : val) :
  keeps proj (write_prop m k x).
Proof. unfold write_prop. destruct m as [[]|]; simpl; auto. Qed.

Lemma keeps_write_summary_prop (m : ref) (k : string) (x : val) :
  keeps proj (write_summary_prop m k x).
Proof.
  unfold write_summary_prop. apply keeps_bind; [apply keeps_read_prop|].
  intros s. destruct (get_prop s k); [apply keeps_write_prop | exact I].
Qed.

Lemma keeps_ensure_summary (m : ref) : keeps proj (ensure_summary m).
Proof.
  unfold ensure_summary. apply keeps_bind; [apply keeps_read_prop|].
  intros s. apply keeps_write_prop.
Qed.

Lemma keeps_ensure_notes (m : ref) : keeps proj (ensure_notes m).
Proof.
  unfold ensure_notes. apply keeps_bind; [apply keeps_read_prop|].
  intros s. destruct (get_prop s "notes");
    [apply keeps_write_summary_prop | exact I].
Qed.

Lemma keeps_unshift_note (m : ref) (note : string) :
  keeps proj (unshift_note m note).
Proof.
  unfold unshift_note. apply keeps_bind; [apply keeps_read_prop|].
  intros s. destruct (get_prop s "notes") as [[| |]|]; try exact I.
  destruct (has_method _ _); [apply keeps_write_summary_prop | exact I].
Qed.

Lemma keeps_show (paint : bool) (m : ref) : keeps proj (show paint m).
Proof.
  unfold show. intros w. cbv zeta.
  match goal with
  | |- keeps _ (match ?x with _ => _ end) => destruct x as [[]| |]
  end; try exact I.
  simpl. repeat split;
    try (intros w0; unfold set_classification_node, set_summary_node,
           set_notes_node; apply sidebar_free).
  match goal with
  | |- keeps _ (if ?b then _ else _) => destruct b
  end; simpl; auto.
  split; [|exact I]. intros w0. unfold set_notes_node. apply sidebar_free.
Qed.

Lemma keeps_loadDemoMetrics (stateCode : string) :
  keeps proj (Mvp.loadDemoMetrics stateCode).
Proof.
  unfold Mvp.loadDemoMetrics. intros [resp|]; [|exact I].
  destruct (ok resp); [|exact I]. simpl.
  destruct (json resp); [apply keeps_box | exact I].
Qed.

Hypothesis cache_free : forall c w, proj (with_cache c w) = proj w.

Lemma keeps_loadMetrics (stateCode : string) : keeps proj (loadMetrics stateCode).
Proof.
  unfold loadMetrics. intros w.
  destruct (truthy_ref _); [exact I|].
  apply keeps_bind.
  - apply keeps_try_catch; [|intros; exact I].
    intros [resp|]; [|exact I]. destruct (ok resp); [|exact I]. simpl.
    destruct (json resp); [|exact I].
    apply keeps_bind; [apply keeps_box|].
    intros data. simpl. split; [|exact I].
    intros w0. unfold cache_set. apply cache_free.
  - intros [data|]; [exact I|].
    apply keeps_bind; [apply keeps_box|].
    intros fb. simpl. split; [|intros; exact I].
    intros w0. unfold cache_set. apply cache_free.
Qed.
End Footprints.

(** ** Plan generation without districts *)

Lemma keeps_then {A B C : Type} (proj : World -> C) (net : Network)
    (p : async A) (f : A -> async B) (w : World) :
  keeps proj p ->
  (forall a w', proj w' = proj w -> proj (final (run_seq net (f a) w')) = proj w) ->
  proj (final (run_seq net (bind p f) w)) = proj w.
Proof.
  intros Hp Hf. rewrite run_seq_bind. unfold then_run.
  pose proof (keeps_run_seq proj net p w Hp) as Hw.
  destruct (settled (run_seq net p w)); simpl; auto.
Qed.

(** C4 as stated fails for the earlier page: with no districts loaded, its
    [generatePlan] still fetches the metrics of the state, prepends the note
    to the fetched record and rewrites the sidebar. *)
Lemma Mvp_generatePlan_without_districts_shows :
  let r := run_seq demo_metrics (Mvp.generatePlan "CA" (VPrim (PStr "fair")))
             initial_world in
  currentGeo initial_world = None
  /\ settled r = Returned tt
  /\ fetched r = [metrics_url "CA"]
  /\ classification_text (sidebar (final r)) = "FAIR"
  /\ notes_items (sidebar (final r))
     = [VPrim (PStr Mvp.fair_note); VPrim (PStr "Demo data")]
  /\ final r <> initial_world.
Proof.
  vm_compute. repeat split; try reflexivity. discriminate.
Qed.

(** C4, amended.  With no district collection, [generatePlan] of
    [main.js] returns at once: no request, no await, and every global is as
    before.  [generatePlan] of the earlier page draws nothing either (the
    collection, the layer, the overlays, their styles and the viewport are
    as before) and leaves the metrics cache alone, but it is not a no-op:
    it requests the metrics and may rewrite the sidebar. *)
Theorem generatePlan_without_districts (net : Network) (stateCode : string)
    (mode : val) (w : World) :
  currentGeo w = None ->
  run_seq net (generatePlan stateCode mode) w
  = {| final := w; fetched := []; settled := Returned tt |}
  /\ advance (generatePlan stateCode mode) w = (w, Finished tt)
  /\ drawn (final (run_seq net (Mvp.generatePlan stateCode mode) w)) = drawn w
  /\ METRICS_CACHE (final (run_seq net (Mvp.generatePlan stateCode mode) w))
     = METRICS_CACHE w.
Proof.
  intros Hgeo.
  split; [unfold generatePlan; simpl; now rewrite Hgeo|].
  split; [unfold generatePlan; simpl; now rewrite Hgeo|].
  set (proj := fun w' => (drawn w', METRICS_CACHE w')).
  assert (Hfree1 : forall h w', proj (with_heap h w') = proj w') by reflexivity.
  assert (Hfree2 : forall s w', proj (with_sidebar s w') = proj w') by reflexivity.
  assert (H : proj (final (run_seq net (Mvp.generatePlan stateCode mode) w)) = proj w).
  { unfold Mvp.generatePlan. apply keeps_then.
    - unfold await. now apply keeps_loadDemoMetrics.
    - intros m w1 Hw1. rewrite <- Hw1. apply keeps_then.
      + intros w2.
        destruct (truthy_ref m && truthy (opt_prop (deref w2 m) "summary"));
          [|exact I].
        apply keeps_bind; [now apply keeps_ensure_notes|]. intros _.
        apply keeps_bind; [|intros _; now apply keeps_show].
        destruct (is_string mode "fair");
          [apply keeps_bind; [now apply keeps_unshift_note
                             |intros _; now apply keeps_write_prop]|].
        destruct (is_string mode "favor_democrats");
          [apply keeps_bind; [now apply keeps_unshift_note
                             |intros _; now apply keeps_write_prop]|].
        destruct (is_string mode "favor_republicans");
          [apply keeps_bind; [now apply keeps_unshift_note
                             |intros _; now apply keeps_write_prop]|].
        exact I.
      + intros _ w2 Hw2. simpl.
        assert (Hnone : currentGeo w2 = None).
        { rewrite Hw1 in Hw2.
          pose proof (f_equal (fun x => fst (fst (fst (fst (fst x))))) Hw2) as Hg.
          simpl in Hg. congruence. }
        rewrite Hnone. simpl. exact Hw2. }
  split; [exact (f_equal fst H) | exact (f_equal snd H)].
Qed.

Lemma generatePlan_without_districts_witness :
  run_seq offline (generatePlan "CA" (VPrim (PStr "fair"))) initial_world
  = {| final := initial_world; fetched := []; settled := Returned tt |}.
Proof.
  destruct (generatePlan_without_districts offline "CA" (VPrim (PStr "fair"))
              initial_world) as [H _]; [reflexivity | exact H].
Defined.

(** ** Records and their properties *)

Lemma obj_get_set_eq {V : Type} (o : obj V) (k : string) (v : V) :
  obj_get (obj_set o k v) k = Some v.
Proof.
  induction o as [|[k' v'] rest IH]; simpl.
  - now rewrite String.eqb_refl.
  - destruct (String.eqb k' k) eqn:E; simpl.
    + now rewrite String.eqb_refl.
    + now rewrite E.
Qed.

Lemma obj_get_set_ne {V : Type} (o : obj V) (k k' : string) (v : V) :
  k <> k' -> obj_get (obj_set o k v) k' = obj_get o k'.
Proof.
  intros Hne. induction o as [|[k0 v0] rest IH]; simpl.
  - apply String.eqb_neq in Hne. now rewrite Hne.
  - destruct (String.eqb k0 k) eqn:E; simpl.
    + apply String.eqb_eq in E. subst k0.
      apply String.eqb_neq in Hne. now rewrite Hne.
    + now rewrite IH.
Qed.

Lemma opt_prop_set_eq (v x : val) (k : string) :
  is_object v = true -> opt_prop (set_prop v k x) k = x.
Proof.
  destruct v; simpl; [discriminate| |]; intros _; unfold opt_prop; simpl;
    now rewrite obj_get_set_eq.
Qed.

Lemma opt_prop_set_ne (v x : val) (k k' : string) :
  k <> k' -> opt_prop (set_prop v k x) k' = opt_prop v k'.
Proof.
  intros Hne. destruct v; simpl; [reflexivity| |]; unfold opt_prop; simpl;
    now rewrite obj_get_set_ne.
Qed.

Lemma is_object_set (v x : val) (k : string) :
  is_object (set_prop v k x) = is_object v.
Proof. now destruct v. Qed.

Lemma get_prop_object (v : val) (k : string) :
  is_object v = true -> get_prop v k = Some (opt_prop v k).
Proof. destruct v; simpl; [discriminate| |]; reflexivity. Qed.

Lemma opt_prop_falsy (v : val) (k : string) :
  truthy v = false -> opt_prop v k = undefined.
Proof. destruct v as [[]| |]; simpl; try discriminate; reflexivity. Qed.

(** A record of the expected shape, seen through its summary and notes. *)
Lemma metrics_record_inv (rec : val) :
  metrics_record rec = true ->
  is_object rec = true
  /\ exists s items props,
       vor (opt_prop rec "summary") (VObj []) = s
       /\ is_object s = true
       /\ vor (opt_prop s "notes") (VArr [] []) = VArr items props
       /\ is_array (VArr items props) = true
       /\ notes_of rec = items.
Proof.
  unfold metrics_record, notes_of. intros H.
  apply andb_true_iff in H as [Hobj H]. split; [exact Hobj|].
  cbv zeta in H. apply orb_true_iff in H as [H|H].
  - apply negb_true_iff in H. exists (VObj []), [], [].
    unfold vor at 1. rewrite H. rewrite (opt_prop_falsy _ _ H).
    repeat split; reflexivity.
  - apply andb_true_iff in H as [Hs H].
    assert (Hts : truthy (opt_prop rec "summary") = true).
    { destruct (opt_prop rec "summary"); [discriminate| |]; reflexivity. }
    unfold vor at 1. rewrite Hts.
    apply orb_true_iff in H as [H|H].
    + apply negb_true_iff in H. exists (opt_prop rec "summary"), [], [].
      unfold vor. rewrite H. repeat split; auto.
    + destruct (opt_prop (opt_prop rec "summary") "notes") as [|items props|] eqn:En;
        try discriminate.
      exists (opt_prop rec "summary"), items, props.
      rewrite En. simpl. repeat split; auto.
Qed.

Lemma planned_record (note cls : string) (rec : val) :
  metrics_record rec = true ->
  classification_of (planned note cls rec) = VPrim (PStr cls)
  /\ notes_of (planned note cls rec) = VPrim (PStr note) :: notes_of rec
  /\ metrics_record (planned note cls rec) = true.
Proof.
  intros H.
  destruct (metrics_record_inv rec H)
    as (Hobj & s & items & props & Hs & Hso & Hn & Harr & Hnotes).
  unfold planned. cbv zeta.
  rewrite (opt_prop_set_eq rec _ "summary" Hobj), Hs.
  rewrite (opt_prop_set_eq (set_prop rec "summary" s) _ "summary")
    by now rewrite is_object_set.
  rewrite Hn. rewrite (opt_prop_set_eq s _ "notes" Hso).
  set (r3 := set_prop _ "summary" (set_prop _ "notes" (VArr (_ :: items) props))).
  assert (Hr3 : is_object r3 = true).
  { unfold r3. now rewrite !is_object_set. }
  assert (Hsum : opt_prop r3 "summary"
                 = set_prop (set_prop s "notes" (VArr items props)) "notes"
                     (VArr (VPrim (PStr note) :: items) props)).
  { unfold r3. apply opt_prop_set_eq. now rewrite !is_object_set. }
  assert (Hnts : opt_prop (opt_prop r3 "summary") "notes"
                 = VArr (VPrim (PStr note) :: items) props).
  { rewrite Hsum. apply opt_prop_set_eq. now rewrite is_object_set. }
  split; [|split].
  - unfold classification_of. now apply opt_prop_set_eq.
  - rewrite Hnotes. unfold notes_of. rewrite opt_prop_set_ne by discriminate.
    now rewrite Hnts.
  - unfold metrics_record. rewrite is_object_set, Hr3. simpl.
    rewrite opt_prop_set_ne by discriminate. rewrite Hnts, Hsum.
    rewrite !is_object_set, Hso. simpl.
    unfold is_array in *. simpl in *. rewrite Harr. apply orb_true_r.
Qed.

(** ** Runs of the record updates *)

Lemma then_done {A B : Type} (net : Network) (w : World) (a : A) (f : A -> async B) :
  then_run net (done_at w a) f = run_seq net (f a) w.
Proof. unfold then_run, done_at. simpl. now destruct (run_seq net (f a) w). Qed.

Section RecordAt.
Variables (net : Network) (w : World) (l : nat) (rec : val).
Hypothesis Hl : heap w !! l = Some rec.
Hypothesis Hobj : is_object rec = true.

Lemma deref_at : deref w (RObj l) = rec.
Proof. unfold deref. now rewrite Hl. Qed.

Lemma alter_at (f : val -> val) : alter f l (heap w) = <[l := f rec]> (heap w).
Proof.
  clear Hobj. revert l Hl. induction (heap w) as [|v h IH]; intros [|n] H;
    simpl in *; try discriminate.
  - now injection H as ->.
  - f_equal. now apply IH.
Qed.

Lemma store_at (v : val) : heap (store l v w) !! l = Some v.
Proof.
  unfold store. simpl. apply list_lookup_insert_eq.
  now apply lookup_lt_Some in Hl.
Qed.

Lemma store_store (v v' : val) : store l v' (store l v w) = store l v' w.
Proof. unfold store. simpl. unfold with_heap. simpl. now rewrite list_insert_insert_eq. Qed.

Lemma run_read_prop (k : string) :
  run_seq net (read_prop (RObj l) k) w = done_at w (opt_prop rec k).
Proof.
  unfold read_prop. simpl. rewrite deref_at.
  now rewrite (get_prop_object _ _ Hobj).
Qed.

Lemma run_write_prop (k : string) (x : val) :
  run_seq net (write_prop (RObj l) k x) w = done_at (store l (set_prop rec k x) w) tt.
Proof. unfold write_prop, store. simpl. now rewrite alter_at. Qed.

Lemma run_write_summary_prop (k : string) (x : val) :
  is_object (opt_prop rec "summary") = true ->
  run_seq net (write_summary_prop (RObj l) k x) w
  = done_at (store l (set_prop rec "summary"
                        (set_prop (opt_prop rec "summary") k x)) w) tt.
Proof.
  intros Hs. unfold write_summary_prop.
  rewrite run_seq_bind, run_read_prop, then_done.
  rewrite (get_prop_object _ _ Hs). apply run_write_prop.
Qed.

Lemma run_ensure_summary :
  run_seq net (ensure_summary (RObj l)) w
  = done_at (store l (set_prop rec "summary"
                        (vor (opt_prop rec "summary") (VObj []))) w) tt.
Proof.
  unfold ensure_summary.
  rewrite run_seq_bind, run_read_prop, then_done. apply run_write_prop.
Qed.

Lemma run_ensure_notes :
  is_object (opt_prop rec "summary") = true ->
  run_seq net (ensure_notes (RObj l)) w
  = done_at (store l (set_prop rec "summary"
                        (set_prop (opt_prop rec "summary") "notes"
                           (vor (opt_prop (opt_prop rec "summary") "notes")
                                (VArr [] [])))) w) tt.
Proof.
  intros Hs. unfold ensure_notes.
  rewrite run_seq_bind, run_read_prop, then_done.
  rewrite (get_prop_object _ _ Hs). now apply run_write_summary_prop.
Qed.

Lemma run_unshift_note (note : string) (items : list val) (props : obj val) :
  is_object (opt_prop rec "summary") = true ->
  opt_prop (opt_prop rec "summary") "notes" = VArr items props ->
  has_method (VArr items props) "unshift" = true ->
  run_seq net (unshift_note (RObj l) note) w
  = done_at (store l (set_prop rec "summary"
                        (set_prop (opt_prop rec "summary") "notes"
                           (VArr (VPrim (PStr note) :: items) props))) w) tt.
Proof.
  intros Hs Hn Hm. unfold unshift_note.
  rewrite run_seq_bind, run_read_prop, then_done.
  rewrite (get_prop_object _ _ Hs), Hn, Hm. now apply run_write_summary_prop.
Qed.

Lemma run_show (paint : bool) (c : string) (items : list val) (props : obj val) :
  classification_of rec = VPrim (PStr c) ->
  opt_prop (opt_prop rec "summary") "notes" = VArr items props ->
  has_method (VArr items props) "forEach" = true ->
  exists sb,
    run_seq net (show paint (RObj l)) w = done_at (with_sidebar sb w) tt.
Proof.
  unfold classification_of. intros Hc Hn Hm. unfold show. simpl.
  rewrite deref_at, Hc.
  assert (Hstr : exists c', vor (VPrim (PStr c)) (VPrim (PStr "unknown"))
                            = VPrim (PStr c')).
  { unfold vor. destruct (truthy (VPrim (PStr c))); eauto. }
  destruct Hstr as [c' ->]. simpl. rewrite Hn. simpl in Hm |- *. rewrite Hm. simpl.
  eexists. unfold done_at. f_equal.
Qed.
End RecordAt.

(** ** Plan generation on a ready state *)

Lemma keeps_render {C : Type} (proj : World -> C)
    (geojson : option FeatureCollection) (style : Style)
    (popup : Feature -> string) (padding : Z) :
  (forall g ls n w, proj (with_layers g ls n w) = proj w) ->
  (forall v w, proj (with_viewport v w) = proj w) ->
  keeps proj (render geojson style popup padding).
Proof.
  intros Hlayers Hview. unfold render.
  apply keeps_bind.
  { intros w. destruct (geoLayer w); simpl; auto.
    split; [|exact I]. intros w0. apply Hlayers. }
  intros _. apply keeps_bind.
  { simpl. split; [|exact I]. intros w0. apply Hlayers. }
  intros _. apply keeps_try_catch; [|intros; exact I].
  intros w. destruct (geoLayer w) as [l|]; [|exact I].
  unfold fitBounds. destruct (getBounds l); simpl; auto.
Qed.

Lemma run_await_loadMetrics_hit (net : Network) (stateCode : string) (w : World) :
  truthy_ref (cache_get w stateCode) = true ->
  run_seq net (await (loadMetrics stateCode)) w = done_at w (cache_get w stateCode).
Proof.
  intros H. unfold await. now rewrite (loadMetrics_hit _ _ _ H).
Qed.

Lemma plan_branches (m : ref) (mode : val) :
  (if is_string mode "fair" then
     do _ <- unshift_note m fair_note;
     write_prop m "classification" (VPrim (PStr "fair"))
   else if is_string mode "favor_democrats" then
     do _ <- unshift_note m democrats_note;
     write_prop m "classification" (VPrim (PStr "favors_democrats"))
   else
     do _ <- unshift_note m republicans_note;
     write_prop m "classification" (VPrim (PStr "favors_republicans")))
  = (do _ <- unshift_note m (fst (plan_of mode));
     write_prop m "classification" (VPrim (PStr (snd (plan_of mode))))).
Proof.
  unfold plan_of. destruct (is_string mode "fair"); [reflexivity|].
  destruct (is_string mode "favor_democrats"); reflexivity.
Qed.

(** One call of [generatePlan] on a state whose metrics record is cached
    and whose districts are loaded: no request, the record updated in
    place, the districts drawn again in the style of the mode. *)
Lemma generatePlan_ready (net : Network) (stateCode : string) (mode : val)
    (w : World) (l : nat) (rec : val) (fc : FeatureCollection) :
  currentGeo w = Some fc ->
  cache_get w stateCode = RObj l ->
  heap w !! l = Some rec ->
  metrics_record rec = true ->
  let r := run_seq net (generatePlan stateCode mode) w in
  settled r = Returned tt
  /\ fetched r = []
  /\ currentGeo (final r) = Some fc
  /\ METRICS_CACHE (final r) = METRICS_CACHE w
  /\ heap (final r)
     = <[l := planned (fst (plan_of mode)) (snd (plan_of mode)) rec]> (heap w)
  /\ geoLayer (final r)
     = Some (L_geoJSON (layer_count w) (Some fc) (styleDistrictMode mode) onEachDistrict).
Proof.
  intros Hgeo Hcache Hl Hrec.
  destruct (metrics_record_inv rec Hrec)
    as (Hobj & s & items & props & Hs & Hso & Hn & Harr & Hnotes).
  apply andb_true_iff in Harr as [Hunshift HforEach].
  set (note := fst (plan_of mode)). set (cls := snd (plan_of mode)).
  set (r1 := set_prop rec "summary" (vor (opt_prop rec "summary") (VObj []))).
  assert (Hs1 : opt_prop r1 "summary" = s).
  { unfold r1. rewrite (opt_prop_set_eq _ _ _ Hobj). exact Hs. }
  set (r2 := set_prop r1 "summary"
               (set_prop s "notes" (vor (opt_prop s "notes") (VArr [] [])))).
  assert (Hobj1 : is_object r1 = true) by (unfold r1; now rewrite is_object_set).
  assert (Hs2 : opt_prop r2 "summary" = set_prop s "notes" (VArr items props)).
  { unfold r2. rewrite (opt_prop_set_eq _ _ _ Hobj1). now rewrite Hn. }
  assert (Hobj2 : is_object r2 = true) by (unfold r2; now rewrite is_object_set).
  assert (Hn2 : opt_prop (opt_prop r2 "summary") "notes" = VArr items props).
  { rewrite Hs2. now apply opt_prop_set_eq. }
  set (r3 := set_prop r2 "summary"
               (set_prop (opt_prop r2 "summary") "notes"
                  (VArr (VPrim (PStr note) :: items) props))).
  assert (Hobj3 : is_object r3 = true) by (unfold r3; now rewrite is_object_set).
  set (r4 := set_prop r3 "classification" (VPrim (PStr cls))).
  assert (Hplanned : planned note cls rec = r4).
  { unfold planned. cbv zeta. fold r1. rewrite Hs1. fold r2. rewrite Hn2. reflexivity. }
  assert (Hobj4 : is_object r4 = true) by (unfold r4; now rewrite is_object_set).
  assert (Hc4 : classification_of r4 = VPrim (PStr cls)).
  { unfold r4, classification_of. now apply opt_prop_set_eq. }
  assert (Hn4 : opt_prop (opt_prop r4 "summary") "notes"
                = VArr (VPrim (PStr note) :: items) props).
  { unfold r4. rewrite opt_prop_set_ne by discriminate.
    unfold r3. rewrite (opt_prop_set_eq _ _ _ Hobj2).
    apply opt_prop_set_eq. rewrite Hs2. now rewrite is_object_set. }
  (* the run, statement by statement *)
  intros r. subst r. unfold generatePlan. cbn [run_seq]. rewrite Hgeo.
  rewrite run_seq_bind, run_await_loadMetrics_hit by now rewrite Hcache.
  rewrite then_done, Hcache.
  rewrite run_seq_bind, (run_ensure_summary net w l rec Hl Hobj), then_done.
  fold r1.
  pose proof (store_at w l rec Hl r1) as Hl1.
  rewrite run_seq_bind, (run_ensure_notes net _ l r1 Hl1 Hobj1), then_done
    by now rewrite Hs1.
  rewrite Hs1. fold r2. rewrite store_store.
  pose proof (store_at w l rec Hl r2) as Hl2.
  rewrite run_seq_bind, plan_branches. fold note cls.
  rewrite run_seq_bind.
  rewrite (run_unshift_note net _ l r2 Hl2 Hobj2 note items props);
    [| rewrite Hs2; now rewrite is_object_set | exact Hn2 | exact Hunshift].
  rewrite then_done. fold r3. rewrite store_store.
  pose proof (store_at w l rec Hl r3) as Hl3.
  rewrite (run_write_prop net _ l r3 Hl3), then_done.
  fold r4. rewrite store_store.
  pose proof (store_at w l rec Hl r4) as Hl4.
  rewrite run_seq_bind.
  destruct (run_show net _ l r4 Hl4 true cls _ props Hc4 Hn4 HforEach) as [sb Hshow].
  unfold showMetrics. rewrite Hshow, then_done. cbn [run_seq].
  change (currentGeo (with_sidebar sb (store l r4 w))) with (currentGeo w).
  rewrite Hgeo.
  set (wd := with_sidebar sb (store l r4 w)).
  destruct (render_returns net wd (Some fc) (styleDistrictMode mode) onEachDistrict 18)
    as (Hret & Hfetch & Hlayer & _).
  unfold renderDistricts.
  pose proof (keeps_run_seq (fun w0 => (currentGeo w0, METRICS_CACHE w0, heap w0))
                net (render (Some fc) (styleDistrictMode mode) onEachDistrict 18) wd
                (keeps_render (fun w0 => (currentGeo w0, METRICS_CACHE w0, heap w0))
                   _ _ _ _ (fun _ _ _ _ => eq_refl) (fun _ _ => eq_refl)))
    as Hkeep.
  pose proof (f_equal (fun x => fst (fst x)) Hkeep) as Hk1.
  pose proof (f_equal (fun x => snd (fst x)) Hkeep) as Hk2.
  pose proof (f_equal snd Hkeep) as Hk3.
  cbv beta in Hk1, Hk2, Hk3. cbn [fst snd] in Hk1, Hk2, Hk3.
  rewrite Hret, Hfetch, Hlayer, Hk1, Hk2, Hk3, Hplanned.
  repeat split; auto.
Qed.

Lemma generate_times_ready (net : Network) (stateCode : string) (mode : val)
    (w : World) (l : nat) (rec : val) (fc : FeatureCollection) (n : nat) :
  currentGeo w = Some fc ->
  cache_get w stateCode = RObj l ->
  heap w !! l = Some rec ->
  metrics_record rec = true ->
  let w' := generate_times n net stateCode mode w in
  currentGeo w' = Some fc
  /\ cache_get w' stateCode = RObj l
  /\ exists rec',
       heap w' !! l = Some rec'
       /\ metrics_record rec' = true
       /\ notes_of rec'
          = (repeat (VPrim (PStr (fst (plan_of mode)))) n ++ notes_of rec)%list
       /\ (0 < n -> classification_of rec' = VPrim (PStr (snd (plan_of mode)))).
Proof.
  intros Hgeo Hcache Hl Hrec. induction n as [|n IH]; cbv zeta in *;
    cbn [generate_times repeat app].
  - split; [exact Hgeo|]. split; [exact Hcache|].
    exists rec. repeat split; auto. lia.
  - destruct IH as (Hg & Hc & rec' & Hl' & Hrec' & Hnotes & _).
    destruct (generatePlan_ready net stateCode mode _ l rec' fc Hg Hc Hl' Hrec')
      as (_ & _ & Hg2 & Hc2 & Hh2 & _).
    destruct (planned_record (fst (plan_of mode)) (snd (plan_of mode)) rec' Hrec')
      as (Pc & Pn & Pr).
    split; [exact Hg2|]. split.
    { unfold cache_get in *. now rewrite Hc2. }
    eexists. split.
    { rewrite Hh2. apply list_lookup_insert_eq. now apply lookup_lt_Some in Hl'. }
    split; [exact Pr|]. split; [now rewrite Pn, Hnotes | intros _; exact Pc].
Qed.

(** C3.  On a state whose metrics record is cached and whose districts are
    loaded, [generatePlan] with mode [fair] returns without any request and
    leaves the cached record, the same object, with classification [fair]
    and with the fair-mode note in front of its former notes.  After [n]
    calls the notes are [n] copies of the note followed by the original
    notes: each call adds exactly one, and none is dropped as a
    duplicate. *)
Theorem generatePlan_fair (net : Network) (stateCode : string) (w : World)
    (l : nat) (rec : val) (fc : FeatureCollection) :
  currentGeo w = Some fc ->
  cache_get w stateCode = RObj l ->
  heap w !! l = Some rec ->
  metrics_record rec = true ->
  let fair := VPrim (PStr "fair") in
  let r := run_seq net (generatePlan stateCode fair) w in
  (settled r = Returned tt
   /\ fetched r = []
   /\ cache_get (final r) stateCode = RObj l
   /\ classification_of (deref (final r) (RObj l)) = VPrim (PStr "fair")
   /\ notes_of (deref (final r) (RObj l)) = VPrim (PStr fair_note) :: notes_of rec)
  /\ forall n,
       let w' := generate_times n net stateCode fair w in
       cache_get w' stateCode = RObj l
       /\ notes_of (deref w' (RObj l))
          = (repeat (VPrim (PStr fair_note)) n ++ notes_of rec)%list
       /\ length (notes_of (deref w' (RObj l))) = n + length (notes_of rec)
       /\ (0 < n -> classification_of (deref w' (RObj l)) = VPrim (PStr "fair")).
Proof.
  intros Hgeo Hcache Hl Hrec fair r.
  assert (Hn : forall n,
    let w' := generate_times n net stateCode fair w in
    cache_get w' stateCode = RObj l
    /\ notes_of (deref w' (RObj l))
       = (repeat (VPrim (PStr fair_note)) n ++ notes_of rec)%list
    /\ length (notes_of (deref w' (RObj l))) = n + length (notes_of rec)
    /\ (0 < n -> classification_of (deref w' (RObj l)) = VPrim (PStr "fair"))).
  { intros n.
    destruct (generate_times_ready net stateCode fair w l rec fc n Hgeo Hcache Hl Hrec)
      as (_ & Hc & rec' & Hl' & _ & Hnotes & Hcls).
    cbv zeta. unfold deref. rewrite Hl'. simpl.
    split; [exact Hc|]. split; [exact Hnotes|]. split; [|exact Hcls].
    rewrite Hnotes, length_app, repeat_length. reflexivity. }
  split; [|exact Hn].
  destruct (generatePlan_ready net stateCode fair w l rec fc Hgeo Hcache Hl Hrec)
    as (Hret & Hfetch & _).
  destruct (Hn 1) as (Hc & Hnotes & _ & Hcls).
  split; [exact Hret|]. split; [exact Hfetch|]. split; [exact Hc|].
  split; [apply Hcls; lia | exact Hnotes].
Qed.

Lemma generatePlan_fair_witness :
  let w := ready_world "CA" no_metrics one_district in
  notes_of (deref (generate_times 2 offline "CA" (VPrim (PStr "fair")) w) (RObj 0))
  = [VPrim (PStr fair_note); VPrim (PStr fair_note); VPrim (PStr "No metrics")].
Proof.
  destruct (generatePlan_fair offline "CA" (ready_world "CA" no_metrics one_district)
              0 no_metrics {| features := one_district |})
    as [_ H]; [reflexivity | reflexivity | reflexivity | reflexivity |].
  destruct (H 2) as (_ & Hnotes & _). exact Hnotes.
Defined.

(** C10.  For every mode that is neither the string [fair] nor the string
    [favor_democrats] (any other string, [undefined], any other value),
    [generatePlan] on a state whose metrics record is cached and whose
    districts are loaded takes the last branch: it sets the classification
    of the record to [favors_republicans] and prepends the
    Republicans-favoring note. *)
Theorem generatePlan_other_modes (net : Network) (stateCode : string) (mode : val)
    (w : World) (l : nat) (rec : val) (fc : FeatureCollection) :
  is_string mode "fair" = false ->
  is_string mode "favor_democrats" = false ->
  currentGeo w = Some fc ->
  cache_get w stateCode = RObj l ->
  heap w !! l = Some rec ->
  metrics_record rec = true ->
  let r := run_seq net (generatePlan stateCode mode) w in
  settled r = Returned tt
  /\ classification_of (deref (final r) (RObj l)) = VPrim (PStr "favors_republicans")
  /\ notes_of (deref (final r) (RObj l)) = VPrim (PStr republicans_note) :: notes_of rec.
Proof.
  intros Hfair Hdem Hgeo Hcache Hl Hrec r.
  destruct (generatePlan_ready net stateCode mode w l rec fc Hgeo Hcache Hl Hrec)
    as (Hret & _ & _ & _ & Hheap & _).
  assert (Hplan : plan_of mode = (republicans_note, "favors_republicans")).
  { unfold plan_of. now rewrite Hfair, Hdem. }
  rewrite Hplan in Hheap. cbn [fst snd] in Hheap.
  destruct (planned_record republicans_note "favors_republicans" rec Hrec)
    as (Pc & Pn & _).
  split; [exact Hret|]. subst r. unfold deref. rewrite Hheap.
  rewrite list_lookup_insert_eq by now apply lookup_lt_Some in Hl.
  cbn [from_option]. split; assumption.
Qed.

Lemma generatePlan_other_modes_witness :
  let w := ready_world "CA" demo_record one_district in
  let r := run_seq offline (generatePlan "CA" (VPrim (PStr "favor_b"))) w in
  let r' := run_seq offline (generatePlan "CA" (VPrim PUndef)) w in
  classification_of (deref (final r) (RObj 0)) = VPrim (PStr "favors_republicans")
  /\ classification_of (deref (final r') (RObj 0)) = VPrim (PStr "favors_republicans").
Proof.
  split.
  - destruct (generatePlan_other_modes offline "CA" (VPrim (PStr "favor_b"))
                (ready_world "CA" demo_record one_district) 0 demo_record
                {| features := one_district |})
      as (_ & H & _); [reflexivity..|exact H].
  - destruct (generatePlan_other_modes offline "CA" (VPrim PUndef)
                (ready_world "CA" demo_record one_district) 0 demo_record
                {| features := one_district |})
      as (_ & H & _); [reflexivity..|exact H].
Defined.

(** ** Two selections in flight *)

(** C1 as stated fails: when the district data of the second selection
    arrive before those of the first, both calls complete, the selected
    state is California and the districts drawn are those of Wyoming. *)
Lemma refreshState_stale_overwrite :
  let s := run stale_schedule (page initial_world) in
  calls s = [Finished tt; Finished tt]
  /\ selectedState (world s) = Some "CA"
  /\ currentGeo (world s) = Some {| features := [wy_district] |}
  /\ (layer_features <$> geoLayer (world s)) = Some [wy_district]
  /\ (layer_features <$> map_layers (world s)) = [[wy_district]]
  /\ currentGeo (world s) <> Some {| features := ca_districts |}.
Proof.
  vm_compute. repeat split; try reflexivity. discriminate.
Qed.

Example refreshState_in_order :
  let s := run fifo_schedule (page initial_world) in
  calls s = [Finished tt; Finished tt]
  /\ selectedState (world s) = Some "CA"
  /\ currentGeo (world s) = Some {| features := ca_districts |}.
Proof. vm_compute. repeat split; reflexivity. Qed.

Lemma advance_bind {A B : Type} (p : async A) (f : A -> async B) (w : World) :
  advance (bind p f) w = then_advance (advance p w) f.
Proof.
  revert w. induction p as [a|e|k IH|g k IH|url k IH|url k IH|k IH];
    intros w; simpl; auto.
Qed.

Lemma keeps_filter_districts {C : Type} (proj : World -> C) (keep : Feature -> bool) :
  (forall t w, proj (with_topo t w) = proj w) ->
  keeps proj (filter_districts keep).
Proof.
  intros Htopo. unfold filter_districts. apply keeps_bind.
  - intros w. destruct (CONGRESS_TOPO w); [exact I|].
    intros [resp|]; [|exact I]. destruct (ok resp); [|exact I]. simpl.
    destruct (json resp); simpl; auto.
  - intros _ w. destruct (CONGRESS_TOPO w) as [topo|]; [|exact I].
    destruct (select_object topo); exact I.
Qed.

Lemma keeps_load_districts {C : Type} (proj : World -> C) (table : obj string)
    (stateCode : string) :
  (forall t w, proj (with_topo t w) = proj w) ->
  keeps proj (load_districts table stateCode).
Proof.
  intros Htopo. unfold load_districts.
  destruct (obj_get table stateCode) as [fips|].
  - destruct (negb (truthy_prim (PStr fips))); [exact I|].
    now apply keeps_filter_districts.
  - destruct (inherited stateCode); [now apply keeps_filter_districts | exact I].
Qed.

(** What is left of [refreshState] once the districts are loaded keeps the
    selected code; once they are drawn, it keeps the whole view. *)
Lemma keeps_metrics_part {C : Type} (proj : World -> C) (stateCode : string) :
  (forall h w, proj (with_heap h w) = proj w) ->
  (forall s w, proj (with_sidebar s w) = proj w) ->
  (forall c w, proj (with_cache c w) = proj w) ->
  keeps proj (do metrics <- await (loadMetrics stateCode); showMetrics metrics).
Proof.
  intros Hh Hs Hc. apply keeps_bind.
  - unfold await. now apply keeps_loadMetrics.
  - intros m. now apply keeps_show.
Qed.

Lemma keeps_selected_after_select (stateCode : string) :
  keeps selectedState
    (do geo <- await (loadStateDistricts stateCode);
     do _ <- modify (with_currentGeo (Some geo));
     do _ <- Read (fun w => renderDistricts (currentGeo w) styleDistrictBase);
     do metrics <- await (loadMetrics stateCode);
     showMetrics metrics).
Proof.
  apply keeps_bind.
  - unfold await. now apply keeps_load_districts.
  - intros geo. apply keeps_bind; [simpl; auto|]. intros _.
    apply keeps_bind; [intros w; now apply keeps_render|]. intros _.
    now apply keeps_metrics_part.
Qed.

(** Completions only resume pending calls: a component of the globals
    that no pending call writes stays as it is. *)
Lemma step_delivery_keeps {C : Type} (proj : World -> C) (s : System)
    (i : nat) (r : reply) :
  Forall (status_keeps proj) (calls s) ->
  proj (world (step s (Deliver i r))) = proj (world s)
  /\ Forall (status_keeps proj) (calls (step s (Deliver i r))).
Proof.
  intros Hall. simpl. destruct (calls s !! i) as [st|] eqn:Hi; [|auto].
  assert (Hst : status_keeps proj st).
  { rewrite Forall_lookup in Hall. exact (Hall i st Hi). }
  destruct (resume st r) as [p|] eqn:Hr; [|auto].
  assert (Hp : keeps proj p).
  { destruct st, r; simpl in Hr; try discriminate;
      injection Hr as <-; simpl in Hst; auto. }
  destruct (keeps_advance proj p (world s) Hp) as [Hw Hk].
  destruct (advance p (world s)) as [w' st']. simpl in *.
  split; [exact Hw|]. now apply Forall_insert.
Qed.

Lemma run_deliveries_keep {C : Type} (proj : World -> C) (evs : list event)
    (s : System) :
  Forall is_delivery evs ->
  Forall (status_keeps proj) (calls s) ->
  proj (world (run evs s)) = proj (world s)
  /\ Forall (status_keeps proj) (calls (run evs s)).
Proof.
  revert s. induction evs as [|e evs IH]; intros s Hev Hall; [auto|].
  inversion Hev as [|? ? He Hevs]; subst.
  destruct e as [| |i r]; simpl in He; try contradiction.
  destruct (step_delivery_keeps proj s i r Hall) as [Hw Hk].
  destruct (IH (step s (Deliver i r)) Hevs Hk) as [Hw' Hk'].
  unfold run in *. cbn [fold_left]. split; [now rewrite Hw', Hw | exact Hk'].
Qed.

(** Once the districts are loaded, [refreshState] stores and draws them
    in the same turn and then leaves the view and the cached topology
    alone. *)
Lemma advance_drawn (stateCode : string) (geo : FeatureCollection) (w : World) :
  exists w' st,
    advance
      (do _ <- modify (with_currentGeo (Some geo));
       do _ <- Read (fun w0 => renderDistricts (currentGeo w0) styleDistrictBase);
       do metrics <- await (loadMetrics stateCode);
       showMetrics metrics) w = (w', st)
    /\ view w' = (selectedState w, Some geo, Some (base_layer w geo))
    /\ status_keeps view st
    /\ CONGRESS_TOPO w' = CONGRESS_TOPO w.
Proof.
  unfold modify. cbn [bind advance]. cbv beta.
  change (currentGeo (with_currentGeo (Some geo) w)) with (Some geo).
  rewrite advance_bind. unfold renderDistricts.
  set (w1 := with_currentGeo (Some geo) w).
  destruct (render_returns offline w1 (Some geo) styleDistrictBase onEachDistrict 18)
    as (_ & _ & Hlayer & _ & _ & Hadv).
  rewrite Hadv. cbn [then_advance].
  set (w2 := final (run_seq offline (render (Some geo) styleDistrictBase onEachDistrict 18) w1)) in *.
  pose proof (keeps_run_seq (fun w0 => (selectedState w0, currentGeo w0)) offline
                (render (Some geo) styleDistrictBase onEachDistrict 18) w1
                (keeps_render (fun w0 => (selectedState w0, currentGeo w0))
                   _ _ _ _ (fun _ _ _ _ => eq_refl) (fun _ _ => eq_refl))) as Hkeep.
  fold w2 in Hkeep. cbv beta in Hkeep.
  pose proof (keeps_run_seq CONGRESS_TOPO offline
                (render (Some geo) styleDistrictBase onEachDistrict 18) w1
                (keeps_render CONGRESS_TOPO
                   _ _ _ _ (fun _ _ _ _ => eq_refl) (fun _ _ => eq_refl))) as Htopo.
  fold w2 in Htopo.
  assert (Hview : view w2 = (selectedState w, Some geo, Some (base_layer w geo))).
  { unfold view. rewrite Hlayer.
    injection Hkeep as -> ->. reflexivity. }
  destruct (keeps_advance view
              (do metrics <- await (loadMetrics stateCode); showMetrics metrics) w2
              (keeps_metrics_part view stateCode
                 (fun _ _ => eq_refl) (fun _ _ => eq_refl) (fun _ _ => eq_refl)))
    as [Hw Hk].
  destruct (keeps_advance CONGRESS_TOPO
              (do metrics <- await (loadMetrics stateCode); showMetrics metrics) w2
              (keeps_metrics_part CONGRESS_TOPO stateCode
                 (fun _ _ => eq_refl) (fun _ _ => eq_refl) (fun _ _ => eq_refl)))
    as [Ht _].
  destruct (advance (do metrics <- await (loadMetrics stateCode); showMetrics metrics) w2)
    as [w3 st]. simpl in Hw, Hk, Ht.
  exists w3, st. split; [reflexivity|]. split; [now rewrite Hw|].
  split; [exact Hk | now rewrite Ht, Htopo].
Qed.

(** The first turn of [refreshState]: the code is selected, and no later
    turn of the call writes [selectedState]. *)
Lemma refreshState_selects (stateCode : string) (w : World) :
  selectedState (advance (refreshState stateCode) w).1 = Some stateCode
  /\ status_keeps selectedState (advance (refreshState stateCode) w).2.
Proof.
  pose proof (keeps_advance selectedState _ (with_selectedState (Some stateCode) w)
                (keeps_selected_after_select stateCode)) as [Hw Hk].
  change (advance _ (with_selectedState (Some stateCode) w))
    with (advance (refreshState stateCode) w) in Hw, Hk.
  destruct (advance (refreshState stateCode) w) as [w' st].
  split; [exact Hw | exact Hk].
Qed.

(** The first turn of [refreshState] when the topology is not cached: the
    request for it is pending. *)
Lemma refreshState_fetching (stateCode fips : string) (topo : Topology)
    (districts : list Feature) (w : World) :
  obj_get STATE_FIPS stateCode = Some fips ->
  CONGRESS_TOPO w = None ->
  select_object topo = Some districts ->
  exists st,
    advance (refreshState stateCode) w = (with_selectedState (Some stateCode) w, st)
    /\ fetching fips topo districts st.
Proof.
  intros Hcode Htopo Hsel.
  destruct (fips_shape _ _ Hcode) as [Hne _].
  assert (Ht : truthy_prim (PStr fips) = true).
  { simpl. apply negb_true_iff, String.eqb_neq. exact Hne. }
  unfold refreshState, loadStateDistricts, load_districts, filter_districts,
    await, modify.
  rewrite Hcode, Ht. cbn [negb bind advance]. cbv beta.
  change (CONGRESS_TOPO (with_selectedState (Some stateCode) w)) with (CONGRESS_TOPO w).
  rewrite Htopo. cbn [bind advance].
  eexists. split; [reflexivity|].
  eexists. split; [reflexivity|].
  intros w1. cbv beta. cbn [ok json bind advance].
  eexists. split; [reflexivity|].
  eexists. split; [reflexivity|].
  intros w2. unfold modify. cbn [bind advance]. cbv beta.
  change (CONGRESS_TOPO (with_topo (Some topo) w2)) with (Some topo).
  cbv iota. rewrite Hsel. cbn [bind].
  destruct (advance_drawn stateCode (districts_of fips districts)
              (with_topo (Some topo) w2)) as (w' & st' & Ha & Hv & Hk & _).
  exists w', st'. split; [exact Ha|]. split; [exact Hv | exact Hk].
Qed.

(** The first turn of [refreshState] when the topology is cached: the
    districts of the state are drawn before the call waits for anything,
    and no later turn of the call writes the view. *)
Lemma refreshState_warm (stateCode fips : string) (topo : Topology)
    (districts : list Feature) (w : World) :
  obj_get STATE_FIPS stateCode = Some fips ->
  CONGRESS_TOPO w = Some topo ->
  select_object topo = Some districts ->
  exists w' st,
    advance (refreshState stateCode) w = (w', st)
    /\ view w'
       = (Some stateCode, Some (districts_of fips districts),
          Some (base_layer w (districts_of fips districts)))
    /\ status_keeps view st
    /\ CONGRESS_TOPO w' = Some topo.
Proof.
  intros Hcode Htopo Hsel.
  destruct (fips_shape _ _ Hcode) as [Hne _].
  assert (Ht : truthy_prim (PStr fips) = true).
  { simpl. apply negb_true_iff, String.eqb_neq. exact Hne. }
  unfold refreshState, loadStateDistricts, load_districts, filter_districts,
    await, modify.
  rewrite Hcode, Ht. cbn [negb bind advance]. cbv beta.
  change (CONGRESS_TOPO (with_selectedState (Some stateCode) w)) with (CONGRESS_TOPO w).
  rewrite Htopo. cbn [bind advance]. cbv beta.
  change (CONGRESS_TOPO (with_selectedState (Some stateCode) w)) with (CONGRESS_TOPO w).
  rewrite Htopo, Hsel. cbn [bind].
  destruct (advance_drawn stateCode (districts_of fips districts)
              (with_selectedState (Some stateCode) w)) as (w' & st' & Ha & Hv & Hk & Hc).
  exists w', st'. split; [exact Ha|]. split; [exact Hv|]. split; [exact Hk|].
  rewrite Hc. exact Htopo.
Qed.

Lemma step_deliver_at (s : System) (i : nat) (r : reply) (st st' : status unit)
    (p : async unit) (w' : World) :
  calls s !! i = Some st ->
  resume st r = Some p ->
  advance p (world s) = (w', st') ->
  step s (Deliver i r) = {| world := w'; calls := <[i := st']> (calls s) |}.
Proof. intros Hi Hr Ha. simpl. now rewrite Hi, Hr, Ha. Qed.

Lemma step_select_at (s : System) (stateCode : string) (w' : World) (st : status unit) :
  advance (refreshState stateCode) (world s) = (w', st) ->
  step s (Select stateCode) = {| world := w'; calls := (calls s ++ [st])%list |}.
Proof. intros H. cbn [step]. unfold start. now rewrite H. Qed.

Lemma run_app (evs evs' : list event) (s : System) :
  run (evs ++ evs') s = run evs' (run evs s).
Proof. unfold run. apply fold_left_app. Qed.

(** A completion for a call that writes [proj] no more leaves [proj] as it
    is, whatever it delivers. *)
Lemma step_keeps_at {C : Type} (proj : World -> C) (s : System) (i : nat)
    (r : reply) (st : status unit) :
  calls s !! i = Some st ->
  status_keeps proj st ->
  exists w' st',
    step s (Deliver i r) = {| world := w'; calls := <[i := st']> (calls s) |}
    /\ proj w' = proj (world s)
    /\ status_keeps proj st'.
Proof.
  intros Hi Hst. cbn [step]. rewrite Hi.
  destruct (resume st r) as [p|] eqn:Hr.
  - assert (Hp : keeps proj p).
    { destruct st, r; simpl in Hr; try discriminate;
        injection Hr as <-; simpl in Hst; auto. }
    destruct (keeps_advance proj p (world s) Hp) as [Hw Hk].
    destruct (advance p (world s)) as [w' st']. simpl in *.
    exists w', st'. auto.
  - exists (world s), st. rewrite (list_insert_id _ _ _ Hi).
    destruct s. auto.
Qed.

(** The next completion of the district load of call [i] takes it to its
    next stage; the second one draws its districts.  The selected code and
    the other calls are as before. *)
Lemma stage_step (s : System) (i n : nat) (fips : string) (topo : Topology)
    (districts : list Feature) (st : status unit) (e : event) :
  calls s !! i = Some st ->
  stage fips topo districts n st ->
  geometry_phase i topo !! n = Some e ->
  exists w' st',
    step s e = {| world := w'; calls := <[i := st']> (calls s) |}
    /\ stage fips topo districts (S n) st'
    /\ (n = 0 -> shown_districts w' = shown_districts (world s))
    /\ (n = 1 ->
        shown_districts w'
        = (Some (districts_of fips districts),
           Some (features (districts_of fips districts)))).
Proof.
  intros Hi Hst He. destruct n as [|[|n]]; simpl in He; try discriminate;
    injection He as <-; simpl in Hst.
  - destruct Hst as (k & -> & Hk). destruct (Hk (world s)) as (st' & Ha & Hp).
    exists (world s), st'.
    split; [eapply step_deliver_at; [exact Hi | reflexivity | exact Ha]|].
    split; [exact Hp|]. split; [reflexivity | discriminate].
  - destruct Hst as (k & -> & Hk).
    destruct (Hk (world s)) as (w' & st' & Ha & Hv & Hp).
    exists w', st'.
    split; [eapply step_deliver_at; [exact Hi | reflexivity | exact Ha]|].
    split; [exact Hp|]. unfold view in Hv. injection Hv as Hs Hg Hl.
    split; [discriminate|]. intros _. unfold shown_districts. now rewrite Hg, Hl.
Qed.

Lemma last_loaded_later {X : Type} (k0 k1 : option nat) (of0 of1 before : X) :
  last_loaded (S <$> k0) (S <$> k1) of0 of1 before
  = last_loaded k0 k1 of0 of1 before.
Proof. destruct k0, k1; reflexivity. Qed.

Lemma view_shown (w w' : World) :
  view w' = view w -> shown_districts w' = shown_districts w.
Proof. unfold view, shown_districts. now intros [= _ -> ->]. Qed.

Lemma later_if (b : bool) (k : option nat) :
  (if b then S <$> k else None) = S <$> (if b then k else None).
Proof. now destruct b. Qed.

(** Two calls whose district loads are under way, their completions and
    any later ones in any order: the districts that are drawn in the end
    are those of the call whose district load ends last, and those drawn
    before if neither load ends. *)
Lemma interleaved_loads (topo : Topology) (districts : list Feature)
    (fips0 fips1 : string) (m : list event) :
  forall (n0 n1 : nat) (s : System) (st0 st1 : status unit),
    calls s = [st0; st1] ->
    stage fips0 topo districts n0 st0 ->
    stage fips1 topo districts n1 st1 ->
    Forall is_delivery m ->
    take (2 - n0) (deliveries_to 0 m)
    = take (length (deliveries_to 0 m)) (drop n0 (geometry_phase 0 topo)) ->
    take (2 - n1) (deliveries_to 1 m)
    = take (length (deliveries_to 1 m)) (drop n1 (geometry_phase 1 topo)) ->
    shown_districts (world (run m s))
    = last_loaded
        (if Nat.ltb n0 2 then nth_delivery 0 (1 - n0) m else None)
        (if Nat.ltb n1 2 then nth_delivery 1 (1 - n1) m else None)
        (Some (districts_of fips0 districts),
         Some (features (districts_of fips0 districts)))
        (Some (districts_of fips1 districts),
         Some (features (districts_of fips1 districts)))
        (shown_districts (world s)).
Proof.
  induction m as [|e m IH]; intros n0 n1 s st0 st1 Hcalls H0 H1 Hm F0 F1.
  - cbn [nth_delivery]. destruct (Nat.ltb n0 2), (Nat.ltb n1 2); reflexivity.
  - inversion Hm as [|? ? He Hm']; subst.
    destruct e as [| |i r]; simpl in He; try contradiction. clear He.
    unfold run. cbn [fold_left]. fold (run m (step s (Deliver i r))).
    destruct i as [|[|i]].
    + (* a completion for the first call *)
      change (deliveries_to 0 (Deliver 0 r :: m))
        with (Deliver 0 r :: deliveries_to 0 m) in F0.
      change (deliveries_to 1 (Deliver 0 r :: m)) with (deliveries_to 1 m) in F1.
      change (nth_delivery 1 (1 - n1) (Deliver 0 r :: m))
        with (S <$> nth_delivery 1 (1 - n1) m).
      rewrite later_if.
      destruct n0 as [|[|n0]].
      * cbn in F0. injection F0 as -> F0.
        destruct (stage_step s 0 0 fips0 topo districts st0 _
                    ltac:(now rewrite Hcalls) H0 eq_refl)
          as (w' & st0' & Hstep & Hst & Hsame & _).
        rewrite Hstep, Hcalls. cbn [list_insert insert].
        rewrite (IH 1 n1 {| world := w'; calls := [st0'; st1] |} st0' st1
                   eq_refl Hst H1 Hm' F0 F1).
        set (k := if Nat.ltb n1 2 then nth_delivery 1 (1 - n1) m else None).
        cbn [world Nat.ltb Nat.leb Nat.sub nth_delivery delivers_to Nat.eqb].
        rewrite (Hsame eq_refl). apply eq_sym, last_loaded_later.
      * cbn in F0. injection F0 as -> _.
        destruct (stage_step s 0 1 fips0 topo districts st0 _
                    ltac:(now rewrite Hcalls) H0 eq_refl)
          as (w' & st0' & Hstep & Hst & _ & Hdrawn).
        rewrite Hstep, Hcalls. cbn [list_insert insert].
        rewrite (IH 2 n1 {| world := w'; calls := [st0'; st1] |} st0' st1
                   eq_refl Hst H1 Hm');
          [|cbn; now rewrite take_nil | exact F1].
        set (k := if Nat.ltb n1 2 then nth_delivery 1 (1 - n1) m else None).
        cbn [world Nat.ltb Nat.leb Nat.sub nth_delivery delivers_to Nat.eqb].
        rewrite (Hdrawn eq_refl). destruct k; reflexivity.
      * destruct (step_keeps_at view s 0 r st0 ltac:(now rewrite Hcalls) H0)
          as (w' & st0' & Hstep & Hview & Hst).
        rewrite Hstep, Hcalls. cbn [list_insert insert].
        rewrite (IH (S (S n0)) n1 {| world := w'; calls := [st0'; st1] |} st0' st1
                   eq_refl Hst H1 Hm');
          [|cbn; rewrite drop_nil; now rewrite take_nil | exact F1].
        set (k := if Nat.ltb n1 2 then nth_delivery 1 (1 - n1) m else None).
        cbn [world Nat.ltb Nat.leb].
        rewrite (view_shown _ _ Hview). destruct k; reflexivity.
    + (* a completion for the second call *)
      change (deliveries_to 1 (Deliver 1 r :: m))
        with (Deliver 1 r :: deliveries_to 1 m) in F1.
      change (deliveries_to 0 (Deliver 1 r :: m)) with (deliveries_to 0 m) in F0.
      change (nth_delivery 0 (1 - n0) (Deliver 1 r :: m))
        with (S <$> nth_delivery 0 (1 - n0) m).
      rewrite later_if.
      destruct n1 as [|[|n1]].
      * cbn in F1. injection F1 as -> F1.
        destruct (stage_step s 1 0 fips1 topo districts st1 _
                    ltac:(now rewrite Hcalls) H1 eq_refl)
          as (w' & st1' & Hstep & Hst & Hsame & _).
        rewrite Hstep, Hcalls. cbn [list_insert insert].
        rewrite (IH n0 1 {| world := w'; calls := [st0; st1'] |} st0 st1'
                   eq_refl H0 Hst Hm' F0 F1).
        set (k := if Nat.ltb n0 2 then nth_delivery 0 (1 - n0) m else None).
        cbn [world Nat.ltb Nat.leb Nat.sub nth_delivery delivers_to Nat.eqb].
        rewrite (Hsame eq_refl). apply eq_sym, last_loaded_later.
      * cbn in F1. injection F1 as -> _.
        destruct (stage_step s 1 1 fips1 topo districts st1 _
                    ltac:(now rewrite Hcalls) H1 eq_refl)
          as (w' & st1' & Hstep & Hst & _ & Hdrawn).
        rewrite Hstep, Hcalls. cbn [list_insert insert].
        rewrite (IH n0 2 {| world := w'; calls := [st0; st1'] |} st0 st1'
                   eq_refl H0 Hst Hm');
          [|exact F0 | cbn; now rewrite take_nil].
        set (k := if Nat.ltb n0 2 then nth_delivery 0 (1 - n0) m else None).
        cbn [world Nat.ltb Nat.leb Nat.sub nth_delivery delivers_to Nat.eqb].
        rewrite (Hdrawn eq_refl). destruct k; reflexivity.
      * destruct (step_keeps_at view s 1 r st1 ltac:(now rewrite Hcalls) H1)
          as (w' & st1' & Hstep & Hview & Hst).
        rewrite Hstep, Hcalls. cbn [list_insert insert].
        rewrite (IH n0 (S (S n1)) {| world := w'; calls := [st0; st1'] |} st0 st1'
                   eq_refl H0 Hst Hm');
          [|exact F0 | cbn; rewrite drop_nil; now rewrite take_nil].
        set (k := if Nat.ltb n0 2 then nth_delivery 0 (1 - n0) m else None).
        cbn [world Nat.ltb Nat.leb].
        rewrite (view_shown _ _ Hview). destruct k; reflexivity.
    + (* no such call *)
      change (deliveries_to 0 (Deliver (S (S i)) r :: m))
        with (deliveries_to 0 m) in F0.
      change (deliveries_to 1 (Deliver (S (S i)) r :: m))
        with (deliveries_to 1 m) in F1.
      change (nth_delivery 0 (1 - n0) (Deliver (S (S i)) r :: m))
        with (S <$> nth_delivery 0 (1 - n0) m).
      change (nth_delivery 1 (1 - n1) (Deliver (S (S i)) r :: m))
        with (S <$> nth_delivery 1 (1 - n1) m).
      rewrite !later_if, last_loaded_later.
      assert (Hstep : step s (Deliver (S (S i)) r) = s).
      { cbn [step]. now rewrite Hcalls. }
      rewrite Hstep. now apply (IH n0 n1 s st0 st1).
Qed.

(** C1, amended.  [refreshState] has no guard against a superseded
    request.  When a second state is selected before a request of the first
    selection is answered, [selectedState] is the newer code from then on,
    whatever completes in whatever order.  When the topology was cached,
    each selection draws its districts before it waits for anything, so the
    districts that stay drawn are those of the newer state, as the claim
    says.  When the topology was not cached, both calls request it, and the
    districts that stay drawn are those of the call whose district load
    ends last, in every order of the completions: those of the newer state
    when its load ends last, those of the older, superseded state when that
    one ends last. *)
Theorem refreshState_last_load_wins (w0 : World)
    (older newer fips_older fips_newer : string)
    (topo : Topology) (districts : list Feature) (m : list event) :
  obj_get STATE_FIPS older = Some fips_older ->
  obj_get STATE_FIPS newer = Some fips_newer ->
  select_object topo = Some districts ->
  Forall is_delivery m ->
  let s := run ([Select older; Select newer] ++ m) (page w0) in
  let of_older :=
    (Some (districts_of fips_older districts),
     Some (features (districts_of fips_older districts))) in
  let of_newer :=
    (Some (districts_of fips_newer districts),
     Some (features (districts_of fips_newer districts))) in
  selectedState (world s) = Some newer
  /\ (CONGRESS_TOPO w0 = Some topo -> shown_districts (world s) = of_newer)
  /\ (CONGRESS_TOPO w0 = None ->
      loads_first 0 topo m -> loads_first 1 topo m ->
      shown_districts (world s)
      = match loaded_at 0 m, loaded_at 1 m with
        | Some k0, Some k1 => if Nat.ltb k0 k1 then of_newer else of_older
        | Some _, None => of_older
        | None, Some _ => of_newer
        | None, None => shown_districts w0
        end).
Proof.
  intros Ho Hn Hsel Hm s of_older of_newer.
  pose proof (refreshState_selects older w0) as [_ Ko].
  destruct (advance (refreshState older) w0) as [w1 sto] eqn:Hao.
  pose proof (refreshState_selects newer w1) as [Sn Kn].
  destruct (advance (refreshState newer) w1) as [w2 stn] eqn:Han.
  cbn [fst snd] in Ko, Sn, Kn.
  set (s2 := {| world := w2; calls := [sto; stn] |}).
  assert (Hs2 : run [Select older; Select newer] (page w0) = s2).
  { unfold run. cbn [fold_left].
    rewrite (step_select_at (page w0) older w1 sto Hao).
    unfold page. cbn [calls world app].
    now rewrite (step_select_at {| world := w1; calls := [sto] |} newer w2 stn Han). }
  assert (Hs : s = run m s2) by (unfold s; now rewrite run_app, Hs2).
  rewrite Hs. clear Hs s. split; [|split].
  - assert (Hall : Forall (status_keeps selectedState) (calls s2))
      by (repeat constructor; assumption).
    destruct (run_deliveries_keep selectedState m s2 Hm Hall) as [Hw _].
    now rewrite Hw.
  - intros Htopo.
    destruct (refreshState_warm older fips_older topo districts w0 Ho Htopo Hsel)
      as (w1' & sto' & Hao' & _ & Vo & Htopo1).
    rewrite Hao in Hao'. injection Hao' as <- <-.
    destruct (refreshState_warm newer fips_newer topo districts w1 Hn Htopo1 Hsel)
      as (w2' & stn' & Han' & Hview & Vn & _).
    rewrite Han in Han'. injection Han' as <- <-.
    assert (Hall : Forall (status_keeps view) (calls s2))
      by (repeat constructor; assumption).
    destruct (run_deliveries_keep view m s2 Hm Hall) as [Hw _].
    cbn [world s2] in Hw. rewrite Hview in Hw.
    unfold view in Hw. injection Hw as _ Hg Hl.
    unfold shown_districts. now rewrite Hg, Hl.
  - intros Htopo L0 L1.
    destruct (refreshState_fetching older fips_older topo districts w0 Ho Htopo Hsel)
      as (sto' & Hao' & Fo).
    rewrite Hao in Hao'. injection Hao' as -> <-.
    destruct (refreshState_fetching newer fips_newer topo districts
                (with_selectedState (Some older) w0) Hn Htopo Hsel)
      as (stn' & Han' & Fn).
    rewrite Han in Han'. injection Han' as -> <-.
    exact (interleaved_loads topo districts fips_older fips_newer m 0 0 s2 sto stn
             eq_refl Fo Fn Hm L0 L1).
Qed.

Lemma refreshState_last_load_wins_witness :
  let s := run ([Select "WY"; Select "CA"] ++ stale_completions) (page initial_world) in
  selectedState (world s) = Some "CA"
  /\ shown_districts (world s)
     = (Some (districts_of "56" (wy_district :: ca_districts)),
        Some (features (districts_of "56" (wy_district :: ca_districts)))).
Proof.
  destruct (refreshState_last_load_wins initial_world "WY" "CA" "56" "06" two_states
              (wy_district :: ca_districts) stale_completions)
    as (H1 & _ & H2);
    [reflexivity | reflexivity | reflexivity | repeat constructor |].
  split; [exact H1|]. apply H2; reflexivity.
Defined.

(** * Properties of the rest of the code *)

(** ** Loading the districts *)

Lemma then_run_return {A : Type} (net : Network) (r : Run A) :
  then_run net r (fun x => Tick (Return x)) = r.
Proof.
  unfold then_run. destruct r as [w reqs [a|e]]; simpl; [|reflexivity].
  now rewrite app_nil_r.
Qed.

Lemma run_await {A : Type} (net : Network) (p : async A) (w : World) :
  run_seq net (await p) w = run_seq net p w.
Proof. reflexivity. Qed.

Lemma fips_truthy (code fips : string) :
  obj_get STATE_FIPS code = Some fips -> truthy_prim (PStr fips) = true.
Proof.
  intros H. destruct (fips_shape _ _ H) as [Hne _].
  simpl. now apply negb_true_iff, String.eqb_neq.
Qed.

(** The run of the statements of the district loader after its guard when
    the topology is cached or its request succeeds. *)
Lemma filter_districts_run (net : Network) (w : World) (keep : Feature -> bool)
    (topo : Topology) :
  topology_of net w = Some topo ->
  run_seq net (filter_districts keep) w
  = {| final := match CONGRESS_TOPO w with
                | Some _ => w
                | None => with_topo (Some topo) w
                end;
       fetched := match CONGRESS_TOPO w with
                  | Some _ => []
                  | None => [US_ATLAS_CONGRESS]
                  end;
       settled := match select_object topo with
                  | Some districts =>
                      Returned {| features := List.filter keep districts |}
                  | None => Thrown TypeError
                  end |}.
Proof.
  intros Htopo. unfold filter_districts. simpl. unfold topology_of in Htopo.
  destruct (CONGRESS_TOPO w) as [t|] eqn:Hw; simpl.
  - rewrite Hw. injection Htopo as ->. now destruct (select_object topo).
  - destruct (atlas_cdn net US_ATLAS_CONGRESS) as [resp|]; [|discriminate].
    simpl. destruct (ok resp); [|discriminate]. simpl.
    rewrite Htopo. simpl. now destruct (select_object topo).
Qed.

(** The run of the district loader for a code of the table when the
    topology is cached or its request succeeds. *)
Lemma loadStateDistricts_run (net : Network) (w : World) (stateCode fips : string)
    (topo : Topology) :
  obj_get STATE_FIPS stateCode = Some fips ->
  topology_of net w = Some topo ->
  run_seq net (loadStateDistricts stateCode) w
  = {| final := match CONGRESS_TOPO w with
                | Some _ => w
                | None => with_topo (Some topo) w
                end;
       fetched := match CONGRESS_TOPO w with
                  | Some _ => []
                  | None => [US_ATLAS_CONGRESS]
                  end;
       settled := match select_object topo with
                  | Some districts => Returned (districts_of fips districts)
                  | None => Thrown TypeError
                  end |}.
Proof.
  intros Hcode Htopo. unfold loadStateDistricts, load_districts.
  rewrite Hcode, (fips_truthy _ _ Hcode). cbn [negb].
  exact (filter_districts_run net w _ topo Htopo).
Qed.

(** The run of [refreshState] up to the end of its district load. *)
Lemma refreshState_run (net : Network) (stateCode : string) (w : World) :
  run_seq net (refreshState stateCode) w
  = then_run net (run_seq net (loadStateDistricts stateCode)
                    (with_selectedState (Some stateCode) w))
      (fun geo =>
         do _ <- modify (with_currentGeo (Some geo));
         do _ <- Read (fun w0 => renderDistricts (currentGeo w0) styleDistrictBase);
         do metrics <- await (loadMetrics stateCode);
         showMetrics metrics).
Proof.
  unfold refreshState, modify. cbn [bind run_seq].
  now rewrite run_seq_bind, run_await.
Qed.

Lemma filter_none {A : Type} (l : list A) : List.filter (fun _ => false) l = [].
Proof. induction l as [|a l IH]; [reflexivity | exact IH]. Qed.

(** X1.  Selecting a code that is not in the table and names no member
    of [Object.prototype]: [refreshState] throws [Unknown state: code]
    without any request; [selectedState] already holds the unknown code,
    every other global (the districts drawn, the viewport, the caches, the
    sidebar) is as before.  For a name of [Object.prototype] the guard of
    the district loader lets the call pass: with the topology at hand the
    loader returns the empty collection. *)
Theorem refreshState_unknown_state (net : Network) (stateCode : string) (w : World) :
  obj_get STATE_FIPS stateCode = None ->
  (inherited stateCode = false ->
   run_seq net (refreshState stateCode) w
   = {| final := with_selectedState (Some stateCode) w;
        fetched := [];
        settled := Thrown (Error ("Unknown state: " +:+ stateCode)) |}
   /\ advance (refreshState stateCode) w
      = (with_selectedState (Some stateCode) w,
         Crashed (Error ("Unknown state: " +:+ stateCode))))
  /\ (inherited stateCode = true ->
      forall topo districts,
        topology_of net w = Some topo ->
        select_object topo = Some districts ->
        settled (run_seq net (loadStateDistricts stateCode) w)
        = Returned {| features := [] |}).
Proof.
  intros Hcode. split.
  - intros Hown. split.
    + rewrite refreshState_run. unfold loadStateDistricts, load_districts.
      now rewrite Hcode, Hown.
    + unfold refreshState, loadStateDistricts, load_districts, await, modify.
      now rewrite Hcode, Hown.
  - intros Hinh topo districts Htopo Hsel.
    unfold loadStateDistricts, load_districts. rewrite Hcode, Hinh.
    rewrite (filter_districts_run net w _ topo Htopo), Hsel. cbn [settled].
    f_equal. f_equal. apply filter_none.
Qed.

Lemma refreshState_unknown_state_witness :
  settled (run_seq offline (refreshState "ZZ") initial_world)
  = Thrown (Error "Unknown state: ZZ").
Proof.
  destruct (refreshState_unknown_state offline "ZZ" initial_world) as [H _];
    [reflexivity|].
  destruct (H eq_refl) as [Hrun _]. now rewrite Hrun.
Defined.

(** X2.  When the topology is not cached and its request fails,
    [refreshState] throws after the one request: a network error when the
    [fetch] rejects, [Failed to load congress topojson] when the response is
    not [ok], a syntax error when the body does not parse.  Nothing is
    cached, so that a later selection requests the document again;
    [selectedState] holds the new code while everything drawn is as
    before. *)
Theorem refreshState_topology_fails (net : Network) (stateCode fips : string)
    (w : World) (e : exn) :
  obj_get STATE_FIPS stateCode = Some fips ->
  CONGRESS_TOPO w = None ->
  topology_error (atlas_cdn net US_ATLAS_CONGRESS) = Some e ->
  run_seq net (refreshState stateCode) w
  = {| final := with_selectedState (Some stateCode) w;
       fetched := [US_ATLAS_CONGRESS];
       settled := Thrown e |}
  /\ CONGRESS_TOPO (with_selectedState (Some stateCode) w) = None.
Proof.
  intros Hcode Hw Herr. split; [|exact Hw].
  rewrite refreshState_run. unfold loadStateDistricts, load_districts.
  rewrite Hcode, (fips_truthy _ _ Hcode). simpl. rewrite Hw. simpl.
  unfold topology_error in Herr.
  destruct (atlas_cdn net US_ATLAS_CONGRESS) as [resp|]; simpl.
  - destruct (ok resp); simpl.
    + destruct (json resp); [discriminate|]. simpl. now injection Herr as <-.
    + now injection Herr as <-.
  - now injection Herr as <-.
Qed.

Lemma refreshState_topology_fails_witness :
  settled (run_seq bad_gateway (refreshState "CA") initial_world)
  = Thrown (Error "Failed to load congress topojson").
Proof.
  destruct (refreshState_topology_fails bad_gateway "CA" "06" initial_world
              (Error "Failed to load congress topojson")) as [H _];
    [reflexivity | reflexivity | reflexivity | now rewrite H].
Defined.

(** X3.  The topology is requested at most once.  After one successful
    district load, a load for any code of the table sends no request,
    whatever the network does by then, and filters the same document. *)
Theorem topology_fetched_once (net net' : Network) (w : World)
    (code1 code2 fips1 fips2 : string) (topo : Topology) (districts : list Feature) :
  obj_get STATE_FIPS code1 = Some fips1 ->
  obj_get STATE_FIPS code2 = Some fips2 ->
  topology_of net w = Some topo ->
  select_object topo = Some districts ->
  let r1 := run_seq net (loadStateDistricts code1) w in
  let r2 := run_seq net' (loadStateDistricts code2) (final r1) in
  settled r1 = Returned (districts_of fips1 districts)
  /\ settled r2 = Returned (districts_of fips2 districts)
  /\ fetched r2 = []
  /\ length (fetched r1 ++ fetched r2) <= 1
  /\ final r2 = final r1.
Proof.
  intros H1 H2 Htopo Hsel r1 r2.
  assert (Hr1 := loadStateDistricts_run net w code1 fips1 topo H1 Htopo).
  fold r1 in Hr1.
  assert (Hcached : exists t, CONGRESS_TOPO (final r1) = Some t /\ t = topo).
  { rewrite Hr1. simpl. unfold topology_of in Htopo.
    destruct (CONGRESS_TOPO w) as [t|] eqn:Hw.
    - exists t. split; [exact Hw | congruence].
    - exists topo. auto. }
  destruct Hcached as (t & Hc & ->).
  assert (Htopo2 : topology_of net' (final r1) = Some topo).
  { unfold topology_of. now rewrite Hc. }
  assert (Hr2 := loadStateDistricts_run net' (final r1) code2 fips2 topo H2 Htopo2).
  fold r2 in Hr2. rewrite Hc in Hr2.
  rewrite Hr2, Hr1, Hsel. simpl.
  repeat split; try reflexivity.
  rewrite app_nil_r. destruct (CONGRESS_TOPO w); simpl; lia.
Qed.

Lemma topology_fetched_once_witness :
  let r1 := run_seq (atlas two_states) (loadStateDistricts "WY") initial_world in
  let r2 := run_seq offline (loadStateDistricts "CA") (final r1) in
  settled r2 = Returned {| features := ca_districts |} /\ fetched r2 = [].
Proof.
  destruct (topology_fetched_once (atlas two_states) offline initial_world
              "WY" "CA" "56" "06" two_states (wy_district :: ca_districts))
    as (_ & H2 & H3 & _); [reflexivity..|].
  split; [exact H2 | exact H3].
Defined.



Lemma fips_injective (code1 code2 fips : string) :
  obj_get STATE_FIPS code1 = Some fips ->
  obj_get STATE_FIPS code2 = Some fips ->
  code1 = code2.
Proof.
  intros H1 H2.
  pose proof (table_forall (fun k v => option_string_eqb (obj_get FIPS_STATE v) k)
                STATE_FIPS eq_refl code1 fips H1) as E1.
  pose proof (table_forall (fun k v => option_string_eqb (obj_get FIPS_STATE v) k)
                STATE_FIPS eq_refl code2 fips H2) as E2.
  apply option_string_eqb_eq in E1, E2. congruence.
Qed.

(** X5.  The district collections of two states never share a feature: a
    feature returned for one code of the table is returned for no other
    code.  Every collection lists features of the document in the order of
    the document. *)
Theorem districts_partition (net : Network) (w : World)
    (code1 code2 fips1 fips2 : string) (topo : Topology) (districts : list Feature)
    (fc1 fc2 : FeatureCollection) (f : Feature) :
  obj_get STATE_FIPS code1 = Some fips1 ->
  obj_get STATE_FIPS code2 = Some fips2 ->
  topology_of net w = Some topo ->
  select_object topo = Some districts ->
  settled (run_seq net (loadStateDistricts code1) w) = Returned fc1 ->
  settled (run_seq net (loadStateDistricts code2) w) = Returned fc2 ->
  In f (features fc1) ->
  (In f (features fc2) -> code1 = code2)
  /\ sublist (features fc1) districts.
Proof.
  intros H1 H2 Htopo Hsel R1 R2 Hf.
  rewrite (loadStateDistricts_run net w code1 fips1 topo H1 Htopo), Hsel in R1.
  rewrite (loadStateDistricts_run net w code2 fips2 topo H2 Htopo), Hsel in R2.
  simpl in R1, R2. injection R1 as <-. injection R2 as <-.
  cbn [features districts_of] in Hf |- *. split.
  - intros Hf2. apply filter_In in Hf as [_ E1]. apply filter_In in Hf2 as [_ E2].
    apply String.eqb_eq in E1, E2. apply (fips_injective code1 code2 fips1 H1).
    congruence.
  - clear. induction districts as [|d ds IH]; simpl; [constructor|].
    destruct (String.eqb (state_of d) fips1); now constructor.
Qed.

Lemma districts_partition_witness :
  (In wy_district ca_districts -> "WY" = "CA")
  /\ sublist [wy_district] (wy_district :: ca_districts).
Proof.
  apply (districts_partition (atlas two_states) initial_world "WY" "CA" "56" "06"
           two_states (wy_district :: ca_districts)
           {| features := [wy_district] |} {| features := ca_districts |} wy_district);
    try reflexivity.
  now left.
Defined.

(** ** Selecting a state *)

Lemma show_run (net : Network) (m : ref) (w : World) :
  displayable (deref w m) = true ->
  run_seq net (showMetrics m) w = done_at (with_sidebar (displayed (deref w m)) w) tt.
Proof.
  unfold displayable, showMetrics, show, displayed. intros H. cbn [run_seq].
  destruct (vor (opt_prop (deref w m) "classification") (VPrim (PStr "unknown")))
    as [[| | | |c]| |]; try discriminate.
  cbn [run_seq]. rewrite H. reflexivity.
Qed.

Lemma show_throws (net : Network) (paint : bool) (m : ref) (w : World) :
  displayable (deref w m) = false ->
  settled (run_seq net (show paint m) w) = Thrown TypeError.
Proof.
  unfold displayable, show. intros H. cbn [run_seq].
  destruct (vor (opt_prop (deref w m) "classification") (VPrim (PStr "unknown")))
    as [[| | | |c]| |]; try reflexivity.
  cbn [run_seq]. rewrite H. reflexivity.
Qed.

Lemma loadMetrics_fallback_run (net : Network) (stateCode : string) (w : World) :
  truthy_ref (cache_get w stateCode) = false ->
  fetch_failed (metrics_api net (metrics_url stateCode)) = true ->
  run_seq net (loadMetrics stateCode) w
  = {| final := with_fallback stateCode w;
       fetched := [metrics_url stateCode];
       settled := Returned (RObj (length (heap w))) |}.
Proof.
  intros Hmiss Hfail. unfold loadMetrics, with_fallback. simpl. rewrite Hmiss. simpl.
  destruct (metrics_api net (metrics_url stateCode)) as [resp|]; simpl in *.
  - destruct (ok resp); [discriminate|]. simpl. now rewrite cache_get_set.
  - now rewrite cache_get_set.
Qed.

Lemma with_topo_same (topo : Topology) (w : World) :
  CONGRESS_TOPO w = Some topo -> with_topo (Some topo) w = w.
Proof. destruct w. simpl. now intros ->. Qed.

(** The first half of a successful [refreshState]: the districts are
    loaded and drawn; the metrics are still to come. *)
Lemma refreshState_drawn (net : Network) (w : World) (stateCode fips : string)
    (topo : Topology) (districts : list Feature) :
  obj_get STATE_FIPS stateCode = Some fips ->
  topology_of net w = Some topo ->
  select_object topo = Some districts ->
  let geo := districts_of fips districts in
  exists wr,
    run_seq net (refreshState stateCode) w
    = then_run net
        {| final := wr;
           fetched := match CONGRESS_TOPO w with
                      | Some _ => []
                      | None => [US_ATLAS_CONGRESS]
                      end;
           settled := Returned tt |}
        (fun _ => do metrics <- await (loadMetrics stateCode); showMetrics metrics)
    /\ view wr = (Some stateCode, Some geo, Some (base_layer w geo))
    /\ map_layers wr = replaced w (base_layer w geo)
    /\ viewport wr = match getBounds (base_layer w geo) with
                     | Some b => Fitted b 18
                     | None => viewport w
                     end
    /\ CONGRESS_TOPO wr = Some topo
    /\ METRICS_CACHE wr = METRICS_CACHE w
    /\ heap wr = heap w
    /\ sidebar wr = sidebar w.
Proof.
  intros Hcode Htopo Hsel geo.
  set (w0 := with_selectedState (Some stateCode) w).
  assert (Htopo0 : topology_of net w0 = Some topo) by exact Htopo.
  set (w1 := match CONGRESS_TOPO w0 with
             | Some _ => w0
             | None => with_topo (Some topo) w0
             end).
  set (w2 := with_currentGeo (Some geo) w1).
  destruct (render_returns net w2 (Some geo) styleDistrictBase onEachDistrict 18)
    as (Hret & Hfetch & Hlayer & Hlayers & Hview & _).
  set (rr := run_seq net (render (Some geo) styleDistrictBase onEachDistrict 18) w2) in *.
  pose proof (keeps_run_seq
                (fun x => (selectedState x, currentGeo x, CONGRESS_TOPO x,
                           METRICS_CACHE x, heap x, sidebar x))
                net (render (Some geo) styleDistrictBase onEachDistrict 18) w2
                (keeps_render
                   (fun x => (selectedState x, currentGeo x, CONGRESS_TOPO x,
                              METRICS_CACHE x, heap x, sidebar x))
                   _ _ _ _ (fun _ _ _ _ => eq_refl) (fun _ _ => eq_refl)))
    as Hkeep.
  fold rr in Hkeep. cbv beta in Hkeep.
  assert (Hw1 : CONGRESS_TOPO w1 = Some topo
                /\ selectedState w1 = Some stateCode
                /\ METRICS_CACHE w1 = METRICS_CACHE w /\ heap w1 = heap w
                /\ sidebar w1 = sidebar w /\ geoLayer w1 = geoLayer w
                /\ map_layers w1 = map_layers w /\ viewport w1 = viewport w
                /\ layer_count w1 = layer_count w).
  { unfold w1, topology_of in *. change (CONGRESS_TOPO w0) with (CONGRESS_TOPO w) in *.
    destruct (CONGRESS_TOPO w) as [t|] eqn:Hw.
    - injection Htopo as ->. change (CONGRESS_TOPO w0) with (CONGRESS_TOPO w).
      rewrite Hw. repeat split; reflexivity.
    - repeat split; reflexivity. }
  destruct Hw1 as (T1 & T2 & T3 & T4 & T5 & T6 & T7 & T8 & T9).
  exists (final rr). split.
  - rewrite refreshState_run. fold w0.
    rewrite (loadStateDistricts_run net w0 stateCode fips topo Hcode Htopo0), Hsel.
    fold geo. fold w1. unfold then_run at 1. cbn [settled final fetched].
    unfold modify. cbn [bind run_seq]. fold w2.
    change (currentGeo w2) with (Some geo).
    rewrite run_seq_bind. unfold renderDistricts. fold rr.
    unfold then_run. rewrite Hret, Hfetch. cbn [settled final fetched app].
    change (CONGRESS_TOPO w0) with (CONGRESS_TOPO w).
    destruct (settled (run_seq net _ (final rr))); rewrite ?app_nil_r; reflexivity.
  - injection Hkeep as K1 K2 K3 K4 K5 K6.
    unfold view. rewrite K1, K2, Hlayer, Hlayers, Hview, K3, K4, K5, K6.
    unfold replaced, base_layer.
    change (geoLayer w2) with (geoLayer w1). change (map_layers w2) with (map_layers w1).
    change (layer_count w2) with (layer_count w1). change (viewport w2) with (viewport w1).
    change (selectedState w2) with (selectedState w1).
    change (CONGRESS_TOPO w2) with (CONGRESS_TOPO w1).
    change (METRICS_CACHE w2) with (METRICS_CACHE w1).
    change (heap w2) with (heap w1). change (sidebar w2) with (sidebar w1).
    rewrite T1, T2, T3, T4, T5, T6, T7, T8, T9. repeat split; reflexivity.
Qed.

(** X6.  Missing metrics never block the map.  For a code of the table
    whose topology is cached or can be fetched, when the metrics request
    fails, [refreshState] still returns: the districts of the state are
    drawn, and the sidebar shows [UNKNOWN] in the colour of [unknown] with
    the single note [No metrics]. *)
Theorem refreshState_without_metrics (net : Network) (w : World)
    (stateCode fips : string) (topo : Topology) (districts : list Feature) :
  obj_get STATE_FIPS stateCode = Some fips ->
  topology_of net w = Some topo ->
  select_object topo = Some districts ->
  truthy_ref (cache_get w stateCode) = false ->
  fetch_failed (metrics_api net (metrics_url stateCode)) = true ->
  let r := run_seq net (refreshState stateCode) w in
  settled r = Returned tt
  /\ selectedState (final r) = Some stateCode
  /\ shown_districts (final r)
     = (Some (districts_of fips districts),
        Some (features (districts_of fips districts)))
  /\ classification_text (sidebar (final r)) = "UNKNOWN"
  /\ classification_background (sidebar (final r)) = "#6b7280"
  /\ notes_items (sidebar (final r)) = [VPrim (PStr "No metrics")]
  /\ last (fetched r) = Some (metrics_url stateCode).
Proof.
  intros Hcode Htopo Hsel Hmiss Hfail r.
  destruct (refreshState_drawn net w stateCode fips topo districts Hcode Htopo Hsel)
    as (wr & Hrun & Hview & _ & _ & _ & Hcache & Hheap & _).
  assert (Hmiss' : truthy_ref (cache_get wr stateCode) = false).
  { unfold cache_get in *. now rewrite Hcache. }
  assert (Hd : deref (with_fallback stateCode wr) (RObj (length (heap wr))) = no_metrics).
  { unfold with_fallback.
    change (deref (with_heap (heap wr ++ [no_metrics]) wr) (RObj (length (heap wr)))
            = no_metrics).
    apply deref_fresh. }
  assert (Hr : r = {| final := with_sidebar (displayed no_metrics)
                                (with_fallback stateCode wr);
                      fetched := (match CONGRESS_TOPO w with
                                  | Some _ => []
                                  | None => [US_ATLAS_CONGRESS]
                                  end ++ [metrics_url stateCode])%list;
                      settled := Returned tt |}).
  { subst r. rewrite Hrun. unfold then_run at 1. cbn [settled final fetched].
    rewrite run_seq_bind, run_await,
      (loadMetrics_fallback_run net stateCode wr Hmiss' Hfail).
    unfold then_run. cbn [settled final fetched].
    rewrite (show_run net _ _ (eq_trans (f_equal displayable Hd) eq_refl)).
    rewrite Hd. cbn [settled final fetched done_at]. now rewrite app_nil_r. }
  rewrite Hr. cbn [settled final fetched].
  unfold view in Hview. injection Hview as V1 V2 V3.
  split; [reflexivity|]. split; [exact V1|]. split.
  { unfold shown_districts.
    change (currentGeo (with_sidebar (displayed no_metrics) (with_fallback stateCode wr)))
      with (currentGeo wr).
    change (geoLayer (with_sidebar (displayed no_metrics) (with_fallback stateCode wr)))
      with (geoLayer wr).
    now rewrite V2, V3. }
  split; [reflexivity|]. split; [reflexivity|]. split; [reflexivity|].
  now rewrite last_snoc.
Qed.

Lemma refreshState_without_metrics_witness :
  let r := run_seq (atlas two_states) (refreshState "WY") initial_world in
  settled r = Returned tt
  /\ classification_text (sidebar (final r)) = "UNKNOWN".
Proof.
  destruct (refreshState_without_metrics (atlas two_states) initial_world "WY" "56"
              two_states (wy_district :: ca_districts))
    as (H1 & _ & _ & H2 & _); [reflexivity..|].
  split; [exact H1 | exact H2].
Defined.

(** The run of [refreshState] when the topology and a truthy metrics value
    for the code are cached. *)
Lemma refreshState_cached (net : Network) (w : World) (stateCode fips : string)
    (topo : Topology) (districts : list Feature) :
  obj_get STATE_FIPS stateCode = Some fips ->
  CONGRESS_TOPO w = Some topo ->
  select_object topo = Some districts ->
  truthy_ref (cache_get w stateCode) = true ->
  displayable (deref w (cache_get w stateCode)) = true ->
  let r := run_seq net (refreshState stateCode) w in
  settled r = Returned tt
  /\ fetched r = []
  /\ view (final r)
     = (Some stateCode, Some (districts_of fips districts),
        Some (base_layer w (districts_of fips districts)))
  /\ sidebar (final r) = displayed (deref w (cache_get w stateCode))
  /\ METRICS_CACHE (final r) = METRICS_CACHE w
  /\ heap (final r) = heap w
  /\ CONGRESS_TOPO (final r) = Some topo.
Proof.
  intros Hcode Hw Hsel Hhit Hshow r.
  assert (Htopo : topology_of net w = Some topo).
  { unfold topology_of. now rewrite Hw. }
  destruct (refreshState_drawn net w stateCode fips topo districts Hcode Htopo Hsel)
    as (wr & Hrun & Hview & _ & _ & Ht & Hcache & Hheap & _).
  assert (Hget : cache_get wr stateCode = cache_get w stateCode).
  { unfold cache_get. now rewrite Hcache. }
  assert (Hderef : forall m, deref wr m = deref w m).
  { intros [p|l]; unfold deref; [reflexivity | now rewrite Hheap]. }
  assert (Hr : r = {| final := with_sidebar (displayed (deref w (cache_get w stateCode))) wr;
                      fetched := [];
                      settled := Returned tt |}).
  { subst r. rewrite Hrun, Hw. unfold then_run at 1. cbn [settled final fetched].
    rewrite run_seq_bind, run_await, loadMetrics_hit by now rewrite Hget.
    unfold then_run. cbn [settled final fetched]. rewrite Hget.
    rewrite show_run by now rewrite Hderef.
    rewrite Hderef. reflexivity. }
  rewrite Hr. cbn [settled final fetched].
  split; [reflexivity|]. split; [reflexivity|]. split; [exact Hview|].
  split; [reflexivity|]. split; [exact Hcache|]. split; [exact Hheap | exact Ht].
Qed.

(** X7.  Once the topology and a truthy metrics value for the code are
    cached, selecting the state needs no network at all: [refreshState]
    sends no request whatever the network would answer, draws the districts
    of the state and shows the cached metrics; the caches and the cached
    objects are as before. *)
Theorem refreshState_from_caches (net : Network) (w : World) (stateCode fips : string)
    (topo : Topology) (districts : list Feature) :
  obj_get STATE_FIPS stateCode = Some fips ->
  CONGRESS_TOPO w = Some topo ->
  select_object topo = Some districts ->
  truthy_ref (cache_get w stateCode) = true ->
  displayable (deref w (cache_get w stateCode)) = true ->
  let r := run_seq net (refreshState stateCode) w in
  settled r = Returned tt
  /\ fetched r = []
  /\ selectedState (final r) = Some stateCode
  /\ shown_districts (final r)
     = (Some (districts_of fips districts),
        Some (features (districts_of fips districts)))
  /\ sidebar (final r) = displayed (deref w (cache_get w stateCode))
  /\ METRICS_CACHE (final r) = METRICS_CACHE w
  /\ heap (final r) = heap w
  /\ CONGRESS_TOPO (final r) = Some topo.
Proof.
  intros Hcode Hw Hsel Hhit Hshow r.
  destruct (refreshState_cached net w stateCode fips topo districts
              Hcode Hw Hsel Hhit Hshow)
    as (H1 & H2 & Hview & H4 & H5 & H6 & H7).
  fold r in H1, H2, Hview, H4, H5, H6, H7.
  unfold view in Hview. injection Hview as V1 V2 V3.
  unfold shown_districts. rewrite V2, V3.
  repeat split; assumption.
Qed.

Lemma refreshState_from_caches_witness :
  let w := with_topo (Some two_states) (ready_world "CA" demo_record ca_districts) in
  let r := run_seq offline (refreshState "CA") w in
  settled r = Returned tt /\ fetched r = [].
Proof.
  destruct (refreshState_from_caches offline
              (with_topo (Some two_states) (ready_world "CA" demo_record ca_districts))
              "CA" "06" two_states (wy_district :: ca_districts))
    as (H1 & H2 & _); [reflexivity..|].
  split; [exact H1 | exact H2].
Defined.

(** ** Plan generation *)

Lemma keeps_plan_steps {C : Type} (proj : World -> C) (m : ref) (mode : val) :
  (forall h w, proj (with_heap h w) = proj w) ->
  keeps proj
    (if is_string mode "fair" then
       do _ <- unshift_note m fair_note;
       write_prop m "classification" (VPrim (PStr "fair"))
     else if is_string mode "favor_democrats" then
       do _ <- unshift_note m democrats_note;
       write_prop m "classification" (VPrim (PStr "favors_democrats"))
     else
       do _ <- unshift_note m republicans_note;
       write_prop m "classification" (VPrim (PStr "favors_republicans"))).
Proof.
  intros Hh. rewrite plan_branches.
  apply keeps_bind; [now apply keeps_unshift_note|].
  intros _. now apply keeps_write_prop.
Qed.

Lemma keeps_plan_with {C : Type} (proj : World -> C) (mode : val) (m : ref) :
  (forall h w, proj (with_heap h w) = proj w) ->
  (forall s w, proj (with_sidebar s w) = proj w) ->
  (forall g ls n w, proj (with_layers g ls n w) = proj w) ->
  (forall v w, proj (with_viewport v w) = proj w) ->
  keeps proj (plan_with mode m).
Proof.
  intros Hh Hs Hl Hv. unfold plan_with.
  apply keeps_bind; [now apply keeps_ensure_summary|]. intros _.
  apply keeps_bind; [now apply keeps_ensure_notes|]. intros _.
  apply keeps_bind; [now apply keeps_plan_steps|]. intros _.
  apply keeps_bind; [now apply keeps_show|]. intros _.
  intros w. now apply keeps_render.
Qed.

Lemma keeps_generatePlan {C : Type} (proj : World -> C) (stateCode : string) (mode : val) :
  (forall h w, proj (with_heap h w) = proj w) ->
  (forall s w, proj (with_sidebar s w) = proj w) ->
  (forall c w, proj (with_cache c w) = proj w) ->
  (forall g ls n w, proj (with_layers g ls n w) = proj w) ->
  (forall v w, proj (with_viewport v w) = proj w) ->
  keeps proj (generatePlan stateCode mode).
Proof.
  intros Hh Hs Hc Hl Hv. unfold generatePlan. intros w.
  destruct (currentGeo w); [|exact I].
  apply keeps_bind.
  - unfold await. now apply keeps_loadMetrics.
  - intros m. now apply (keeps_plan_with proj mode m).
Qed.

Lemma keeps_Mvp_generatePlan {C : Type} (proj : World -> C) (stateCode : string)
    (mode : val) :
  (forall h w, proj (with_heap h w) = proj w) ->
  (forall s w, proj (with_sidebar s w) = proj w) ->
  (forall g ls n w, proj (with_layers g ls n w) = proj w) ->
  (forall v w, proj (with_viewport v w) = proj w) ->
  keeps proj (Mvp.generatePlan stateCode mode).
Proof.
  intros Hh Hs Hl Hv. unfold Mvp.generatePlan.
  apply keeps_bind.
  - unfold await. now apply keeps_loadDemoMetrics.
  - intros m. apply keeps_bind.
    + intros w. destruct (truthy_ref m && truthy (opt_prop (deref w m) "summary"));
        [|exact I].
      apply keeps_bind; [now apply keeps_ensure_notes|]. intros _.
      apply keeps_bind; [|intros _; now apply keeps_show].
      destruct (is_string mode "fair");
        [apply keeps_bind; [now apply keeps_unshift_note
                           |intros _; now apply keeps_write_prop]|].
      destruct (is_string mode "favor_democrats");
        [apply keeps_bind; [now apply keeps_unshift_note
                           |intros _; now apply keeps_write_prop]|].
      destruct (is_string mode "favor_republicans");
        [apply keeps_bind; [now apply keeps_unshift_note
                           |intros _; now apply keeps_write_prop]|].
      exact I.
    + intros _ w. destruct (currentGeo w); [|exact I].
      now apply keeps_render.
Qed.

(** X8.  Plan generation never touches the geometry: whatever the state
    code, the mode, the answers of the network and the handlers that run
    while it waits, [generatePlan] of either page leaves the selected
    code, the district collection and the cached topology as they are, in
    every turn and at its end. *)
Theorem generatePlan_keeps_geometry (net : Network) (stateCode : string)
    (mode : val) (w : World) :
  (geo_state (final (run_seq net (generatePlan stateCode mode) w)) = geo_state w
   /\ geo_state (fst (advance (generatePlan stateCode mode) w)) = geo_state w
   /\ status_keeps geo_state (snd (advance (generatePlan stateCode mode) w)))
  /\ (geo_state (final (run_seq net (Mvp.generatePlan stateCode mode) w)) = geo_state w
      /\ geo_state (fst (advance (Mvp.generatePlan stateCode mode) w)) = geo_state w
      /\ status_keeps geo_state (snd (advance (Mvp.generatePlan stateCode mode) w))).
Proof.
  assert (K1 : keeps geo_state (generatePlan stateCode mode))
    by (apply keeps_generatePlan; reflexivity).
  assert (K2 : keeps geo_state (Mvp.generatePlan stateCode mode))
    by (apply keeps_Mvp_generatePlan; reflexivity).
  split.
  - split; [now apply keeps_run_seq|]. now apply keeps_advance.
  - split; [now apply keeps_run_seq|]. now apply keeps_advance.
Qed.

(** X9.  [generatePlan] draws the unchanged district collection again in
    the style of the mode.  For a mode that is none of the three known
    strings the two halves of the function disagree: the record is
    classified [favors_republicans] while the districts are drawn in the
    style of a fair plan. *)
Theorem generatePlan_style (net : Network) (stateCode : string) (mode : val)
    (w : World) (l : nat) (rec : val) (fc : FeatureCollection) :
  currentGeo w = Some fc ->
  cache_get w stateCode = RObj l ->
  heap w !! l = Some rec ->
  metrics_record rec = true ->
  let r := run_seq net (generatePlan stateCode mode) w in
  (layer_features <$> geoLayer (final r)) = Some (features fc)
  /\ (layer_style <$> geoLayer (final r)) = Some (styleDistrictMode mode)
  /\ (is_string mode "fair" = false ->
      is_string mode "favor_democrats" = false ->
      is_string mode "favor_republicans" = false ->
      classification_of (deref (final r) (RObj l)) = VPrim (PStr "favors_republicans")
      /\ (layer_style <$> geoLayer (final r))
         = Some (styleDistrictMode (VPrim (PStr "fair")))).
Proof.
  intros Hgeo Hcache Hl Hrec r.
  destruct (generatePlan_ready net stateCode mode w l rec fc Hgeo Hcache Hl Hrec)
    as (_ & _ & _ & _ & Hheap & Hlayer).
  fold r in Hheap, Hlayer. rewrite Hlayer. cbn [fmap option_fmap option_map].
  split; [reflexivity|]. split; [reflexivity|].
  intros H1 H2 H3. split.
  - unfold deref. rewrite Hheap.
    rewrite list_lookup_insert_eq by now apply lookup_lt_Some in Hl.
    cbn [from_option]. unfold plan_of. rewrite H1, H2. cbn [fst snd].
    now destruct (planned_record republicans_note "favors_republicans" rec Hrec).
  - unfold L_geoJSON, styleDistrictMode. cbn [layer_style].
    rewrite H2, H3. reflexivity.
Qed.

Lemma generatePlan_style_witness :
  let w := ready_world "CA" demo_record one_district in
  let r := run_seq offline (generatePlan "CA" (VPrim (PStr "favor_b"))) w in
  (layer_style <$> geoLayer (final r)) = Some (styleDistrictMode (VPrim (PStr "fair"))).
Proof.
  destruct (generatePlan_style offline "CA" (VPrim (PStr "favor_b"))
              (ready_world "CA" demo_record one_district) 0 demo_record
              {| features := one_district |})
    as (_ & _ & H); [reflexivity..|].
  destruct H as [_ H]; [reflexivity..|exact H].
Defined.

Lemma generatePlan_unfold (net : Network) (stateCode : string) (mode : val)
    (w : World) (fc : FeatureCollection) :
  currentGeo w = Some fc ->
  run_seq net (generatePlan stateCode mode) w
  = then_run net (run_seq net (loadMetrics stateCode) w) (plan_with mode).
Proof.
  intros Hgeo. unfold generatePlan. cbn [run_seq]. rewrite Hgeo.
  now rewrite run_seq_bind, run_await.
Qed.

(** X10.  Plan generation does not need the metrics endpoint.  When no
    metrics are cached for the code and the request fails, [generatePlan]
    works on the fallback record: it returns after the one request, and the
    record now cached for the code carries the classification of the mode
    and the note of the mode in front of [No metrics]. *)
Theorem generatePlan_without_metrics (net : Network) (stateCode : string)
    (mode : val) (w : World) (fc : FeatureCollection) :
  currentGeo w = Some fc ->
  truthy_ref (cache_get w stateCode) = false ->
  fetch_failed (metrics_api net (metrics_url stateCode)) = true ->
  let r := run_seq net (generatePlan stateCode mode) w in
  let m := RObj (length (heap w)) in
  settled r = Returned tt
  /\ fetched r = [metrics_url stateCode]
  /\ cache_get (final r) stateCode = m
  /\ classification_of (deref (final r) m) = VPrim (PStr (snd (plan_of mode)))
  /\ notes_of (deref (final r) m)
     = [VPrim (PStr (fst (plan_of mode))); VPrim (PStr "No metrics")].
Proof.
  intros Hgeo Hmiss Hfail r m.
  set (w1 := with_fallback stateCode w).
  assert (Hc1 : cache_get w1 stateCode = m) by apply cache_get_set.
  assert (Hl1 : heap w1 !! length (heap w) = Some no_metrics).
  { unfold w1, with_fallback.
    change (heap (cache_set stateCode (RObj (length (heap w)))
                    (with_heap (heap w ++ [no_metrics]) w)))
      with (heap w ++ [no_metrics])%list.
    rewrite lookup_app_r by lia. now rewrite Nat.sub_diag. }
  assert (Hr : r = sent (metrics_url stateCode)
                     (run_seq net (generatePlan stateCode mode) w1)).
  { subst r. rewrite (generatePlan_unfold net stateCode mode w fc Hgeo).
    rewrite (generatePlan_unfold net stateCode mode w1 fc Hgeo).
    rewrite (loadMetrics_fallback_run net stateCode w Hmiss Hfail).
    rewrite loadMetrics_hit by now rewrite Hc1.
    fold w1. rewrite Hc1. unfold then_run, sent. cbn [settled final fetched app].
    reflexivity. }
  destruct (generatePlan_ready net stateCode mode w1 (length (heap w)) no_metrics fc
              Hgeo Hc1 Hl1 eq_refl) as (Hret & Hfetch & _ & Hcache & Hheap & _).
  destruct (planned_record (fst (plan_of mode)) (snd (plan_of mode)) no_metrics eq_refl)
    as (Pc & Pn & _).
  rewrite Hr. unfold sent. cbn [settled final fetched].
  rewrite Hret, Hfetch. split; [reflexivity|]. split; [reflexivity|]. split.
  { unfold cache_get in *. now rewrite Hcache. }
  unfold deref, m. rewrite Hheap.
  rewrite list_lookup_insert_eq by now apply lookup_lt_Some in Hl1.
  cbn [from_option]. split; [exact Pc | exact Pn].
Qed.

Lemma generatePlan_without_metrics_witness :
  let w := with_cache ∅ (ready_world "CA" demo_record one_district) in
  let r := run_seq offline (generatePlan "CA" (VPrim (PStr "fair"))) w in
  notes_of (deref (final r) (RObj 1))
  = [VPrim (PStr fair_note); VPrim (PStr "No metrics")].
Proof.
  destruct (generatePlan_without_metrics offline "CA" (VPrim (PStr "fair"))
              (with_cache ∅ (ready_world "CA" demo_record one_district))
              {| features := one_district |})
    as (_ & _ & _ & _ & H); [reflexivity..|exact H].
Defined.

(** ** The earlier page *)

Lemma show_any_run (net : Network) (paint : bool) (m : ref) (w : World) :
  displayable (deref w m) = true ->
  exists sb,
    run_seq net (show paint m) w = done_at (with_sidebar sb w) tt
    /\ classification_text sb = classification_text (displayed (deref w m))
    /\ summary_text sb = summary_text (displayed (deref w m))
    /\ notes_items sb = notes_items (displayed (deref w m))
    /\ classification_background sb
       = if paint then classification_background (displayed (deref w m))
         else classification_background (sidebar w).
Proof.
  unfold displayable, show, displayed. intros H. cbn [run_seq].
  destruct (vor (opt_prop (deref w m) "classification") (VPrim (PStr "unknown")))
    as [[| | | |c]| |]; try discriminate.
  cbn [run_seq]. rewrite H. eexists. split; [reflexivity|].
  cbn. repeat split; now destruct paint.
Qed.

Lemma box_object_run (net : Network) (v : val) (w : World) :
  is_object v = true ->
  run_seq net (box v) w = done_at (with_heap (heap w ++ [v]) w) (RObj (length (heap w))).
Proof. destruct v; [discriminate| |]; reflexivity. Qed.

Lemma loadDemoMetrics_served (rec : val) (stateCode : string) (w : World) :
  is_object rec = true ->
  run_seq (serving rec) (Mvp.loadDemoMetrics stateCode) w
  = sent (metrics_url stateCode)
      (done_at (with_heap (heap w ++ [rec]) w) (RObj (length (heap w)))).
Proof.
  intros Hobj. rewrite <- (box_object_run (serving rec) rec w Hobj).
  unfold Mvp.loadDemoMetrics. cbn [run_seq].
  change (metrics_api (serving rec) (metrics_url stateCode))
    with (Some {| ok := true; json := Some rec |}).
  reflexivity.
Qed.

Lemma then_run_sent {A B : Type} (net : Network) (url : string) (r : Run A)
    (f : A -> async B) :
  then_run net (sent url r) f = sent url (then_run net r f).
Proof. unfold then_run, sent. cbn. now destruct (settled r). Qed.

(** X11.  In the earlier page nothing accumulates.  Its [generatePlan]
    fetches the record anew on every call, without any cache, and shows
    the fetched notes with the note of the mode in front (no note for a
    mode it does not know): however often it is called, the sidebar lists
    one note more than the endpoint serves, and [METRICS_CACHE] is
    untouched. *)
Theorem Mvp_generatePlan_fresh_each_time (rec : val) (stateCode : string)
    (mode : val) (w : World) :
  metrics_record rec = true ->
  truthy (opt_prop rec "summary") = true ->
  displayable rec = true ->
  let r := run_seq (serving rec) (Mvp.generatePlan stateCode mode) w in
  let r' := run_seq (serving rec) (Mvp.generatePlan stateCode mode) (final r) in
  settled r = Returned tt
  /\ fetched r = [metrics_url stateCode]
  /\ notes_items (sidebar (final r)) = mvp_notes mode (notes_of rec)
  /\ classification_text (sidebar (final r)) = mvp_label mode rec
  /\ METRICS_CACHE (final r) = METRICS_CACHE w
  /\ fetched r' = [metrics_url stateCode]
  /\ notes_items (sidebar (final r')) = notes_items (sidebar (final r))
  /\ classification_text (sidebar (final r')) = classification_text (sidebar (final r)).
Proof.
  intros Hrec Hsum Hshow.
  assert (Hone : forall w0,
    let r0 := run_seq (serving rec) (Mvp.generatePlan stateCode mode) w0 in
    settled r0 = Returned tt
    /\ fetched r0 = [metrics_url stateCode]
    /\ notes_items (sidebar (final r0)) = mvp_notes mode (notes_of rec)
    /\ classification_text (sidebar (final r0)) = mvp_label mode rec
    /\ METRICS_CACHE (final r0) = METRICS_CACHE w0).
  { clear w. intros w.
    destruct (metrics_record_inv rec Hrec)
      as (Hobj & s & items & props & Hs & Hso & Hn & Harr & Hnotes).
    unfold vor in Hs. rewrite Hsum in Hs. subst s.
    apply andb_true_iff in Harr as [Hunshift HforEach].
    set (l := length (heap w)).
    set (w1 := with_heap (heap w ++ [rec]) w).
    assert (Hl1 : heap w1 !! l = Some rec).
    { unfold w1, l. cbn [heap with_heap]. rewrite lookup_app_r by lia.
      now rewrite Nat.sub_diag. }
    set (r2 := set_prop rec "summary"
                 (set_prop (opt_prop rec "summary") "notes"
                    (vor (opt_prop (opt_prop rec "summary") "notes") (VArr [] [])))).
    assert (Hobj2 : is_object r2 = true) by (unfold r2; now rewrite is_object_set).
    assert (Hs2 : opt_prop r2 "summary"
                  = set_prop (opt_prop rec "summary") "notes" (VArr items props)).
    { unfold r2. rewrite (opt_prop_set_eq _ _ _ Hobj). now rewrite Hn. }
    assert (Hn2 : opt_prop (opt_prop r2 "summary") "notes" = VArr items props).
    { rewrite Hs2. now apply opt_prop_set_eq. }
    assert (Hc2 : opt_prop r2 "classification" = opt_prop rec "classification").
    { unfold r2. now rewrite opt_prop_set_ne by discriminate. }
    pose proof (store_at w1 l rec Hl1 r2) as Hl2.
    (* the run up to the branch on the mode *)
    assert (Hpre : forall (K : async unit),
      run_seq (serving rec)
        (do m <- await (Mvp.loadDemoMetrics stateCode);
         do _ <- Read (fun w0 =>
           if truthy_ref m && truthy (opt_prop (deref w0 m) "summary") then
             do _ <- ensure_notes m;
             do _ <-
               (if is_string mode "fair" then
                  do _ <- unshift_note m Mvp.fair_note;
                  write_prop m "classification" (VPrim (PStr "fair"))
                else if is_string mode "favor_democrats" then
                  do _ <- unshift_note m Mvp.democrats_note;
                  write_prop m "classification" (VPrim (PStr "favors_democrats"))
                else if is_string mode "favor_republicans" then
                  do _ <- unshift_note m Mvp.republicans_note;
                  write_prop m "classification" (VPrim (PStr "favors_republicans"))
                else Return tt);
             Mvp.showMetrics m
           else Return tt);
         K) w
      = sent (metrics_url stateCode)
          (then_run (serving rec)
             (run_seq (serving rec)
                (do _ <-
                   (if is_string mode "fair" then
                      do _ <- unshift_note (RObj l) Mvp.fair_note;
                      write_prop (RObj l) "classification" (VPrim (PStr "fair"))
                    else if is_string mode "favor_democrats" then
                      do _ <- unshift_note (RObj l) Mvp.democrats_note;
                      write_prop (RObj l) "classification"
                        (VPrim (PStr "favors_democrats"))
                    else if is_string mode "favor_republicans" then
                      do _ <- unshift_note (RObj l) Mvp.republicans_note;
                      write_prop (RObj l) "classification"
                        (VPrim (PStr "favors_republicans"))
                    else Return tt);
                 Mvp.showMetrics (RObj l)) (store l r2 w1))
             (fun _ => K))).
    { intros K. rewrite run_seq_bind, run_await.
      rewrite (loadDemoMetrics_served rec stateCode w Hobj). fold l w1.
      rewrite then_run_sent, then_done. f_equal.
      rewrite run_seq_bind. f_equal. cbn [run_seq].
      rewrite (deref_at w1 l rec Hl1), Hsum. cbn [truthy_ref andb].
      rewrite run_seq_bind.
      rewrite (run_ensure_notes (serving rec) w1 l rec Hl1 Hobj Hso), then_done.
      reflexivity. }
    unfold Mvp.generatePlan. cbv zeta. rewrite Hpre. clear Hpre.
    (* the branch on the mode and the display *)
    assert (Hmid : exists sb w3,
      run_seq (serving rec)
        (do _ <-
           (if is_string mode "fair" then
              do _ <- unshift_note (RObj l) Mvp.fair_note;
              write_prop (RObj l) "classification" (VPrim (PStr "fair"))
            else if is_string mode "favor_democrats" then
              do _ <- unshift_note (RObj l) Mvp.democrats_note;
              write_prop (RObj l) "classification" (VPrim (PStr "favors_democrats"))
            else if is_string mode "favor_republicans" then
              do _ <- unshift_note (RObj l) Mvp.republicans_note;
              write_prop (RObj l) "classification" (VPrim (PStr "favors_republicans"))
            else Return tt);
         Mvp.showMetrics (RObj l)) (store l r2 w1)
      = done_at (with_sidebar sb w3) tt
      /\ notes_items sb = mvp_notes mode (notes_of rec)
      /\ classification_text sb = mvp_label mode rec
      /\ METRICS_CACHE w3 = METRICS_CACHE w
      /\ drawn w3 = drawn w).
    { assert (Hplan : forall note cls,
        vor (VPrim (PStr cls)) (VPrim (PStr "unknown")) = VPrim (PStr cls) ->
        exists sb w3,
          run_seq (serving rec)
            (do _ <- (do _ <- unshift_note (RObj l) note;
                      write_prop (RObj l) "classification" (VPrim (PStr cls)));
             Mvp.showMetrics (RObj l)) (store l r2 w1)
          = done_at (with_sidebar sb w3) tt
          /\ notes_items sb = VPrim (PStr note) :: notes_of rec
          /\ classification_text sb = toUpperCase cls
          /\ METRICS_CACHE w3 = METRICS_CACHE w
          /\ drawn w3 = drawn w).
      { intros note cls Hcls.
        set (r3 := set_prop r2 "summary"
                     (set_prop (opt_prop r2 "summary") "notes"
                        (VArr (VPrim (PStr note) :: items) props))).
        set (r4 := set_prop r3 "classification" (VPrim (PStr cls))).
        assert (Hobj3 : is_object r3 = true) by (unfold r3; now rewrite is_object_set).
        assert (Hc4 : classification_of r4 = VPrim (PStr cls)).
        { unfold r4, classification_of. now apply opt_prop_set_eq. }
        assert (Hn4 : opt_prop (opt_prop r4 "summary") "notes"
                      = VArr (VPrim (PStr note) :: items) props).
        { unfold r4. rewrite opt_prop_set_ne by discriminate.
          unfold r3. rewrite (opt_prop_set_eq _ _ _ Hobj2).
          apply opt_prop_set_eq. rewrite Hs2. now rewrite is_object_set. }
        rewrite run_seq_bind, run_seq_bind.
        rewrite (run_unshift_note (serving rec) _ l r2 Hl2 Hobj2 note items props);
          [| rewrite Hs2; now rewrite is_object_set | exact Hn2 | exact Hunshift].
        rewrite then_done. fold r3. rewrite store_store.
        pose proof (store_at w1 l rec Hl1 r3) as Hl3.
        rewrite (run_write_prop (serving rec) _ l r3 Hl3), then_done.
        fold r4. rewrite store_store.
        pose proof (store_at w1 l rec Hl1 r4) as Hl4.
        assert (Hd4 : deref (store l r4 w1) (RObj l) = r4)
          by (unfold deref; now rewrite Hl4).
        assert (Hdisp : displayable (deref (store l r4 w1) (RObj l)) = true).
        { rewrite Hd4. unfold displayable. unfold classification_of in Hc4.
          rewrite Hc4, Hn4, Hcls. exact HforEach. }
        destruct (show_any_run (serving rec) false (RObj l) _ Hdisp)
          as (sb & Hrun & S1 & _ & S3 & _).
        exists sb, (store l r4 w1). split; [exact Hrun|].
        rewrite Hd4 in S1, S3. unfold displayed in S1, S3. cbn in S1, S3.
        unfold classification_of in Hc4. rewrite Hc4, Hcls in S1. rewrite Hn4 in S3.
        rewrite S3, S1, Hnotes. repeat split. }
      unfold mvp_notes, mvp_label, mvp_plan_of.
      destruct (is_string mode "fair"); [now apply Hplan|].
      destruct (is_string mode "favor_democrats"); [now apply Hplan|].
      destruct (is_string mode "favor_republicans"); [now apply Hplan|].
      cbn [bind]. 
      assert (Hd2 : deref (store l r2 w1) (RObj l) = r2)
        by (unfold deref; now rewrite Hl2).
      assert (Hdisp : displayable (deref (store l r2 w1) (RObj l)) = true).
      { rewrite Hd2. unfold displayable in *. rewrite Hc2, Hn2.
        destruct (vor (opt_prop rec "classification") (VPrim (PStr "unknown")))
          as [[| | | |c]| |]; try discriminate. exact HforEach. }
      destruct (show_any_run (serving rec) false (RObj l) _ Hdisp)
        as (sb & Hrun & S1 & _ & S3 & _).
      exists sb, (store l r2 w1). split; [exact Hrun|].
      rewrite Hd2 in S1, S3. unfold displayed in S1, S3 |- *. cbn in S1, S3 |- *.
      rewrite Hc2 in S1. rewrite Hn2 in S3.
      rewrite S3, S1, Hnotes. repeat split. }
    destruct Hmid as (sb & w3 & Hrun & N1 & N2 & N3 & N4).
    rewrite Hrun, then_done. cbn [run_seq].
    change (currentGeo (with_sidebar sb w3)) with (currentGeo w3).
    destruct (currentGeo w3) as [g|].
    - destruct (render_returns (serving rec) (with_sidebar sb w3) (Some g)
                  Mvp.styleDistrict Mvp.onEachDistrict 20) as (R1 & R2 & _).
      pose proof (keeps_run_seq sidebar (serving rec)
                    (render (Some g) Mvp.styleDistrict Mvp.onEachDistrict 20)
                    (with_sidebar sb w3)
                    (keeps_render sidebar
                       _ _ _ _ (fun _ _ _ _ => eq_refl) (fun _ _ => eq_refl)))
        as K1.
      pose proof (keeps_run_seq METRICS_CACHE (serving rec)
                    (render (Some g) Mvp.styleDistrict Mvp.onEachDistrict 20)
                    (with_sidebar sb w3)
                    (keeps_render METRICS_CACHE
                       _ _ _ _ (fun _ _ _ _ => eq_refl) (fun _ _ => eq_refl)))
        as K2.
      unfold Mvp.renderGeojson, sent. cbn [settled final fetched].
      rewrite R1, R2, K1, K2. repeat split; assumption.
    - unfold sent. cbn [run_seq settled final fetched].
      repeat split; assumption. }
  intros r r'.
  destruct (Hone w) as (A1 & A2 & A3 & A4 & A5).
  destruct (Hone (final r)) as (B1 & B2 & B3 & B4 & B5).
  fold r in A1, A2, A3, A4, A5. fold r' in B1, B2, B3, B4, B5.
  repeat split; try assumption; congruence.
Qed.

Lemma Mvp_generatePlan_fresh_each_time_witness :
  let r := run_seq (serving demo_record)
             (Mvp.generatePlan "CA" (VPrim (PStr "fair"))) initial_world in
  let r' := run_seq (serving demo_record)
              (Mvp.generatePlan "CA" (VPrim (PStr "fair"))) (final r) in
  notes_items (sidebar (final r'))
  = [VPrim (PStr Mvp.fair_note); VPrim (PStr "Demo data")].
Proof.
  destruct (Mvp_generatePlan_fresh_each_time demo_record "CA" (VPrim (PStr "fair"))
              initial_world)
    as (_ & _ & H3 & _ & _ & _ & H7 & _); [reflexivity..|].
  cbv zeta. rewrite H7. exact H3.
Defined.

(** The first half of a successful [refreshState] of the earlier page. *)
Lemma Mvp_refreshState_drawn (net : Network) (w : World) (stateCode fips : string)
    (topo : Topology) (districts : list Feature) :
  obj_get Mvp.STATE_FIPS stateCode = Some fips ->
  topology_of net w = Some topo ->
  select_object topo = Some districts ->
  let geo := districts_of fips districts in
  exists wr,
    run_seq net (Mvp.refreshState stateCode) w
    = then_run net
        {| final := wr;
           fetched := match CONGRESS_TOPO w with
                      | Some _ => []
                      | None => [US_ATLAS_CONGRESS]
                      end;
           settled := Returned tt |}
        (fun _ => do metrics <- await (Mvp.loadDemoMetrics stateCode);
                  Mvp.showMetrics metrics)
    /\ shown_districts wr = (Some geo, Some (features geo))
    /\ selectedState wr = selectedState w
    /\ METRICS_CACHE wr = METRICS_CACHE w
    /\ heap wr = heap w
    /\ sidebar wr = sidebar w.
Proof.
  intros Hcode Htopo Hsel geo.
  set (w1 := match CONGRESS_TOPO w with
             | Some _ => w
             | None => with_topo (Some topo) w
             end).
  set (w2 := with_currentGeo (Some geo) w1).
  destruct (render_returns net w2 (Some geo) Mvp.styleDistrict Mvp.onEachDistrict 20)
    as (Hret & Hfetch & Hlayer & _).
  set (rr := run_seq net (render (Some geo) Mvp.styleDistrict Mvp.onEachDistrict 20) w2)
    in *.
  pose proof (keeps_run_seq
                (fun x => (selectedState x, currentGeo x,
                           METRICS_CACHE x, heap x, sidebar x))
                net (render (Some geo) Mvp.styleDistrict Mvp.onEachDistrict 20) w2
                (keeps_render
                   (fun x => (selectedState x, currentGeo x,
                              METRICS_CACHE x, heap x, sidebar x))
                   _ _ _ _ (fun _ _ _ _ => eq_refl) (fun _ _ => eq_refl)))
    as Hkeep.
  fold rr in Hkeep. cbv beta in Hkeep.
  assert (Hw1 : selectedState w1 = selectedState w
                /\ METRICS_CACHE w1 = METRICS_CACHE w /\ heap w1 = heap w
                /\ sidebar w1 = sidebar w).
  { unfold w1. destruct (CONGRESS_TOPO w); repeat split; reflexivity. }
  destruct Hw1 as (T1 & T2 & T3 & T4).
  exists (final rr). split.
  - unfold Mvp.refreshState. rewrite run_seq_bind, run_await.
    change (Mvp.loadStateMap stateCode) with (loadStateDistricts stateCode).
    rewrite (loadStateDistricts_run net w stateCode fips topo Hcode Htopo), Hsel.
    fold geo. fold w1. unfold then_run at 1. cbn [settled final fetched].
    unfold modify. cbn [bind run_seq]. fold w2.
    change (currentGeo w2) with (Some geo).
    rewrite run_seq_bind. unfold Mvp.renderGeojson. fold rr.
    unfold then_run. rewrite Hret, Hfetch. cbn [settled final fetched app].
    destruct (settled (run_seq net _ (final rr))); rewrite ?app_nil_r; reflexivity.
  - injection Hkeep as K1 K2 K3 K4 K5.
    unfold shown_districts. rewrite K1, K2, Hlayer, K3, K4, K5.
    change (selectedState w2) with (selectedState w1).
    change (METRICS_CACHE w2) with (METRICS_CACHE w1).
    change (heap w2) with (heap w1). change (sidebar w2) with (sidebar w1).
    rewrite T1, T2, T3, T4. repeat split; reflexivity.
Qed.

(** X12.  The earlier page has no fallback for the metrics.  For a code of
    its table whose topology is cached or can be fetched, its
    [refreshState] draws the districts first, whatever the metrics
    endpoint does, and caches no metrics.  Then a rejected metrics request
    makes the call throw with the sidebar left as it was, a response that
    is not [ok] makes it show [UNKNOWN] without notes and without a colour
    change, and a body that is not JSON makes it throw a [SyntaxError]. *)
Theorem Mvp_refreshState_metrics_failure (net : Network) (w : World)
    (stateCode fips : string) (topo : Topology) (districts : list Feature) :
  obj_get Mvp.STATE_FIPS stateCode = Some fips ->
  topology_of net w = Some topo ->
  select_object topo = Some districts ->
  let geo := districts_of fips districts in
  let r := run_seq net (Mvp.refreshState stateCode) w in
  shown_districts (final r) = (Some geo, Some (features geo))
  /\ METRICS_CACHE (final r) = METRICS_CACHE w
  /\ match metrics_api net (metrics_url stateCode) with
     | None =>
         settled r = Thrown NetworkError
         /\ sidebar (final r) = sidebar w /\ heap (final r) = heap w
     | Some resp =>
         if ok resp then
           json resp = None ->
           settled r = Thrown SyntaxError
           /\ sidebar (final r) = sidebar w /\ heap (final r) = heap w
         else
           settled r = Returned tt
           /\ sidebar (final r)
              = {| classification_text := "UNKNOWN";
                   classification_background := classification_background (sidebar w);
                   summary_text := VObj [];
                   notes_items := [] |}
           /\ heap (final r) = heap w
     end.
Proof.
  intros Hcode Htopo Hsel geo r.
  destruct (Mvp_refreshState_drawn net w stateCode fips topo districts Hcode Htopo Hsel)
    as (wr & Hrun & Hshown & _ & Hcache & Hheap & Hside).
  fold geo in Hshown.
  assert (Hr : r = then_run net
                 {| final := wr;
                    fetched := match CONGRESS_TOPO w with
                               | Some _ => []
                               | None => [US_ATLAS_CONGRESS]
                               end;
                    settled := Returned tt |}
                 (fun _ => do metrics <- await (Mvp.loadDemoMetrics stateCode);
                           Mvp.showMetrics metrics)) by exact Hrun.
  clear Hrun. rewrite Hr. clear Hr r.
  unfold then_run. cbn [settled final fetched]. cbv beta.
  set (rest := do metrics <- await (Mvp.loadDemoMetrics stateCode);
               Mvp.showMetrics metrics).
  assert (Hrest : forall {C : Type} (proj : World -> C),
            (forall h x, proj (with_heap h x) = proj x) ->
            (forall sb x, proj (with_sidebar sb x) = proj x) ->
            keeps proj rest).
  { intros C proj Hh Hs. unfold rest. apply keeps_bind.
    - unfold await. now apply keeps_loadDemoMetrics.
    - intros m. now apply keeps_show. }
  pose proof (keeps_run_seq shown_districts net rest wr
                (Hrest _ shown_districts (fun _ _ => eq_refl) (fun _ _ => eq_refl)))
    as K1.
  pose proof (keeps_run_seq METRICS_CACHE net rest wr
                (Hrest _ METRICS_CACHE (fun _ _ => eq_refl) (fun _ _ => eq_refl)))
    as K2.
  split; [congruence|]. split; [congruence|].
  unfold rest. rewrite run_seq_bind, run_await. unfold Mvp.loadDemoMetrics.
  cbn [run_seq].
  destruct (metrics_api net (metrics_url stateCode)) as [resp|].
  - destruct (ok resp).
    + intros ->. cbn [run_seq]. unfold then_run, sent. cbn [settled final fetched].
      repeat split; assumption.
    + cbn [run_seq]. unfold then_run, sent. cbn [settled final fetched].
      unfold Mvp.showMetrics, show. cbn [run_seq]. unfold deref. cbn.
      rewrite Hside, Hheap. repeat split.
  - cbn [run_seq]. unfold then_run, sent. cbn [settled final fetched].
    repeat split; assumption.
Qed.

Lemma Mvp_refreshState_metrics_failure_witness :
  let r := run_seq (atlas two_states) (Mvp.refreshState "WY") initial_world in
  settled r = Thrown NetworkError /\ sidebar (final r) = sidebar initial_world.
Proof.
  destruct (Mvp_refreshState_metrics_failure (atlas two_states) initial_world "WY" "56"
              two_states (wy_district :: ca_districts))
    as (_ & _ & H1 & H2 & _); [reflexivity..|].
  split; [exact H1 | exact H2].
Defined.

(** ** Invariants under interleaving *)

Section InvariantRules.
Variable Inv : World -> Prop.

Lemma wp_mono {A : Type} (p : async A) (Q Q' : A -> World -> Prop)
    (E E' : exn -> World -> Prop) (w : World) :
  (forall a w', Q a w' -> Q' a w') ->
  (forall e w', E e w' -> E' e w') ->
  wp Inv p Q E w -> wp Inv p Q' E' w.
Proof.
  intros HQ HE. revert w.
  induction p as [a|e|k IH|f k IH|url k IH|url k IH|k IH]; intros w; cbn [wp];
    auto.
  all: intros [Hw Hk]; split; [exact Hw|]; intros; apply IH, Hk; assumption.
Qed.

Lemma wp_bind {A B : Type} (p : async A) (f : A -> async B)
    (Q : B -> World -> Prop) (E : exn -> World -> Prop) (w : World) :
  wp Inv p (fun a w' => wp Inv (f a) Q E w') E w -> wp Inv (bind p f) Q E w.
Proof.
  revert w.
  induction p as [a|e|k IH|f' k IH|url k IH|url k IH|k IH]; intros w;
    cbn [wp bind]; auto.
  all: intros [Hw Hk]; split; [exact Hw|]; intros; apply IH, Hk; assumption.
Qed.

Lemma wp_try_catch {A : Type} (p : async A) (h : exn -> async A)
    (Q : A -> World -> Prop) (E : exn -> World -> Prop) (w : World) :
  wp Inv p Q (fun e w' => wp Inv (h e) Q E w') w -> wp Inv (try_catch p h) Q E w.
Proof.
  revert w.
  induction p as [a|e|k IH|f' k IH|url k IH|url k IH|k IH]; intros w;
    cbn [wp try_catch]; auto.
  all: intros [Hw Hk]; split; [exact Hw|]; intros; apply IH, Hk; assumption.
Qed.

Lemma wp_await {A : Type} (p : async A) (Q : A -> World -> Prop)
    (E : exn -> World -> Prop) (w : World) :
  wp Inv p Q E w -> wp Inv (await p) Q E w.
Proof. intros H. exact H. Qed.

(** A turn that ends the call without any [await]. *)
Lemma wp_finished {A : Type} (p : async A) (Q : A -> World -> Prop)
    (E : exn -> World -> Prop) (w w' : World) (a : A) :
  advance p w = (w', Finished a) -> Q a w' -> wp Inv p Q E w.
Proof.
  revert w.
  induction p as [a0|e|k IH|f' k IH|url k IH|url k IH|k IH]; intros w;
    cbn [wp advance]; try discriminate.
  all: try (intros [= -> ->]; auto).
  all: apply IH.
Qed.

(** A call that never writes what [Inv] reads keeps [Inv]. *)
Lemma wp_frame {A C : Type} (proj : World -> C) (p : async A) (w : World) :
  (forall w1 w2, proj w1 = proj w2 -> Inv w1 -> Inv w2) ->
  keeps proj p ->
  Inv w -> wp Inv p (fun _ => Inv) (fun _ => Inv) w.
Proof.
  intros Hproj. revert w.
  induction p as [a|e|k IH|f' k IH|url k IH|url k IH|k IH]; intros w;
    cbn [wp keeps]; auto.
  all: try (intros Hk Hw; split; [exact Hw|]; intros; now apply IH).
  intros [Hf Hk] Hw. apply IH; [exact Hk|].
  apply (Hproj w); [symmetry; apply Hf | exact Hw].
Qed.

(** One turn of a verified call ends where [Inv] holds, and what is left
    of the call is verified. *)
Lemma wp_advance (p : async unit) (w : World) :
  wp Inv p (fun _ => Inv) (fun _ => Inv) w ->
  Inv (advance p w).1 /\ pending Inv (advance p w).2.
Proof.
  revert w.
  induction p as [a|e|k IH|f' k IH|url k IH|url k IH|k IH]; intros w;
    cbn [wp advance pending fst snd]; auto.
  all: intros [Hw Hk]; split; [exact Hw|]; intros; now apply Hk.
Qed.

Lemma pending_resume (st : status unit) (r : reply) (p : async unit) (w : World) :
  pending Inv st -> resume st r = Some p -> Inv w ->
  wp Inv p (fun _ => Inv) (fun _ => Inv) w.
Proof.
  destruct st as [a|e|url k|url k|k], r as [x|x|]; cbn [resume pending];
    try discriminate; intros Hst [= <-] Hw; now apply Hst.
Qed.

(** Soundness: when the two handlers of the page are verified, [Inv] holds
    between any two turns of any schedule. *)
Lemma invariant_step (s : System) (e : event) :
  (forall stateCode w, Inv w ->
     wp Inv (refreshState stateCode) (fun _ => Inv) (fun _ => Inv) w) ->
  (forall stateCode mode w, Inv w ->
     wp Inv (generatePlan stateCode mode) (fun _ => Inv) (fun _ => Inv) w) ->
  Inv (world s) -> Forall (pending Inv) (calls s) ->
  Inv (world (step s e)) /\ Forall (pending Inv) (calls (step s e)).
Proof.
  intros Hrefresh Hplan Hw Hcalls.
  assert (Hstart : forall p,
    wp Inv p (fun _ => Inv) (fun _ => Inv) (world s) ->
    Inv (world (start p s)) /\ Forall (pending Inv) (calls (start p s))).
  { intros p Hp. unfold start. apply wp_advance in Hp.
    destruct (advance p (world s)) as [w' st]. cbn [world calls fst snd] in *.
    destruct Hp as [Hw' Hst]. split; [exact Hw'|].
    apply Forall_app. split; [exact Hcalls|]. now constructor. }
  destruct e as [stateCode|stateCode mode|i r]; cbn [step].
  - apply Hstart, Hrefresh, Hw.
  - apply Hstart, Hplan, Hw.
  - destruct (calls s !! i) as [st|] eqn:Hi; [|now split].
    destruct (resume st r) as [p|] eqn:Hr; [|now split].
    pose proof (pending_resume st r p (world s)
                  (proj1 (Forall_lookup _ _) Hcalls i st Hi) Hr Hw) as Hp.
    apply wp_advance in Hp.
    destruct (advance p (world s)) as [w' st']. cbn [world calls fst snd] in *.
    destruct Hp as [Hw' Hst']. split; [exact Hw'|].
    now apply Forall_insert.
Qed.

Lemma invariant_run (evs : list event) (s : System) :
  (forall stateCode w, Inv w ->
     wp Inv (refreshState stateCode) (fun _ => Inv) (fun _ => Inv) w) ->
  (forall stateCode mode w, Inv w ->
     wp Inv (generatePlan stateCode mode) (fun _ => Inv) (fun _ => Inv) w) ->
  Inv (world s) -> Forall (pending Inv) (calls s) ->
  Inv (world (run evs s)) /\ Forall (pending Inv) (calls (run evs s)).
Proof.
  intros Hrefresh Hplan. revert s.
  induction evs as [|e evs IH]; intros s Hw Hcalls; [now split|].
  cbn [run fold_left].
  destruct (invariant_step s e Hrefresh Hplan Hw Hcalls) as [Hw' Hcalls'].
  now apply IH.
Qed.

End InvariantRules.

(** ** One district overlay *)

Lemma one_overlay_reads (w1 w2 : World) :
  (currentGeo w1, geoLayer w1, map_layers w1)
  = (currentGeo w2, geoLayer w2, map_layers w2) ->
  one_overlay w1 -> one_overlay w2.
Proof. unfold one_overlay. now intros [= -> -> ->]. Qed.

(** Drawing the current collection restores the invariant, whatever the
    collection was when the previous layer was drawn. *)
Lemma one_overlay_render (w : World) (style : Style) (popup : Feature -> string)
    (padding : Z) (E : exn -> World -> Prop) :
  match geoLayer w with
  | Some l => map_layers w = [l]
  | None => map_layers w = []
  end ->
  wp one_overlay (render (currentGeo w) style popup padding)
    (fun _ => one_overlay) E w.
Proof.
  intros Hw.
  destruct (render_returns offline w (currentGeo w) style popup padding)
    as (_ & _ & Hlayer & Hlayers & _ & Hadv).
  pose proof (keeps_run_seq currentGeo offline
                (render (currentGeo w) style popup padding) w
                (keeps_render currentGeo _ _ _ _
                   (fun _ _ _ _ => eq_refl) (fun _ _ => eq_refl))) as Hgeo.
  apply (wp_finished _ _ _ _ _ _ _ Hadv).
  unfold one_overlay. rewrite Hlayer, Hlayers, Hgeo. unfold replaced.
  split.
  - destruct (geoLayer w) as [old|]; rewrite Hw; [|reflexivity].
    cbn [List.filter]. now rewrite Nat.eqb_refl.
  - unfold L_geoJSON. cbn [layer_features]. now destruct (currentGeo w).
Qed.

Lemma one_overlay_layers (w : World) :
  one_overlay w ->
  match geoLayer w with
  | Some l => map_layers w = [l]
  | None => map_layers w = []
  end.
Proof. unfold one_overlay. destruct (geoLayer w); tauto. Qed.

Lemma refreshState_one_overlay (stateCode : string) (w : World) :
  one_overlay w ->
  wp one_overlay (refreshState stateCode) (fun _ => one_overlay)
    (fun _ => one_overlay) w.
Proof.
  intros Hw. unfold refreshState, modify. cbn [bind wp].
  apply wp_bind, wp_await.
  eapply wp_mono;
    [| |apply (wp_frame one_overlay
                 (fun x => (currentGeo x, geoLayer x, map_layers x)));
        [exact one_overlay_reads
        |apply keeps_load_districts; reflexivity
        |exact Hw]].
  2: { intros e w' Hw'. exact Hw'. }
  intros geo w2 Hw2.
  cbn [bind wp]. apply wp_bind.
  unfold renderDistricts.
  change (Some geo) with (currentGeo (with_currentGeo (Some geo) w2)) at 1.
  eapply wp_mono; [| |apply one_overlay_render; exact (one_overlay_layers w2 Hw2)].
  2: { intros e w' Hw'. exact Hw'. }
  intros [] w3 Hw3. cbv beta.
  apply wp_bind, wp_await.
  eapply wp_mono;
    [| |apply (wp_frame one_overlay
                 (fun x => (currentGeo x, geoLayer x, map_layers x)));
        [exact one_overlay_reads
        |apply keeps_loadMetrics; reflexivity
        |exact Hw3]].
  2: { intros e w' Hw'. exact Hw'. }
  intros m w5 Hw5.
  apply (wp_frame one_overlay (fun x => (currentGeo x, geoLayer x, map_layers x)));
    [exact one_overlay_reads | apply keeps_show; reflexivity | exact Hw5].
Qed.

Lemma generatePlan_one_overlay (stateCode : string) (mode : val) (w : World) :
  one_overlay w ->
  wp one_overlay (generatePlan stateCode mode) (fun _ => one_overlay)
    (fun _ => one_overlay) w.
Proof.
  intros Hw. unfold generatePlan. cbn [wp].
  destruct (currentGeo w); [|exact Hw].
  apply wp_bind, wp_await.
  eapply wp_mono;
    [| |apply (wp_frame one_overlay
                 (fun x => (currentGeo x, geoLayer x, map_layers x)));
        [exact one_overlay_reads
        |apply keeps_loadMetrics; reflexivity
        |exact Hw]].
  2: { intros e w' Hw'. exact Hw'. }
  intros m w2 Hw2.
  apply wp_bind.
  eapply wp_mono;
    [| |apply (wp_frame one_overlay
                 (fun x => (currentGeo x, geoLayer x, map_layers x)));
        [exact one_overlay_reads | now apply keeps_ensure_summary | exact Hw2]].
  2: { intros e w' Hw'. exact Hw'. }
  intros [] w3 Hw3. cbv beta. apply wp_bind.
  eapply wp_mono;
    [| |apply (wp_frame one_overlay
                 (fun x => (currentGeo x, geoLayer x, map_layers x)));
        [exact one_overlay_reads | now apply keeps_ensure_notes | exact Hw3]].
  2: { intros e w' Hw'. exact Hw'. }
  intros [] w4 Hw4. cbv beta. apply wp_bind.
  eapply wp_mono;
    [| |apply (wp_frame one_overlay
                 (fun x => (currentGeo x, geoLayer x, map_layers x)));
        [exact one_overlay_reads | now apply keeps_plan_steps | exact Hw4]].
  2: { intros e w' Hw'. exact Hw'. }
  intros [] w5 Hw5. cbv beta. apply wp_bind.
  eapply wp_mono;
    [| |apply (wp_frame one_overlay
                 (fun x => (currentGeo x, geoLayer x, map_layers x)));
        [exact one_overlay_reads | now apply keeps_show | exact Hw5]].
  2: { intros e w' Hw'. exact Hw'. }
  intros [] w6 Hw6. cbv beta. cbn [wp].
  apply one_overlay_render. now apply one_overlay_layers.
Qed.

(** X13.  However the selections, the plan requests and the completions
    of the pending requests interleave, and whatever the network answers,
    between any two turns the map carries at most one district overlay,
    and that overlay shows the current collection.  A late response can
    put the districts of the wrong state on the map, but never a second
    layer nor a layer that differs from [currentGeo]. *)
Theorem one_overlay_always (evs : list event) (w : World) :
  one_overlay w -> one_overlay (world (run evs (page w))).
Proof.
  intros Hw.
  apply (invariant_run one_overlay evs (page w)).
  - exact refreshState_one_overlay.
  - exact generatePlan_one_overlay.
  - exact Hw.
  - constructor.
Qed.

Lemma one_overlay_always_witness :
  one_overlay (world (run stale_schedule (page initial_world))).
Proof. apply one_overlay_always. reflexivity. Defined.

(** ** The prefetch *)

Lemma has_entry_set (c c' : string) (r : ref) (w : World) :
  c = c' \/ has_entry c w -> has_entry c (cache_set c' r w).
Proof.
  unfold has_entry, cache_set. cbn [METRICS_CACHE with_cache].
  intros [->|H].
  - rewrite lookup_insert_eq. eauto.
  - destruct (decide (c' = c)) as [->|Hne].
    + rewrite lookup_insert_eq. eauto.
    + now rewrite lookup_insert_ne.
Qed.

Lemma has_entry_truthy (c : string) (w : World) :
  truthy_ref (cache_get w c) = true -> has_entry c w.
Proof.
  unfold cache_get, has_entry. destruct (METRICS_CACHE w !! c); [eauto|discriminate].
Qed.

(** What a call of [loadMetrics] for [stateCode] guarantees from its
    start: it suspends only where [Inv] holds, [Q] holds when it returns
    given that [Q] holds after each of its writes to the cache, and it
    never throws. *)
Lemma loadMetrics_wp (Inv : World -> Prop) (Q : World -> Prop) (stateCode : string)
    (w : World) :
  Inv w ->
  (truthy_ref (cache_get w stateCode) = true -> Q w) ->
  (forall r h w', Inv w' -> Q (cache_set stateCode r (with_heap h w'))) ->
  (forall r w', Inv w' -> Q (cache_set stateCode r w')) ->
  wp Inv (loadMetrics stateCode) (fun _ => Q) (fun _ _ => False) w.
Proof.
  intros Hw Hhit Hset Hset'. unfold loadMetrics. cbn [wp].
  destruct (truthy_ref (cache_get w stateCode)); [now apply Hhit|].
  apply wp_bind, wp_try_catch. cbn [wp]. split; [exact Hw|].
  intros [resp|] w1 Hw1; cbn [wp]; [|now apply Hset].
  destruct (ok resp); cbn [wp]; [|now apply Hset].
  split; [exact Hw1|]. intros w2 Hw2.
  destruct (json resp) as [body|]; cbn [wp]; [|now apply Hset].
  destruct body; cbn [box bind wp]; first [now apply Hset | now apply Hset'].
Qed.

(** The first turn of [loadMetrics]: nothing is written; the call returns
    a truthy cached value or else waits for the response to its request. *)
Lemma loadMetrics_first_turn (stateCode : string) (w : World) :
  exists k,
    advance (loadMetrics stateCode) w
    = (w, if truthy_ref (cache_get w stateCode)
          then Finished (cache_get w stateCode)
          else OnMetrics (metrics_url stateCode) k).
Proof.
  unfold loadMetrics. cbn [advance].
  destruct (truthy_ref (cache_get w stateCode));
    [now exists (fun _ => Return (RPrim PNull))|].
  rewrite advance_bind. cbn [try_catch advance then_advance]. eauto.
Qed.

Section PoolRules.
Variable Inv : World -> Prop.

(** One turn of a verified call. *)
Lemma wp_advance_status {A : Type} (p : async A) (Q : A -> World -> Prop)
    (E : exn -> World -> Prop) (w : World) :
  wp Inv p Q E w ->
  match (advance p w).2 with
  | Finished a => Q a (advance p w).1
  | Crashed e => E e (advance p w).1
  | OnMetrics _ k =>
      Inv (advance p w).1 /\ forall r w', Inv w' -> wp Inv (k r) Q E w'
  | OnTopo _ k =>
      Inv (advance p w).1 /\ forall r w', Inv w' -> wp Inv (k r) Q E w'
  | OnTick k => Inv (advance p w).1 /\ forall w', Inv w' -> wp Inv k Q E w'
  end.
Proof.
  revert w.
  induction p as [a|e|k IH|f' k IH|url k IH|url k IH|k IH]; intros w;
    cbn [wp advance fst snd]; auto; apply IH.
Qed.

End PoolRules.

Lemma respects_bind {A B : Type} (P : World -> Prop) (p : async A)
    (f : A -> async B) :
  respects P p -> (forall a, respects P (f a)) -> respects P (bind p f).
Proof.
  intros Hp Hf.
  induction p as [a|e|k IH|g k IH|url k IH|url k IH|k IH]; cbn [respects bind] in *;
    auto.
  destruct Hp as [Hg Hk]. auto.
Qed.

Lemma respects_try_catch {A : Type} (P : World -> Prop) (p : async A)
    (h : exn -> async A) :
  respects P p -> (forall e, respects P (h e)) -> respects P (try_catch p h).
Proof.
  intros Hp Hh.
  induction p as [a|e|k IH|g k IH|url k IH|url k IH|k IH];
    cbn [respects try_catch] in *; auto.
  destruct Hp as [Hg Hk]. auto.
Qed.

(** One turn of a call that respects [P]. *)
Lemma respects_advance {A : Type} (P : World -> Prop) (p : async A) (w : World) :
  respects P p ->
  status_respects P (advance p w).2 /\ (P w -> P (advance p w).1).
Proof.
  revert w.
  induction p as [a|e|k IH|g k IH|url k IH|url k IH|k IH]; intros w;
    cbn [respects advance status_respects fst snd]; auto.
  intros [Hg Hk]. destruct (IH (g w) Hk) as [H1 H2]. auto.
Qed.

Lemma respects_resume {A : Type} (P : World -> Prop) (st : status A) (r : reply)
    (p : async A) :
  status_respects P st -> resume st r = Some p -> respects P p.
Proof.
  destruct st as [a|e|url k|url k|k], r as [x|x|]; cbn [resume status_respects];
    try discriminate; intros Hst [= <-]; auto.
Qed.

(** [loadMetrics] writes the heap and the cache entry of its code, and
    nothing else. *)
Lemma loadMetrics_respects_writes (P : World -> Prop) (stateCode : string) :
  (forall h w, P w -> P (with_heap h w)) ->
  (forall r w, P w -> P (cache_set stateCode r w)) ->
  respects P (loadMetrics stateCode).
Proof.
  intros Hheap Hset.
  assert (Hbox : forall v, respects P (box v)).
  { intros v. destruct v; cbn [box respects]; auto. }
  unfold loadMetrics. intros w.
  destruct (truthy_ref (cache_get w stateCode)); [exact I|].
  apply respects_bind.
  - apply respects_try_catch; [|intros e; exact I].
    intros [resp|]; [|exact I].
    destruct (ok resp); [|exact I]. cbn [respects].
    destruct (json resp) as [body|]; [|exact I].
    apply respects_bind; [apply Hbox|]. intros data. split; [apply Hset | exact I].
  - intros [data|]; [exact I|].
    apply respects_bind; [apply Hbox|]. intros fb. split; [apply Hset | ].
    intros w'. exact I.
Qed.

(** No write of [loadMetrics] takes an entry out of the cache. *)
Lemma loadMetrics_respects (c stateCode : string) :
  respects (has_entry c) (loadMetrics stateCode).
Proof.
  apply loadMetrics_respects_writes.
  - intros h w Hw. exact Hw.
  - intros r w Hw. apply has_entry_set. now right.
Qed.

(** One turn of a call for [stateCode] that is in order. *)
Lemma call_ok_advance (stateCode : string) (p : async ref) (w : World) :
  (forall c, respects (has_entry c) p) ->
  wp (fun _ => True) p (fun _ => has_entry stateCode) (fun _ _ => False) w ->
  call_ok stateCode (advance p w).1 (advance p w).2
  /\ forall c, has_entry c w -> has_entry c (advance p w).1.
Proof.
  intros Hgrow Hset.
  apply wp_advance_status in Hset.
  split; [split|].
  - intros c. apply respects_advance, Hgrow.
  - destruct ((advance p w).2); try exact Hset.
    + intros r w'. now apply Hset.
    + intros r w'. now apply Hset.
    + intros w'. now apply Hset.
  - intros c. apply respects_advance, Hgrow.
Qed.

Lemma call_ok_resume (stateCode : string) (st : status ref) (r : reply)
    (p : async ref) (w w0 : World) :
  call_ok stateCode w0 st -> resume st r = Some p ->
  (forall c, respects (has_entry c) p)
  /\ wp (fun _ => True) p (fun _ => has_entry stateCode) (fun _ _ => False) w.
Proof.
  intros [Hgrow Hset] Hr. split.
  - intros c. exact (respects_resume _ st r p (Hgrow c) Hr).
  - destruct st as [a|e|url k|url k|k], r as [x|x|]; cbn [resume] in Hr;
      try discriminate; injection Hr as <-; apply Hset.
Qed.

(** An entry once written stays: a call that is in order stays in order
    when another call takes a turn. *)
Lemma call_ok_stable (stateCode : string) (st : status ref) (w w' : World) :
  (forall c, has_entry c w -> has_entry c w') ->
  call_ok stateCode w st -> call_ok stateCode w' st.
Proof.
  intros Hmono [Hgrow Hset]. split; [exact Hgrow|].
  destruct st; auto.
Qed.

Lemma map_loadMetrics_world (codes : list string) (w : World) :
  pool_world (map_loadMetrics codes w) = w.
Proof.
  revert w. induction codes as [|c cs IH]; intros w; [reflexivity|].
  cbn [map_loadMetrics].
  destruct (loadMetrics_first_turn c w) as [k ->]. cbn [pool_world]. apply IH.
Qed.

Lemma map_loadMetrics_ok (codes : list string) (w : World) :
  Forall2 (fun c st => call_ok c w st) codes (pool_calls (map_loadMetrics codes w)).
Proof.
  induction codes as [|c cs IH]; [constructor|].
  cbn [map_loadMetrics].
  pose proof (call_ok_advance c (loadMetrics c) w
                (fun c0 => loadMetrics_respects c0 c)) as Hok.
  destruct (loadMetrics_first_turn c w) as [k Hk]. rewrite Hk in *.
  cbn [pool_calls fst snd] in *. constructor; [|exact IH].
  apply Hok. apply loadMetrics_wp; auto.
  - apply has_entry_truthy.
  - intros r h w' _. apply has_entry_set. now left.
  - intros r w' _. apply has_entry_set. now left.
Qed.

Lemma complete_ok (codes : list string) (s : Pool) (d : nat * reply) :
  Forall2 (fun c st => call_ok c (pool_world s) st) codes (pool_calls s) ->
  Forall2 (fun c st => call_ok c (pool_world (complete s d)) st) codes
    (pool_calls (complete s d))
  /\ forall c, has_entry c (pool_world s) -> has_entry c (pool_world (complete s d)).
Proof.
  intros Hs. unfold complete.
  destruct (pool_calls s !! d.1) as [st|] eqn:Hi; [|now split].
  destruct (resume st d.2) as [p|] eqn:Hr; [|now split].
  destruct (Forall2_lookup_r _ _ _ _ _ Hs Hi) as (c & Hc & Hst).
  destruct (call_ok_resume c st d.2 p (pool_world s) _ Hst Hr) as [Hgrow Hset].
  destruct (call_ok_advance c p (pool_world s) Hgrow Hset) as [Hok Hmono].
  destruct (advance p (pool_world s)) as [w' st']. cbn [pool_world pool_calls fst snd] in *.
  split; [|exact Hmono].
  rewrite <- (list_insert_id codes d.1 c Hc).
  apply Forall2_insert; [|exact Hok].
  eapply Forall2_impl; [exact Hs|].
  intros c0 st0. now apply call_ok_stable.
Qed.

Lemma warmMetricsCache_ok (codes : list string) (ds : list (nat * reply)) (w : World) :
  let s := warmMetricsCache codes ds w in
  Forall2 (fun c st => call_ok c (pool_world s) st) codes (pool_calls s)
  /\ forall c, has_entry c w -> has_entry c (pool_world s).
Proof.
  unfold warmMetricsCache.
  assert (Hgen : forall s,
    Forall2 (fun c st => call_ok c (pool_world s) st) codes (pool_calls s) ->
    Forall2 (fun c st => call_ok c (pool_world (fold_left complete ds s)) st) codes
      (pool_calls (fold_left complete ds s))
    /\ forall c, has_entry c (pool_world s) ->
         has_entry c (pool_world (fold_left complete ds s))).
  { induction ds as [|d ds IH]; intros s Hs; [now split|].
    cbn [fold_left]. destruct (complete_ok codes s d Hs) as [Hs' Hmono].
    destruct (IH _ Hs') as [Hfin Hmono']. split; [exact Hfin|]. auto. }
  cbv zeta. 
  assert (Hstart : Forall2
            (fun c st => call_ok c (pool_world (map_loadMetrics codes w)) st)
            codes (pool_calls (map_loadMetrics codes w))).
  { rewrite map_loadMetrics_world. apply map_loadMetrics_ok. }
  destruct (Hgen _ Hstart) as [H1 H2]. split; [exact H1|].
  intros c Hc. apply H2. now rewrite map_loadMetrics_world.
Qed.

(** X14.  The prefetch starts one call per code, in one turn and without
    writing anything: a call for a code with a truthy cached value has
    returned that value, each other call has sent its own request, so that
    a code listed twice is requested twice. *)
Theorem warmMetricsCache_requests (codes : list string) (w : World) :
  let s := warmMetricsCache codes [] w in
  pool_world s = w
  /\ length (pool_calls s) = length codes
  /\ pending_requests s
     = map metrics_url
         (List.filter (fun c => negb (truthy_ref (cache_get w c))) codes)
  /\ forall i c,
       codes !! i = Some c -> truthy_ref (cache_get w c) = true ->
       pool_calls s !! i = Some (Finished (cache_get w c)).
Proof.
  unfold warmMetricsCache. cbn [fold_left]. cbv zeta.
  split; [apply map_loadMetrics_world|].
  induction codes as [|c cs IH]; [repeat split; intros i c; discriminate|].
  destruct IH as (IH1 & IH2 & IH3).
  cbn [map_loadMetrics].
  destruct (loadMetrics_first_turn c w) as [k ->]. cbn [pool_calls].
  split; [cbn [length]; now rewrite IH1|]. split.
  - unfold pending_requests in *. cbn [pool_calls omap List.filter].
    destruct (truthy_ref (cache_get w c)); cbn [negb]; [exact IH2|].
    cbn [map]. now rewrite <- IH2.
  - intros [|i] c0 Hc0 Hhit; cbn in Hc0 |- *.
    + injection Hc0 as ->. now rewrite Hhit.
    + now apply IH3.
Qed.

(** X15.  The prefetch never rejects: in whatever order the responses and
    the parsed bodies arrive, and whatever they are, no call of
    [codes.map(loadMetrics)] throws, so [Promise.all] is never rejected and
    the [await] on [warmMetricsCache] in the bootstrap never throws. *)
Theorem warmMetricsCache_never_rejects (codes : list string)
    (ds : list (nat * reply)) (w : World) :
  ~ rejected (warmMetricsCache codes ds w).
Proof.
  intros (i & e & Hi).
  destruct (warmMetricsCache_ok codes ds w) as [Hok _].
  destruct (Forall2_lookup_r _ _ _ _ _ Hok Hi) as (c & _ & _ & Hbad).
  exact Hbad.
Qed.

(** X16.  Once a call of the prefetch has returned, the cache has an entry
    for its code, and entries are never taken out: when [Promise.all] is
    fulfilled, every code of the list has an entry, and so has every code
    that had one before, in whatever order the completions arrived. *)
Theorem warmMetricsCache_fills (codes : list string) (ds : list (nat * reply))
    (w : World) :
  let s := warmMetricsCache codes ds w in
  (forall i c m,
     codes !! i = Some c -> pool_calls s !! i = Some (Finished m) ->
     has_entry c (pool_world s))
  /\ (fulfilled s -> forall c, In c codes -> has_entry c (pool_world s))
  /\ (forall c, has_entry c w -> has_entry c (pool_world s)).
Proof.
  cbv zeta. destruct (warmMetricsCache_ok codes ds w) as [Hok Hmono].
  assert (Hone : forall i c m,
    codes !! i = Some c ->
    pool_calls (warmMetricsCache codes ds w) !! i = Some (Finished m) ->
    has_entry c (pool_world (warmMetricsCache codes ds w))).
  { intros i c m Hc Hi.
    destruct (Forall2_lookup_r _ _ _ _ _ Hok Hi) as (c' & Hc' & _ & Hset).
    rewrite Hc in Hc'. injection Hc' as <-. exact Hset. }
  split; [exact Hone|]. split; [|exact Hmono].
  intros Hall c Hin.
  apply list_elem_of_In, list_elem_of_lookup in Hin as [i Hc].
  destruct (Forall2_lookup_l _ _ _ _ _ Hok Hc) as (st & Hi & _).
  destruct (proj1 (Forall_lookup _ _) Hall i st Hi) as [m ->].
  exact (Hone i c m Hc Hi).
Qed.

Lemma warmMetricsCache_requests_witness :
  pending_requests (warmMetricsCache ["CA"; "TX"; "CA"] [] initial_world)
  = ["/api/metrics/CA"; "/api/metrics/TX"; "/api/metrics/CA"].
Proof.
  destruct (warmMetricsCache_requests ["CA"; "TX"; "CA"] initial_world)
    as (_ & _ & H & _).
  exact H.
Defined.

Lemma warmMetricsCache_never_rejects_witness :
  ~ rejected
      (warmMetricsCache popular_states
         [ (2, MetricsReply None);
           (0, MetricsReply (Some {| ok := true; json := None |}));
           (0, Resume);
           (1, MetricsReply (Some {| ok := false; json := None |})) ]
         initial_world).
Proof. apply warmMetricsCache_never_rejects. Defined.

Lemma warmMetricsCache_fills_witness :
  has_entry "TX"
    (pool_world
       (warmMetricsCache ["CA"; "TX"]
          [ (1, MetricsReply None);
            (0, MetricsReply (Some {| ok := true; json := Some demo_record |}));
            (0, Resume) ]
          initial_world)).
Proof.
  destruct (warmMetricsCache_fills ["CA"; "TX"]
              [ (1, MetricsReply None);
                (0, MetricsReply (Some {| ok := true; json := Some demo_record |}));
                (0, Resume) ]
              initial_world) as (_ & H & _).
  apply H.
  - repeat constructor; eexists; reflexivity.
  - right. left. reflexivity.
Defined.

(** ** The nationwide layer *)

Lemma fips_state_inverse (fips code : string) :
  obj_get FIPS_STATE fips = Some code <-> obj_get STATE_FIPS code = Some fips.
Proof.
  split; intros H.
  - apply option_string_eqb_eq.
    exact (table_forall (fun k v => option_string_eqb (obj_get STATE_FIPS v) k)
             FIPS_STATE eq_refl fips code H).
  - apply option_string_eqb_eq.
    exact (table_forall (fun k v => option_string_eqb (obj_get FIPS_STATE v) k)
             STATE_FIPS eq_refl code fips H).
Qed.

Lemma code_truthy (code fips : string) :
  obj_get STATE_FIPS code = Some fips -> truthy_prim (PStr code) = true.
Proof.
  intros H.
  exact (table_forall (fun k _ => truthy_prim (PStr k)) STATE_FIPS eq_refl code fips H).
Qed.

Lemma inherited_not_fips (k : string) :
  inherited k = true -> obj_get FIPS_STATE k = None.
Proof.
  unfold inherited, Object_prototype. cbn [existsb]. intros H.
  repeat (apply orb_prop in H; destruct H as [H|H];
          [apply String.eqb_eq in H; subst k; reflexivity|]).
  discriminate H.
Qed.

Lemma resolved_code_known (f : StateFeature) (code : string) :
  getStateCodeFromFeature f = Code code
  <-> obj_get STATE_FIPS code = Some (state_fp f).
Proof.
  unfold getStateCodeFromFeature. split.
  - destruct (obj_get FIPS_STATE (state_fp f)) as [c|] eqn:Hc.
    + destruct (truthy_prim (PStr c)); [|discriminate].
      intros [= <-]. now apply fips_state_inverse.
    + destruct (inherited (state_fp f)); discriminate.
  - intros H. rewrite (proj2 (fips_state_inverse _ _) H).
    now rewrite (code_truthy _ _ H).
Qed.

(** X17.  [getStateCodeFromFeature] inverts the table on the padded id of
    the feature.  It returns a state code exactly when that code is the one
    the table maps to the id.  For an id that the table does not hold it
    returns [null], unless the padded id names a member of
    [Object.prototype]: then the lookup finds that member, and the result
    is neither a state code nor [null]. *)
Theorem getStateCodeFromFeature_inverts (f : StateFeature) :
  (forall code,
     getStateCodeFromFeature f = Code code
     <-> obj_get STATE_FIPS code = Some (state_fp f))
  /\ (forall name,
        getStateCodeFromFeature f = Member name
        <-> name = state_fp f /\ inherited name = true)
  /\ (getStateCodeFromFeature f = Null
      <-> inherited (state_fp f) = false
          /\ forall code, obj_get STATE_FIPS code <> Some (state_fp f)).
Proof.
  split; [intros code; apply resolved_code_known|].
  unfold getStateCodeFromFeature. split.
  - intros name. split.
    + destruct (obj_get FIPS_STATE (state_fp f)) as [c|] eqn:Hc.
      * destruct (truthy_prim (PStr c)); discriminate.
      * destruct (inherited (state_fp f)) eqn:Hi; [|discriminate].
        intros [= <-]. now split.
    + intros [-> Hi]. now rewrite (inherited_not_fips _ Hi), Hi.
  - split.
    + destruct (obj_get FIPS_STATE (state_fp f)) as [c|] eqn:Hc.
      * apply fips_state_inverse in Hc. now rewrite (code_truthy _ _ Hc).
      * destruct (inherited (state_fp f)); [discriminate|].
        intros _. split; [reflexivity|].
        intros code Hcode. apply fips_state_inverse in Hcode. congruence.
    + intros [Hi Hno].
      destruct (obj_get FIPS_STATE (state_fp f)) as [c|] eqn:Hc.
      * apply fips_state_inverse in Hc. now destruct (Hno c).
      * now rewrite Hi.
Qed.

Lemma getStateCodeFromFeature_inverts_witness :
  getStateCodeFromFeature {| state_properties := None; state_id := PNum 6 |}
  = Code "CA"
  /\ getStateCodeFromFeature
       {| state_properties := None; state_id := PStr "constructor" |}
     = Member "constructor"
  /\ getStateCodeFromFeature {| state_properties := None; state_id := PNum 3 |}
     = Null.
Proof.
  split; [|split].
  - apply (getStateCodeFromFeature_inverts
             {| state_properties := None; state_id := PNum 6 |}).
    reflexivity.
  - apply (getStateCodeFromFeature_inverts
             {| state_properties := None; state_id := PStr "constructor" |}).
    split; reflexivity.
  - apply (getStateCodeFromFeature_inverts
             {| state_properties := None; state_id := PNum 3 |}).
    split; [reflexivity|]. intros code Hcode.
    apply fips_state_inverse in Hcode. discriminate Hcode.
Defined.

(** ** What a call can throw *)

(** A verified call that runs without interruption. *)
Lemma wp_run_seq {A : Type} (Inv : World -> Prop) (net : Network) (p : async A)
    (Q : A -> World -> Prop) (E : exn -> World -> Prop) (w : World) :
  (forall w', Inv w') ->
  wp Inv p Q E w ->
  match settled (run_seq net p w) with
  | Returned a => Q a (final (run_seq net p w))
  | Thrown e => E e (final (run_seq net p w))
  end.
Proof.
  intros HInv. revert w.
  induction p as [a|e|k IH|f' k IH|url k IH|url k IH|k IH]; intros w;
    cbn [wp run_seq sent settled final]; auto.
  all: first [apply IH | intros [_ Hk]; apply IH, Hk, HInv].
Qed.

Lemma show_throws_only (paint : bool) (m : ref) (E : exn -> World -> Prop)
    (w : World) :
  (forall w', E TypeError w') ->
  wp (fun _ => True) (show paint m) (fun _ _ => True) E w.
Proof.
  intros HE. unfold show. cbn [wp]. cbv zeta.
  destruct (vor (opt_prop (deref w m) "classification") (VPrim (PStr "unknown")))
    as [[| | | |c]| |]; cbn [wp]; try apply HE.
  destruct (has_method _ "forEach"); cbn [wp modify]; [exact I | apply HE].
Qed.

Lemma load_districts_throws_only (table : obj string) (stateCode fips : string)
    (w : World) :
  obj_get table stateCode = Some fips ->
  truthy_prim (PStr fips) = true ->
  wp (fun _ => True) (load_districts table stateCode) (fun _ _ => True)
    (fun e _ => e <> unknown_state stateCode) w.
Proof.
  intros Hcode Hfips. unfold load_districts. rewrite Hcode, Hfips. cbn [negb].
  assert (Hrest : forall w',
    wp (fun _ => True)
      (Read (fun w0 =>
         match CONGRESS_TOPO w0 with
         | None => Raise TypeError
         | Some topo =>
             match select_object topo with
             | None => Raise TypeError
             | Some districts =>
                 Return {| features :=
                   List.filter (fun f => String.eqb (state_of f) fips) districts |}
             end
         end)) (fun _ _ => True) (fun e _ => e <> unknown_state stateCode) w').
  { intros w'. cbn [wp]. destruct (CONGRESS_TOPO w') as [topo|]; [|discriminate].
    destruct (select_object topo); cbn [wp]; [exact I | discriminate]. }
  apply wp_bind. cbn [wp].
  destruct (CONGRESS_TOPO w) as [topo|]; cbn [wp]; [apply Hrest|].
  split; [exact I|]. intros [resp|] w1 _; cbn [wp]; [|discriminate].
  destruct (ok resp); cbn [wp].
  - split; [exact I|]. intros w2 _.
    destruct (json resp) as [topo|]; cbn [wp modify]; [apply Hrest | discriminate].
  - unfold unknown_state. cbn. discriminate.
Qed.

(** X18.  A click on a state of the nationwide layer never selects an
    unknown state.  For every feature that [getStateCodeFromFeature]
    resolves to a state code, that code is a code of the table, so the
    [refreshState] that the click handler starts with it never throws
    [Unknown state], whatever the network does; a value from elsewhere can
    (X1).  A feature whose padded id names a member of [Object.prototype]
    resolves to no state code (X17), and is not covered. *)
Theorem clicked_state_is_known (net : Network) (f : StateFeature)
    (stateCode : string) (w : World) :
  getStateCodeFromFeature f = Code stateCode ->
  settled (run_seq net (refreshState stateCode) w)
  <> Thrown (unknown_state stateCode).
Proof.
  intros Hf. apply resolved_code_known in Hf.
  assert (Hwp : wp (fun _ => True) (refreshState stateCode) (fun _ _ => True)
                  (fun e _ => e <> unknown_state stateCode) w).
  { unfold refreshState, modify. cbn [bind wp].
    apply wp_bind, wp_await.
    eapply wp_mono;
      [| |apply (load_districts_throws_only STATE_FIPS stateCode _ _ Hf
                   (fips_truthy _ _ Hf))].
    2: { intros e w' He. exact He. }
    intros geo w2 _.
    cbn [bind wp]. apply wp_bind. unfold renderDistricts.
    destruct (render_returns net (with_currentGeo (Some geo) w2) (Some geo)
                styleDistrictBase onEachDistrict 18) as (_ & _ & _ & _ & _ & Hadv).
    apply (wp_finished _ _ _ _ _ _ _ Hadv).
    apply wp_bind, wp_await.
    eapply wp_mono;
      [| |apply (loadMetrics_wp (fun _ => True) (fun _ => True)); auto].
    2: { intros e w' []. }
    intros m w4 _.
    apply show_throws_only. discriminate. }
  apply (wp_run_seq _ net) in Hwp; [|auto].
  intros Hthrown. rewrite Hthrown in Hwp. now apply Hwp.
Qed.

Lemma clicked_state_is_known_witness :
  settled (run_seq offline (refreshState "CA") initial_world)
  <> Thrown (unknown_state "CA").
Proof.
  apply (clicked_state_is_known offline
           {| state_properties := Some [("state", PStr "06")]; state_id := PUndef |}).
  reflexivity.
Defined.

(** X19.  Generating a plan recolours the state on the nationwide layer,
    although [generatePlan] never touches that layer: [stateStyleSync]
    reads the cached record, which [generatePlan] has changed in place.
    For a feature that resolves to a state code whose record is cached and
    whose districts are loaded, the style after a plan has the colour of
    the classification of the mode as its fill: [#9ca3af] for [fair],
    [#2563eb] for [favor_democrats], [#dc2626] for every other mode.  The
    outline follows the selection, which the plan leaves as it was.  Before
    the plan the fill is what [COLORS] holds under the classification of
    the record converted to a property key, or the colour of [unknown]. *)
Theorem stateStyleSync_follows_plan (net : Network) (stateCode : string)
    (mode : val) (w : World) (l : nat) (rec : val) (fc : FeatureCollection)
    (f : StateFeature) :
  currentGeo w = Some fc ->
  cache_get w stateCode = RObj l ->
  heap w !! l = Some rec ->
  metrics_record rec = true ->
  getStateCodeFromFeature f = Code stateCode ->
  let r := run_seq net (generatePlan stateCode mode) w in
  let selected := option_string_eqb (selectedState w) stateCode in
  let style_with fill :=
    {| state_weight := if selected then 2 else 1;
       state_color := if selected then "#ffffff" else "#111827";
       state_fillOpacity := 35;
       state_fillColor := fill |} in
  stateStyleSync (Some stateCode) (final r)
  = Some (style_with
            (Colour (if is_string mode "fair" then "#9ca3af"
                     else if is_string mode "favor_democrats" then "#2563eb"
                     else "#dc2626")))
  /\ stateStyleSync (Some stateCode) w
     = match ToString (vor (opt_prop rec "classification")
                          (VPrim (PStr "unknown"))) with
       | Some key => Some (style_with (colour_at key))
       | None => None
       end.
Proof.
  intros Hgeo Hcache Hl Hrec Hf r selected style_with.
  destruct (generatePlan_ready net stateCode mode w l rec fc Hgeo Hcache Hl Hrec)
    as (_ & _ & _ & Hc & Hh & _).
  fold r in Hc, Hh.
  pose proof (keeps_run_seq selectedState net (generatePlan stateCode mode) w
                (keeps_generatePlan selectedState stateCode mode
                   (fun _ _ => eq_refl) (fun _ _ => eq_refl) (fun _ _ => eq_refl)
                   (fun _ _ _ _ => eq_refl) (fun _ _ => eq_refl))) as Hsel.
  fold r in Hsel.
  destruct (planned_record (fst (plan_of mode)) (snd (plan_of mode)) rec Hrec)
    as (Hcls & _ & _).
  assert (Hget : cache_get (final r) stateCode = RObj l).
  { unfold cache_get in *. now rewrite Hc. }
  assert (Hd : deref (final r) (RObj l)
               = planned (fst (plan_of mode)) (snd (plan_of mode)) rec).
  { unfold deref. rewrite Hh, list_lookup_insert_eq; [reflexivity|].
    exact (lookup_lt_Some _ _ _ Hl). }
  assert (Hd0 : deref w (RObj l) = rec) by (unfold deref; now rewrite Hl).
  assert (Htrue : truthy_prim (PStr stateCode) = true).
  { apply resolved_code_known in Hf. exact (code_truthy _ _ Hf). }
  unfold stateStyleSync. cbn [default from_option id].
  rewrite Hget, Hd, Hcache, Hd0, Hsel, Htrue. cbn [andb].
  unfold classification_of in Hcls. rewrite Hcls.
  fold selected. split.
  - unfold plan_of.
    destruct (is_string mode "fair"); [reflexivity|].
    destruct (is_string mode "favor_democrats"); reflexivity.
  - now destruct (ToString _).
Qed.

Lemma stateStyleSync_follows_plan_witness :
  stateStyleSync (Some "CA")
    (final (run_seq offline (generatePlan "CA" (VPrim (PStr "fair")))
              (ready_world "CA" demo_record one_district)))
  = Some {| state_weight := 2; state_color := "#ffffff";
            state_fillOpacity := 35; state_fillColor := Colour "#9ca3af" |}.
Proof.
  destruct (stateStyleSync_follows_plan offline "CA" (VPrim (PStr "fair"))
              (ready_world "CA" demo_record one_district) 0 demo_record
              {| features := one_district |}
              {| state_properties := None; state_id := PStr "06" |})
    as (H & _); [reflexivity..|].
  exact H.
Defined.

(** The key of the lookup in [COLORS] is the classification converted to a
    string: a record whose classification is the array [["fair"]] is
    drawn in the colour of [fair], and one whose classification is the
    string [toString] gets the member of that name. *)
Example stateStyleSync_converts_key :
  option_map state_fillColor
    (stateStyleSync (Some "CA")
       (ready_world "CA"
          (VObj [("classification", VArr [VPrim (PStr "fair")] [])])
          one_district))
  = Some (Colour "#9ca3af")
  /\ option_map state_fillColor
       (stateStyleSync (Some "CA")
          (ready_world "CA"
             (VObj [("classification", VPrim (PStr "toString"))])
             one_district))
     = Some (Inherited "toString").
Proof. split; reflexivity. Qed.

(** ** Popups *)

(** X20.  The popup of a district names the state it was filed under: for
    every district that the loader returns for the id [fips], the text
    after [STATEFP:] in its popup is the value the filter compared, so it
    pads to [fips]. *)
Theorem popup_names_loaded_state (fips : string) (districts : list Feature)
    (f : Feature) :
  In f (features (districts_of fips districts)) ->
  exists d s,
    onEachDistrict f
    = "<strong>District:</strong> " +:+ d +:+ "<br/><strong>STATEFP:</strong> " +:+ s
    /\ padStart 2 "0"%char s = fips.
Proof.
  cbn [features districts_of]. intros Hin.
  apply filter_In in Hin as [_ Hst]. apply String.eqb_eq in Hst.
  eexists _, (String_of (state_property f)). split; [reflexivity|exact Hst].
Qed.

Lemma popup_names_loaded_state_witness :
  exists d s,
    onEachDistrict wy_district
    = "<strong>District:</strong> " +:+ d +:+ "<br/><strong>STATEFP:</strong> " +:+ s
    /\ padStart 2 "0"%char s = "56".
Proof.
  apply (popup_names_loaded_state "56" (wy_district :: ca_districts)).
  left. reflexivity.
Defined.

(** X21.  The earlier page reads the two state properties in the opposite
    order in its popup: a district that carries both [STATEFP] and [state]
    is filed under [STATEFP] by the loader, while its popup names
    [state]. *)
Theorem Mvp_popup_names_other_property (f : Feature) (s t : string) :
  f_prop f "STATEFP" = PStr s -> s <> "" ->
  f_prop f "state" = PStr t -> t <> "" ->
  state_of f = padStart 2 "0"%char s
  /\ exists d,
       Mvp.onEachDistrict f
       = "<strong>District:</strong> " +:+ d +:+ "<br/><strong>State:</strong> " +:+ t.
Proof.
  intros Hs Hsne Ht Htne.
  assert (Ts : truthy_prim (PStr s) = true)
    by (cbn; now apply negb_true_iff, String.eqb_neq).
  assert (Tt : truthy_prim (PStr t) = true)
    by (cbn; now apply negb_true_iff, String.eqb_neq).
  split.
  - unfold state_of, state_property, por. rewrite Hs, Ts. cbv iota.
    now rewrite Ts.
  - assert (Hst : por (por (f_prop f "state") (f_prop f "STATEFP")) (PStr "?")
                  = PStr t).
    { unfold por. rewrite Ht, Tt. cbv iota. now rewrite Tt. }
    unfold Mvp.onEachDistrict. cbv zeta. rewrite Hst. eexists. reflexivity.
Qed.

Lemma Mvp_popup_names_other_property_witness :
  state_of {| properties := [("STATEFP", PStr "06"); ("state", PStr "48")];
              geometry := [] |}
  = "06".
Proof.
  destruct (Mvp_popup_names_other_property
              {| properties := [("STATEFP", PStr "06"); ("state", PStr "48")];
                 geometry := [] |} "06" "48") as [H _];
    [reflexivity | discriminate | reflexivity | discriminate |].
  exact H.
Defined.

(** ** A generated plan and a new selection *)

Lemma metrics_record_displayable (rec : val) (c : string) :
  metrics_record rec = true ->
  classification_of rec = VPrim (PStr c) ->
  displayable rec = true.
Proof.
  intros Hrec Hc.
  destruct (metrics_record_inv rec Hrec)
    as (_ & s & items & props & Hs & _ & Hn & Harr & _).
  apply andb_true_iff in Harr as [_ HforEach].
  unfold displayable. unfold classification_of in Hc. rewrite Hc.
  destruct (vor (VPrim (PStr c)) (VPrim (PStr "unknown"))) as [[| | | |c']| |] eqn:Hv;
    try (unfold vor in Hv; destruct (truthy (VPrim (PStr c))); discriminate).
  unfold vor in Hs. destruct (truthy (opt_prop rec "summary")) eqn:Ht.
  - subst s. now rewrite Hn.
  - subst s.
    assert (Hnone : opt_prop (opt_prop rec "summary") "notes" = undefined).
    { now apply opt_prop_falsy. }
    rewrite Hnone. reflexivity.
Qed.

(** X22.  A generated plan outlives a new selection in the sidebar, but
    not on the map.  After [generatePlan] on a state whose record and
    topology are cached, selecting the state again sends no request and
    shows the record as the plan left it, with the classification and the
    note of the mode, while the districts are drawn in the base style
    again. *)
Theorem plan_outlives_selection (net : Network) (stateCode fips : string)
    (mode : val) (w : World) (l : nat) (rec : val) (fc : FeatureCollection)
    (topo : Topology) (districts : list Feature) :
  obj_get STATE_FIPS stateCode = Some fips ->
  CONGRESS_TOPO w = Some topo ->
  select_object topo = Some districts ->
  currentGeo w = Some fc ->
  cache_get w stateCode = RObj l ->
  heap w !! l = Some rec ->
  metrics_record rec = true ->
  let w1 := final (run_seq net (generatePlan stateCode mode) w) in
  let r := run_seq net (refreshState stateCode) w1 in
  settled r = Returned tt
  /\ fetched r = []
  /\ classification_text (sidebar (final r)) = toUpperCase (snd (plan_of mode))
  /\ notes_items (sidebar (final r))
     = VPrim (PStr (fst (plan_of mode))) :: notes_of rec
  /\ layer_style <$> geoLayer (final r) = Some styleDistrictBase
  /\ layer_style <$> geoLayer w1 = Some (styleDistrictMode mode).
Proof.
  intros Hcode Htopo Hsel Hgeo Hcache Hl Hrec w1 r.
  destruct (generatePlan_ready net stateCode mode w l rec fc Hgeo Hcache Hl Hrec)
    as (_ & _ & _ & Hc & Hh & Hlayer).
  fold w1 in Hc, Hh, Hlayer.
  pose proof (keeps_run_seq CONGRESS_TOPO net (generatePlan stateCode mode) w
                (keeps_generatePlan CONGRESS_TOPO stateCode mode
                   (fun _ _ => eq_refl) (fun _ _ => eq_refl) (fun _ _ => eq_refl)
                   (fun _ _ _ _ => eq_refl) (fun _ _ => eq_refl))) as Ht.
  fold w1 in Ht. rewrite Htopo in Ht.
  destruct (planned_record (fst (plan_of mode)) (snd (plan_of mode)) rec Hrec)
    as (Hcls & Hnotes & Hrec').
  set (rec' := planned (fst (plan_of mode)) (snd (plan_of mode)) rec) in *.
  assert (Hget : cache_get w1 stateCode = RObj l).
  { unfold cache_get in *. now rewrite Hc. }
  assert (Hd : deref w1 (RObj l) = rec').
  { unfold deref. rewrite Hh, list_lookup_insert_eq; [reflexivity|].
    exact (lookup_lt_Some _ _ _ Hl). }
  assert (Hne : vor (VPrim (PStr (snd (plan_of mode)))) (VPrim (PStr "unknown"))
                = VPrim (PStr (snd (plan_of mode)))).
  { unfold plan_of. destruct (is_string mode "fair"); [reflexivity|].
    destruct (is_string mode "favor_democrats"); reflexivity. }
  destruct (refreshState_cached net w1 stateCode fips topo districts Hcode Ht Hsel)
    as (R1 & R2 & Rview & Rside & _).
  { now rewrite Hget. }
  { rewrite Hget, Hd. exact (metrics_record_displayable rec' _ Hrec' Hcls). }
  fold r in R1, R2, Rview, Rside.
  rewrite Hget, Hd in Rside.
  unfold view in Rview. injection Rview as _ _ V3.
  split; [exact R1|]. split; [exact R2|].
  rewrite Rside, V3, Hlayer. unfold displayed. cbn [classification_text notes_items].
  unfold classification_of in Hcls. rewrite Hcls, Hne.
  unfold notes_of in Hnotes. rewrite Hnotes.
  repeat split.
Qed.

Lemma plan_outlives_selection_witness :
  let w := with_topo (Some two_states) (ready_world "CA" demo_record ca_districts) in
  let w1 := final (run_seq offline (generatePlan "CA" (VPrim (PStr "fair"))) w) in
  classification_text (sidebar (final (run_seq offline (refreshState "CA") w1)))
  = "FAIR".
Proof.
  destruct (plan_outlives_selection offline "CA" "06" (VPrim (PStr "fair"))
              (with_topo (Some two_states) (ready_world "CA" demo_record ca_districts))
              0 demo_record {| features := ca_districts |} two_states
              (wy_district :: ca_districts))
    as (_ & _ & H & _); [reflexivity..|].
  exact H.
Defined.

(** ** The footprint of the prefetch *)

(** What every call of the pool respects holds as long as the pool runs. *)
Lemma warmMetricsCache_respects (P : World -> Prop) (codes : list string)
    (ds : list (nat * reply)) (w : World) :
  (forall c, In c codes -> respects P (loadMetrics c)) ->
  P w -> P (pool_world (warmMetricsCache codes ds w)).
Proof.
  intros Hcodes Hw. unfold warmMetricsCache.
  assert (Hstart : P (pool_world (map_loadMetrics codes w))
                   /\ Forall (status_respects P) (pool_calls (map_loadMetrics codes w))).
  { split; [now rewrite map_loadMetrics_world|].
    clear Hw. induction codes as [|c cs IH]; [constructor|].
    cbn [map_loadMetrics].
    pose proof (respects_advance P (loadMetrics c) w (Hcodes c (or_introl eq_refl)))
      as [Hst _].
    destruct (loadMetrics_first_turn c w) as [k Hk]. rewrite Hk in *.
    cbn [pool_calls fst snd] in *. constructor; [exact Hst|].
    apply IH. intros c0 Hc0. apply Hcodes. now right. }
  clear Hw. revert Hstart. generalize (map_loadMetrics codes w). clear w.
  induction ds as [|d ds IH]; intros s [Hw Hcalls]; [exact Hw|].
  cbn [fold_left]. apply IH. unfold complete.
  destruct (pool_calls s !! d.1) as [st|] eqn:Hi; [|now split].
  destruct (resume st d.2) as [p|] eqn:Hr; [|now split].
  pose proof (respects_resume P st d.2 p
                (proj1 (Forall_lookup _ _) Hcalls d.1 st Hi) Hr) as Hp.
  destruct (respects_advance P p (pool_world s) Hp) as [Hst Hw'].
  destruct (advance p (pool_world s)) as [w' st']. cbn [pool_world pool_calls fst snd] in *.
  split; [now apply Hw'|]. now apply Forall_insert.
Qed.

(** X23.  The prefetch writes nothing but the cache entries of the listed
    codes (and the objects they point to): in whatever order the
    completions arrive, the entry of every other code, the selection, the
    districts, the map, the cached topology and the sidebar are as
    before. *)
Theorem warmMetricsCache_frame (codes : list string) (ds : list (nat * reply))
    (w : World) :
  let s := warmMetricsCache codes ds w in
  (forall c, ~ In c codes -> METRICS_CACHE (pool_world s) !! c = METRICS_CACHE w !! c)
  /\ selectedState (pool_world s) = selectedState w
  /\ drawn (pool_world s) = drawn w
  /\ CONGRESS_TOPO (pool_world s) = CONGRESS_TOPO w
  /\ sidebar (pool_world s) = sidebar w.
Proof.
  cbv zeta.
  assert (Hrest : forall {C : Type} (proj : World -> C),
    (forall h x, proj (with_heap h x) = proj x) ->
    (forall c x, proj (with_cache c x) = proj x) ->
    proj (pool_world (warmMetricsCache codes ds w)) = proj w).
  { intros C proj Hh Hc.
    apply (warmMetricsCache_respects (fun x => proj x = proj w)); [|reflexivity].
    intros c _. apply loadMetrics_respects_writes.
    - intros h x Hx. now rewrite Hh.
    - intros r x Hx. unfold cache_set. now rewrite Hc. }
  split; [|repeat split; apply Hrest; reflexivity].
  intros c Hc.
  apply (warmMetricsCache_respects
           (fun x => METRICS_CACHE x !! c = METRICS_CACHE w !! c)); [|reflexivity].
  intros c0 Hc0. apply loadMetrics_respects_writes.
  - intros h x Hx. exact Hx.
  - intros r x Hx. unfold cache_set. cbn [METRICS_CACHE with_cache].
    rewrite lookup_insert_ne; [exact Hx|]. intros ->. now apply Hc.
Qed.

Lemma warmMetricsCache_frame_witness :
  METRICS_CACHE
    (pool_world
       (warmMetricsCache ["TX"]
          [ (0, MetricsReply (Some {| ok := true; json := Some demo_record |}));
            (0, Resume) ]
          (ready_world "CA" demo_record ca_districts))) !! "CA"
  = Some (RObj 0).
Proof.
  destruct (warmMetricsCache_frame ["TX"]
              [ (0, MetricsReply (Some {| ok := true; json := Some demo_record |}));
                (0, Resume) ]
              (ready_world "CA" demo_record ca_districts)) as (H & _).
  rewrite H; [reflexivity|].
  intros [E|[]]. discriminate E.
Defined.
